(** * A reduced RISC-V toolchain: assembler and simulator

    Shallow embedding of [Assembler.py] and [simulator.py].

    Python strings are lists of characters, Python integers are [Z],
    the register dictionary (keys [x0] .. [x31]) is a finite map from the
    register number to its value, the memory is a list of words.  Python
    exceptions are an explicit error result; state mutated in place is
    threaded through the executors. *)

From Stdlib Require Import ZArith Lia Ascii String List.
From stdpp Require Import base option list strings gmap.

Open Scope Z_scope.

(** ** Strings *)

Abbreviation str := (list ascii).

Definition lit (s : string) : str := list_ascii_of_string s.

Fixpoint str_eqb (s t : str) : bool :=
  match s, t with
  | [], [] => true
  | c :: s', d :: t' => Ascii.eqb c d && str_eqb s' t'
  | _, _ => false
  end.

(** ** Exceptions *)

Inductive exn : Type :=
  | ValueError_int            (* int(): invalid literal *)
  | IndexError                (* sequence index out of range *)
  | KeyError                  (* dictionary key missing *)
  | Unknown_R_funct7
  | Unknown_R_funct3
  | Invalid_memory_address (addr : Z)
  | Unknown_I_type
  | Unknown_S_type
  | Unknown_B_funct3
  | Unknown_J_opcode
  | Unknown_opcode.

Inductive res (A : Type) : Type :=
  | Ok (a : A)
  | Raise (e : exn).
Arguments Ok {A} a.
Arguments Raise {A} e.

Definition res_bind {A B} (m : res A) (k : A -> res B) : res B :=
  match m with
  | Ok a => k a
  | Raise e => Raise e
  end.

Notation "'try!' x ':=' m 'in' k" := (res_bind m (fun x => k))
  (at level 10, x name, m at level 100, k at level 200).

(** ** Python built-ins used by both programs *)

(** Binary digits of a positive number, most significant first. *)
Fixpoint bin_pos (p : positive) (acc : str) : str :=
  match p with
  | xH => "1"%char :: acc
  | xO q => bin_pos q ("0"%char :: acc)
  | xI q => bin_pos q ("1"%char :: acc)
  end.

Definition bin_digits (n : Z) : str :=
  match n with
  | Z0 => lit "0"
  | Zpos p => bin_pos p []
  | Zneg p => bin_pos p []
  end.

(** [bin(n)]: ["0b101"], ["-0b101"]. *)
Definition bin (n : Z) : str :=
  (if n <? 0 then lit "-0b" else lit "0b") ++ bin_digits n.

(** [s.zfill(width)]: zeros go after a leading sign. *)
Definition zfill (width : nat) (s : str) : str :=
  if (width <=? length s)%nat then s
  else
    let zeros := replicate (width - length s) "0"%char in
    match s with
    | c :: r =>
        if Ascii.eqb c "+" || Ascii.eqb c "-" then c :: zeros ++ r
        else zeros ++ s
    | [] => zeros
    end.

Definition bit_value (c : ascii) : option Z :=
  if Ascii.eqb c "0" then Some 0
  else if Ascii.eqb c "1" then Some 1
  else None.

Fixpoint int2_acc (s : str) (acc : Z) : option Z :=
  match s with
  | [] => Some acc
  | c :: s' =>
      match bit_value c with
      | Some d => int2_acc s' (2 * acc + d)
      | None => None
      end
  end.

(** [int(s, 2)] on the strings the programs pass to it: non-empty runs of
    the characters 0 and 1 (slices of a zero-filled [bin] string, or a
    validated program line).  Anything else is a [ValueError]; the sign,
    prefix, underscore and blank forms that Python's [int] also reads never
    reach it here and are not modelled. *)
Definition int2 (s : str) : res Z :=
  match s with
  | [] => Raise ValueError_int
  | _ =>
      match int2_acc s 0 with
      | Some n => Ok n
      | None => Raise ValueError_int
      end
  end.

(** [s[i:]] for an integer [i] of either sign. *)
Definition slice_from (i : Z) (s : str) : str :=
  if i <? 0 then drop (Z.to_nat (Z.max 0 (Z.of_nat (length s) + i))) s
  else drop (Z.to_nat i) s.

(** [s[a:b]] for literal bounds [0 <= a <= b]. *)
Definition slice (a b : nat) (s : str) : str := take (b - a) (drop a s).

(** ** Bit codec *)

(** Assembler: [make_binary(num, size)]. *)
Definition make_binary (num : Z) (size : nat) : str :=
  let num := if num <? 0 then 2 ^ Z.of_nat size + num else num in
  zfill size (drop 2 (bin num)).

Definition invert_bit (bit : ascii) : ascii :=
  if Ascii.eqb bit "0" then "1"%char else "0"%char.

(** Simulator: [binary_to_decimal(binary_str, bits)]. *)
Definition binary_to_decimal (binary_str : str) (bits : nat) : res Z :=
  let binary_str :=
    if (bits <? length binary_str)%nat
    then slice_from (- Z.of_nat bits) binary_str
    else binary_str in
  match binary_str with
  | [] => Raise IndexError
  | c :: _ =>
      if Ascii.eqb c "1" then
        let inverted := map invert_bit binary_str in
        try! n := int2 inverted in Ok (-1 * (n + 1))
      else int2 binary_str
  end.

(** ** Simulator: instruction tables *)

Module R_TYPE.
Record entry := { opcode : str; funct3 : str; funct7 : str }.
Definition add := {| opcode := lit "0110011"; funct3 := lit "000"; funct7 := lit "0000000" |}.
Definition sub := {| opcode := lit "0110011"; funct3 := lit "000"; funct7 := lit "0100000" |}.
Definition slt := {| opcode := lit "0110011"; funct3 := lit "010"; funct7 := lit "0000000" |}.
Definition srl := {| opcode := lit "0110011"; funct3 := lit "101"; funct7 := lit "0000000" |}.
Definition or := {| opcode := lit "0110011"; funct3 := lit "110"; funct7 := lit "0000000" |}.
Definition and := {| opcode := lit "0110011"; funct3 := lit "111"; funct7 := lit "0000000" |}.
End R_TYPE.

Module I_TYPE.
Record entry := { opcode : str; funct3 : str }.
Definition addi := {| opcode := lit "0010011"; funct3 := lit "000" |}.
Definition lw := {| opcode := lit "0000011"; funct3 := lit "010" |}.
Definition jalr := {| opcode := lit "1100111"; funct3 := lit "000" |}.
End I_TYPE.

Module S_TYPE.
Record entry := { opcode : str; funct3 : str }.
Definition sw := {| opcode := lit "0100011"; funct3 := lit "010" |}.
End S_TYPE.

Module B_TYPE.
Record entry := { opcode : str; funct3 : str }.
Definition beq := {| opcode := lit "1100011"; funct3 := lit "000" |}.
Definition bne := {| opcode := lit "1100011"; funct3 := lit "001" |}.
End B_TYPE.

Module J_TYPE.
Record entry := { opcode : str }.
Definition jal := {| opcode := lit "1101111" |}.
End J_TYPE.

(** ** Simulator: machine state *)

(** The register dictionary, keyed by the number [i] of the key [x<i>],
    and the memory list; both are mutated in place by the executors. *)
Record machine : Type := Machine {
  registers : gmap Z Z;
  memory : list Z
}.

(** A computation over the machine that may raise; what it wrote before
    raising stays written. *)
Definition M (A : Type) : Type := machine -> res A * machine.

Definition ret {A} (a : A) : M A := fun m => (Ok a, m).
Definition raise {A} (e : exn) : M A := fun m => (Raise e, m).
Definition lift {A} (r : res A) : M A := fun m => (r, m).
Definition bind {A B} (c : M A) (k : A -> M B) : M B :=
  fun m =>
    match c m with
    | (Ok a, m') => k a m'
    | (Raise e, m') => (Raise e, m')
    end.

Notation "'do!' x ':=' c 'in' k" := (bind c (fun x => k))
  (at level 10, x name, c at level 100, k at level 200).

(** [registers[f'x{i}']] *)
Definition read_register (i : Z) : M Z :=
  fun m =>
    match registers m !! i with
    | Some v => (Ok v, m)
    | None => (Raise KeyError, m)
    end.

(** [seq[i]] for a Python integer index. *)
Definition list_get {A} (l : list A) (i : Z) : res A :=
  let n := Z.of_nat (length l) in
  let j := if i <? 0 then n + i else i in
  if (0 <=? j) && (j <? n) then
    match l !! Z.to_nat j with
    | Some a => Ok a
    | None => Raise IndexError
    end
  else Raise IndexError.

(** [seq[i] = v] for a Python integer index. *)
Definition list_set {A} (l : list A) (i : Z) (v : A) : res (list A) :=
  let n := Z.of_nat (length l) in
  let j := if i <? 0 then n + i else i in
  if (0 <=? j) && (j <? n) then Ok (<[Z.to_nat j := v]> l)
  else Raise IndexError.

Definition read_memory (i : Z) : M Z :=
  fun m => (list_get (memory m) i, m).

Definition write_memory (i : Z) (v : Z) : M unit :=
  fun m =>
    match list_set (memory m) i v with
    | Ok l => (Ok tt, Machine (registers m) l)
    | Raise e => (Raise e, m)
    end.

Definition len_memory : M Z :=
  fun m => (Ok (Z.of_nat (length (memory m))), m).

Definition initialize_registers : gmap Z Z :=
  list_to_map (map (fun i => (Z.of_nat i, 0)) (seq 0 32)).

Definition initialize_memory (size : nat) : list Z := replicate size 0.

Definition write_register (reg_num : Z) (value : Z) : M unit :=
  fun m =>
    if negb (reg_num =? 0)
    then (Ok tt, Machine (<[reg_num := Z.land value 4294967295]> (registers m)) (memory m))
    else (Ok tt, m).

(** [s[i]] for a literal index [i >= 0]. *)
Definition char_at (s : str) (i : nat) : res ascii :=
  match s !! i with
  | Some c => Ok c
  | None => Raise IndexError
  end.

(** ** Simulator: the five executors *)

Definition execute_r_type (instr : str) (pc : Z) : M Z :=
  let funct7 := slice 0 7 instr in
  do! rs2 := lift (int2 (slice 7 12 instr)) in
  do! rs1 := lift (int2 (slice 12 17 instr)) in
  let funct3 := slice 17 20 instr in
  do! rd := lift (int2 (slice 20 25 instr)) in
  let opcode := slice_from 25 instr in
  do! rs1_val := read_register rs1 in
  do! rs2_val := read_register rs2 in
  do! result :=
    (if str_eqb funct3 (R_TYPE.funct3 R_TYPE.add) then
       if str_eqb funct7 (R_TYPE.funct7 R_TYPE.add) then ret (rs1_val + rs2_val)
       else if str_eqb funct7 (R_TYPE.funct7 R_TYPE.sub) then ret (rs1_val - rs2_val)
       else raise Unknown_R_funct7
     else if str_eqb funct3 (R_TYPE.funct3 R_TYPE.slt) then
       ret (if rs1_val <? rs2_val then 1 else 0)
     else if str_eqb funct3 (R_TYPE.funct3 R_TYPE.srl) then
       ret (Z.shiftr rs1_val (rs2_val mod 32))
     else if str_eqb funct3 (R_TYPE.funct3 R_TYPE.or) then
       ret (Z.lor rs1_val rs2_val)
     else if str_eqb funct3 (R_TYPE.funct3 R_TYPE.and) then
       ret (Z.land rs1_val rs2_val)
     else raise Unknown_R_funct3) in
  do! _ := write_register rd result in
  ret (pc + 4).

Definition execute_i_type (instr : str) (pc : Z) : M Z :=
  do! imm := lift (binary_to_decimal (slice 0 12 instr) 12) in
  do! rs1 := lift (int2 (slice 12 17 instr)) in
  let funct3 := slice 17 20 instr in
  do! rd := lift (int2 (slice 20 25 instr)) in
  let opcode := slice_from 25 instr in
  do! rs1_val := read_register rs1 in
  if str_eqb opcode (I_TYPE.opcode I_TYPE.addi) && str_eqb funct3 (I_TYPE.funct3 I_TYPE.addi) then
    let result := rs1_val + imm in
    do! _ := write_register rd result in
    ret (pc + 4)
  else if str_eqb opcode (I_TYPE.opcode I_TYPE.lw) && str_eqb funct3 (I_TYPE.funct3 I_TYPE.lw) then
    let addr := rs1_val + imm in
    do! len := len_memory in
    do! result :=
      (if (0 <=? addr) && (addr <? len * 4) then read_memory (addr / 4)
       else raise (Invalid_memory_address addr)) in
    do! _ := write_register rd result in
    ret (pc + 4)
  else if str_eqb opcode (I_TYPE.opcode I_TYPE.jalr) && str_eqb funct3 (I_TYPE.funct3 I_TYPE.jalr) then
    do! _ := write_register rd (pc + 4) in
    ret (rs1_val + imm)
  else raise Unknown_I_type.

Definition execute_s_type (instr : str) (pc : Z) : M Z :=
  let imm_high := slice 0 7 instr in
  do! rs2 := lift (int2 (slice 7 12 instr)) in
  do! rs1 := lift (int2 (slice 12 17 instr)) in
  let funct3 := slice 17 20 instr in
  let imm_low := slice 20 25 instr in
  let opcode := slice_from 25 instr in
  do! imm := lift (binary_to_decimal (imm_high ++ imm_low) 12) in
  do! rs1_val := read_register rs1 in
  do! rs2_val := read_register rs2 in
  do! _ :=
    (if str_eqb opcode (S_TYPE.opcode S_TYPE.sw) && str_eqb funct3 (S_TYPE.funct3 S_TYPE.sw) then
       let addr := rs1_val + imm in
       do! len := len_memory in
       if (0 <=? addr) && (addr <? len * 4) then write_memory (addr / 4) rs2_val
       else raise (Invalid_memory_address addr)
     else raise Unknown_S_type) in
  ret (pc + 4).

Definition execute_b_type (instr : str) (pc : Z) : M Z :=
  do! imm_12 := lift (char_at instr 0) in
  let imm_10_5 := slice 1 7 instr in
  do! rs2 := lift (int2 (slice 7 12 instr)) in
  do! rs1 := lift (int2 (slice 12 17 instr)) in
  let funct3 := slice 17 20 instr in
  let imm_4_1 := slice 20 24 instr in
  do! imm_11 := lift (char_at instr 24) in
  let opcode := slice_from 25 instr in
  do! imm := lift (binary_to_decimal
                     ([imm_12] ++ [imm_11] ++ imm_10_5 ++ imm_4_1 ++ lit "0") 13) in
  do! rs1_val := read_register rs1 in
  do! rs2_val := read_register rs2 in
  if (rs1 =? 0) && (rs2 =? 0) && (imm =? 0) && str_eqb opcode (B_TYPE.opcode B_TYPE.beq) then
    ret (-1)
  else
    do! branch_taken :=
      (if str_eqb funct3 (B_TYPE.funct3 B_TYPE.beq) then ret (rs1_val =? rs2_val)
       else if str_eqb funct3 (B_TYPE.funct3 B_TYPE.bne) then ret (negb (rs1_val =? rs2_val))
       else raise Unknown_B_funct3) in
    ret (pc + (if branch_taken : bool then imm else 4)).

Definition execute_j_type (instr : str) (pc : Z) : M Z :=
  do! imm_20 := lift (char_at instr 0) in
  let imm_10_1 := slice 1 11 instr in
  do! imm_11 := lift (char_at instr 11) in
  let imm_19_12 := slice 12 20 instr in
  do! rd := lift (int2 (slice 20 25 instr)) in
  let opcode := slice_from 25 instr in
  do! imm := lift (binary_to_decimal
                     ([imm_20] ++ imm_19_12 ++ [imm_11] ++ imm_10_1 ++ lit "0") 21) in
  if str_eqb opcode (J_TYPE.opcode J_TYPE.jal) then
    do! _ := write_register rd (pc + 4) in
    ret (pc + imm)
  else raise Unknown_J_opcode.

(** The body of the [try] in [execute_instruction]: dispatch on the opcode. *)
Definition execute_instruction_body (instruction : str) (pc : Z) : M Z :=
  let opcode := slice_from 25 instruction in
  if str_eqb opcode (R_TYPE.opcode R_TYPE.add) then execute_r_type instruction pc
  else if existsb (str_eqb opcode)
            [I_TYPE.opcode I_TYPE.addi; I_TYPE.opcode I_TYPE.lw; I_TYPE.opcode I_TYPE.jalr]
       then execute_i_type instruction pc
  else if str_eqb opcode (S_TYPE.opcode S_TYPE.sw) then execute_s_type instruction pc
  else if str_eqb opcode (B_TYPE.opcode B_TYPE.beq) then execute_b_type instruction pc
  else if str_eqb opcode (J_TYPE.opcode J_TYPE.jal) then execute_j_type instruction pc
  else if str_eqb opcode (lit "1110011") then ret (-1)
  else raise Unknown_opcode.

(** [execute_instruction]: any exception of the body is caught and becomes
    the error sentinel [-2]; the halt sentinel is [-1]. *)
Definition execute_instruction (instruction : str) (pc : Z) (m : machine) : Z * machine :=
  match execute_instruction_body instruction pc m with
  | (Ok new_pc, m') => (new_pc, m')
  | (Raise _, m') => (-2, m')
  end.

(** ** Simulator: trace, loader and driver *)

(** One trace line: the program counter and the 32 register values
    [x0 .. x31], each masked to 32 bits; the text rendering (hexadecimal
    and binary digits) is left out. *)
Definition trace_line : Type := (Z * list Z)%type.

Fixpoint read_all (registers : gmap Z Z) (keys : list Z) : res (list Z) :=
  match keys with
  | [] => Ok []
  | i :: keys' =>
      match registers !! i with
      | Some v =>
          try! rest := read_all registers keys' in
          Ok (Z.land v 4294967295 :: rest)
      | None => Raise KeyError
      end
  end.

Definition format_registers (pc : Z) (registers : gmap Z Z) : res trace_line :=
  try! reg_lines := read_all registers (map Z.of_nat (seq 0 32)) in
  Ok (pc, reg_lines).

(** One dump line: the address [0x00010000 + 4*i] and the word. *)
Definition format_memory (memory : list Z) : list (Z * Z) :=
  imap (fun i value => (65536 + Z.of_nat i * 4, value)) memory.

Definition is_space (c : ascii) : bool :=
  let n := nat_of_ascii c in
  ((9 <=? n) && (n <=? 13) || (28 <=? n) && (n <=? 32))%nat.

Fixpoint lstrip (s : str) : str :=
  match s with
  | c :: s' => if is_space c then lstrip s' else s
  | [] => []
  end.

Definition strip (s : str) : str := rev (lstrip (rev (lstrip s))).

Definition validate_instruction (line : str) : bool :=
  (length line =? 32)%nat
  && forallb (fun c => Ascii.eqb c "0" || Ascii.eqb c "1") line.

(** The first loop of [load_program]: [None] stands for the [ValueError]
    raised at the first invalid line. *)
Fixpoint read_instructions (file : list str) : option (list str) :=
  match file with
  | [] => Some []
  | line :: file' =>
      let line := strip line in
      match line with
      | [] => read_instructions file'
      | _ =>
          if validate_instruction line
          then option_map (cons line) (read_instructions file')
          else None
      end
  end.

(** The second loop of [load_program]: [memory[i] = int(instr, 2)]. *)
Fixpoint store_instructions (instructions : list str) (i : Z) (memory : list Z)
  : bool * list Z :=
  match instructions with
  | [] => (true, memory)
  | instr :: rest =>
      match int2 instr with
      | Ok w =>
          match list_set memory i w with
          | Ok memory' => store_instructions rest (i + 1) memory'
          | Raise _ => (false, memory)
          end
      | Raise _ => (false, memory)
      end
  end.

(** [load_program(file_path, memory)]; the file is its list of lines, or
    [None] when it cannot be found.  Returns the success flag and the
    memory as it was left. *)
Definition load_program (file : option (list str)) (memory : list Z) : bool * list Z :=
  match file with
  | None => (false, memory)
  | Some file =>
      match read_instructions file with
      | None => (false, memory)
      | Some instructions =>
          if (length memory <? length instructions)%nat then (false, memory)
          else store_instructions instructions 0 memory
      end
  end.

(** The local variables of [run_simulation] and the lines written so far. *)
Record sim : Type := Sim {
  pc : Z;
  halted : bool;
  last_pc : Z;
  step_count : Z;
  mach : machine;
  written : list trace_line
}.

Definition max_steps : Z := 10000.

Inductive flow : Type := Continue | Break.

(** The condition of the [while]. *)
Definition loop_cond (s : sim) : bool :=
  negb (halted s) && (0 <=? pc s) && (pc s <? Z.of_nat (length (memory (mach s))) * 4).

(** One pass through the body of the [while]. *)
Definition loop_body (s : sim) : flow * sim :=
  if pc s =? last_pc s then (Break, s)
  else if step_count s >? max_steps then (Break, s)
  else
    let last_pc := pc s in
    let step_count := step_count s + 1 in
    let m := Machine (<[0 := 0]> (registers (mach s))) (memory (mach s)) in
    match list_get (memory m) (pc s / 4) with
    | Raise _ => (Break, Sim (pc s) (halted s) last_pc step_count m (written s))
    | Ok instr =>
        let instr_bin := zfill 32 (drop 2 (bin instr)) in
        let '(new_pc, m') := execute_instruction instr_bin (pc s) m in
        match format_registers (pc s) (registers m') with
        | Raise _ => (Break, Sim (pc s) (halted s) last_pc step_count m' (written s))
        | Ok line =>
            let written := written s ++ [line] in
            if new_pc =? -1 then
              (Continue, Sim (pc s) true last_pc step_count m' written)
            else if new_pc =? -2 then
              (Break, Sim (pc s) (halted s) last_pc step_count m' written)
            else
              (Continue, Sim new_pc (halted s) last_pc step_count m' written)
        end
    end.

(** The [while] loop; [None] only when the fuel runs out. *)
Fixpoint while_loop (fuel : nat) (s : sim) : option sim :=
  if loop_cond s then
    match fuel with
    | O => None
    | S fuel' =>
        match loop_body s with
        | (Break, s') => Some s'
        | (Continue, s') => while_loop fuel' s'
        end
    end
  else Some s.

(** The output file: the trace lines, then the memory dump. *)
Record output : Type := Output {
  trace_lines : list trace_line;
  memory_dump : list (Z * Z)
}.

Definition initial_sim (memory : list Z) : sim :=
  Sim 0 false (-1) 0 (Machine initialize_registers memory) [].

(** [run_simulation(input_path, output_path)]: the returned flag and the
    output file, which is not created when loading fails. *)
Definition run_simulation (file : option (list str)) : option (bool * option output) :=
  let mem := initialize_memory 32 in
  match load_program file mem with
  | (false, _) => Some (false, None)
  | (true, mem) =>
      match while_loop (Z.to_nat (max_steps + 2)) (initial_sim mem) with
      | None => None
      | Some s =>
          Some (halted s, Some (Output (written s) (format_memory (memory (mach s)))))
      end
  end.

(** ** Assembler: tables *)

(** The dictionary [regs], as its list of items. *)
Definition regs : list (str * str) :=
  map (fun kv => (lit (fst kv), lit (snd kv)))
    [ ("zero", "00000"); ("ra", "00001"); ("sp", "00010"); ("gp", "00011"); ("tp", "00100");
      ("t0", "00101"); ("t1", "00110"); ("t2", "00111"); ("s0", "01000"); ("s1", "01001");
      ("a0", "01010"); ("a1", "01011"); ("a2", "01100"); ("a3", "01101"); ("a4", "01110");
      ("a5", "01111"); ("a6", "10000"); ("a7", "10001"); ("s2", "10010"); ("s3", "10011");
      ("s4", "10100"); ("s5", "10101"); ("s6", "10110"); ("s7", "10111"); ("s8", "11000");
      ("s9", "11001"); ("s10", "11010"); ("s11", "11011"); ("t3", "11100"); ("t4", "11101");
      ("t5", "11110"); ("t6", "11111") ]%string.

(** [d.get(key)] on a dictionary given by its items. *)
Fixpoint dict_get {A} (d : list (str * A)) (key : str) : option A :=
  match d with
  | [] => None
  | (k, v) :: d' => if str_eqb key k then Some v else dict_get d' key
  end.

(** An entry of [insts]; the keys [f3] and [f7] are absent from some. *)
Record inst_entry : Type := Inst {
  op : str;
  f3 : option str;
  f7 : option str
}.

Definition insts : list (str * inst_entry) :=
  [ (lit "add",  Inst (lit "0110011") (Some (lit "000")) (Some (lit "0000000")));
    (lit "sub",  Inst (lit "0110011") (Some (lit "000")) (Some (lit "0100000")));
    (lit "slt",  Inst (lit "0110011") (Some (lit "010")) (Some (lit "0000000")));
    (lit "or",   Inst (lit "0110011") (Some (lit "110")) (Some (lit "0000000")));
    (lit "srl",  Inst (lit "0110011") (Some (lit "101")) (Some (lit "0000000")));
    (lit "lw",   Inst (lit "0000011") (Some (lit "010")) None);
    (lit "addi", Inst (lit "0010011") (Some (lit "000")) None);
    (lit "jalr", Inst (lit "1100111") (Some (lit "000")) None);
    (lit "sw",   Inst (lit "0100011") (Some (lit "010")) None);
    (lit "beq",  Inst (lit "1100011") (Some (lit "000")) None);
    (lit "bne",  Inst (lit "1100011") (Some (lit "001")) None);
    (lit "blt",  Inst (lit "1100011") (Some (lit "100")) None);
    (lit "jal",  Inst (lit "1101111") None None) ].

(** ** Assembler: errors ([sys.exit(1)] after a diagnostic) *)

Inductive asm_error : Type :=
  | Invalid_immediate (imm_str : str)
  | Immediate_out_of_range (imm : Z) (size : nat)
  | Unknown_instruction (inst : str)
  | Wrong_arity (inst : str)
  | Invalid_register (inst : str)
  | Duplicate_label (label : str)
  | Input_not_found
  | Uncaught (e : exn).       (* an exception nobody catches *)

Inductive asm (A : Type) : Type :=
  | Done (a : A)
  | Exit (e : asm_error).
Arguments Done {A} a.
Arguments Exit {A} e.

Definition asm_bind {A B} (m : asm A) (k : A -> asm B) : asm B :=
  match m with
  | Done a => k a
  | Exit e => Exit e
  end.

Notation "'asm!' x ':=' m 'in' k" := (asm_bind m (fun x => k))
  (at level 10, x name, m at level 100, k at level 200).

Definition key (o : option str) : asm str :=
  match o with
  | Some s => Done s
  | None => Exit (Uncaught KeyError)
  end.

(** ** Assembler: immediates *)

Definition digit_value (c : ascii) : option Z :=
  let n := nat_of_ascii c in
  if ((48 <=? n) && (n <=? 57))%nat then Some (Z.of_nat n - 48) else None.

(** Decimal digits, single underscores allowed between two digits. *)
Fixpoint int10_acc (s : str) (acc : Z) (after_digit : bool) : option Z :=
  match s with
  | [] => if after_digit then Some acc else None
  | c :: s' =>
      if Ascii.eqb c "_" then
        if after_digit then int10_acc s' acc false else None
      else
        match digit_value c with
        | Some d => int10_acc s' (10 * acc + d) true
        | None => None
        end
  end.

(** [int(s)] on a token without blanks: [None] is the [ValueError]. *)
Definition int10 (s : str) : option Z :=
  match s with
  | c :: s' =>
      if Ascii.eqb c "+" then int10_acc s' 0 false
      else if Ascii.eqb c "-" then option_map Z.opp (int10_acc s' 0 false)
      else int10_acc s 0 false
  | [] => None
  end.

Definition is_branch (inst : str) : bool :=
  existsb (str_eqb inst) [lit "beq"; lit "bne"; lit "blt"].

(** The first half of [parse_immediate]: a label, else a decimal literal. *)
Definition resolve_immediate (imm_str : str) (labels : gmap str Z) (pc : Z) (inst : str)
  : asm Z :=
  match labels !! imm_str with
  | Some target =>
      if is_branch inst then Done ((target - pc) / 4)
      else if str_eqb inst (lit "jal") then Done ((target - pc) / 4)
      else Done target
  | None =>
      match int10 imm_str with
      | Some imm => Done imm
      | None => Exit (Invalid_immediate imm_str)
      end
  end.

Definition parse_immediate (imm_str : str) (labels : gmap str Z) (pc : Z)
    (inst : str) (line_num : nat) (size : nat) : asm str :=
  asm! imm := resolve_immediate imm_str labels pc inst in
  if negb ((- 2 ^ (Z.of_nat size - 1) <=? imm) && (imm <=? 2 ^ (Z.of_nat size - 1) - 1))
  then Exit (Immediate_out_of_range imm size)
  else Done (make_binary imm size).

(** ** Assembler: one instruction *)

(** [line.replace(",", " ").replace("(", " ").replace(")", "")] *)
Definition replace_punctuation (line : str) : str :=
  flat_map (fun c =>
    if Ascii.eqb c "," then [" "%char]
    else if Ascii.eqb c "(" then [" "%char]
    else if Ascii.eqb c ")" then []
    else [c]) line.

(** [s.split()]: the maximal runs of non-blank characters; [cur] is the
    run being read, reversed. *)
Fixpoint split_acc (s : str) (cur : str) : list str :=
  match s with
  | [] => match cur with [] => [] | _ => [rev cur] end
  | c :: s' =>
      if is_space c then
        match cur with
        | [] => split_acc s' []
        | _ => rev cur :: split_acc s' []
        end
      else split_acc s' (c :: cur)
  end.

Definition split (s : str) : list str := split_acc s [].

Definition endswith_colon (s : str) : bool :=
  match last s with
  | Some c => Ascii.eqb c ":"
  | None => false
  end.

Definition asm_char_at (s : str) (i : nat) : asm str :=
  match s !! i with
  | Some c => Done [c]
  | None => Exit (Uncaught IndexError)
  end.

Definition reg_get (name : str) : option str := dict_get regs name.

Definition do_instruction (line : str) (num : nat) (labels : gmap str Z) (pc : Z)
  : asm (option str) :=
  let parts := split (replace_punctuation line) in
  match parts with
  | [] => Done None
  | inst :: operands =>
      if endswith_colon inst then Done None
      else
        match dict_get insts inst with
        | None => Exit (Unknown_instruction inst)
        | Some entry =>
            let op := op entry in
            if existsb (str_eqb inst) [lit "add"; lit "sub"; lit "slt"; lit "or"; lit "srl"] then
              match operands with
              | [p1; p2; p3] =>
                  match reg_get p1, reg_get p2, reg_get p3 with
                  | Some rd, Some rs1, Some rs2 =>
                      asm! f7 := key (f7 entry) in
                      asm! f3 := key (f3 entry) in
                      Done (Some (f7 ++ rs2 ++ rs1 ++ f3 ++ rd ++ op))
                  | _, _, _ => Exit (Invalid_register inst)
                  end
              | _ => Exit (Wrong_arity inst)
              end
            else if existsb (str_eqb inst) [lit "lw"; lit "addi"; lit "jalr"] then
              match operands with
              | [p1; p2; p3] =>
                  let is_lw := str_eqb inst (lit "lw") in
                  let imm_str := if is_lw then p2 else p3 in
                  match reg_get p1, reg_get (if is_lw then p3 else p2) with
                  | Some rd, Some rs1 =>
                      asm! imm_bin := parse_immediate imm_str labels pc inst num 12 in
                      asm! f3 := key (f3 entry) in
                      Done (Some (imm_bin ++ rs1 ++ f3 ++ rd ++ op))
                  | _, _ => Exit (Invalid_register inst)
                  end
              | _ => Exit (Wrong_arity inst)
              end
            else if str_eqb inst (lit "sw") then
              match operands with
              | [p1; p2; p3] =>
                  let imm_str := p2 in
                  match reg_get p1, reg_get p3 with
                  | Some rs2, Some rs1 =>
                      asm! imm_bin := parse_immediate imm_str labels pc inst num 12 in
                      asm! f3 := key (f3 entry) in
                      Done (Some (slice 0 7 imm_bin ++ rs2 ++ rs1 ++ f3
                                  ++ slice_from 7 imm_bin ++ op))
                  | _, _ => Exit (Invalid_register inst)
                  end
              | _ => Exit (Wrong_arity inst)
              end
            else if is_branch inst then
              match operands with
              | [p1; p2; p3] =>
                  match reg_get p1, reg_get p2 with
                  | Some rs1, Some rs2 =>
                      asm! imm_bin := parse_immediate p3 labels pc inst num 13 in
                      asm! b0 := asm_char_at imm_bin 0 in
                      asm! f3 := key (f3 entry) in
                      asm! b1 := asm_char_at imm_bin 1 in
                      Done (Some (b0 ++ slice 2 8 imm_bin ++ rs2 ++ rs1 ++ f3
                                  ++ slice 8 12 imm_bin ++ b1 ++ op))
                  | _, _ => Exit (Invalid_register inst)
                  end
              | _ => Exit (Wrong_arity inst)
              end
            else if str_eqb inst (lit "jal") then
              match operands with
              | [p1; p2] =>
                  match reg_get p1 with
                  | Some rd =>
                      asm! imm_bin := parse_immediate p2 labels pc inst num 21 in
                      asm! b0 := asm_char_at imm_bin 0 in
                      asm! b9 := asm_char_at imm_bin 9 in
                      Done (Some (b0 ++ slice 10 20 imm_bin ++ b9 ++ slice 1 9 imm_bin
                                  ++ rd ++ op))
                  | None => Exit (Invalid_register inst)
                  end
              | _ => Exit (Wrong_arity inst)
              end
            else Done None
        end
  end.

(** ** Assembler: the two passes *)

(** [line.strip().split('#')[0].strip()] *)
Fixpoint before_hash (s : str) : str :=
  match s with
  | [] => []
  | c :: s' => if Ascii.eqb c "#" then [] else c :: before_hash s'
  end.

Definition clean_line (line : str) : str := strip (before_hash (strip line)).

(** First pass: the label table. *)
Fixpoint collect_labels (lines : list str) (labels : gmap str Z) (pc : Z)
  : asm (gmap str Z) :=
  match lines with
  | [] => Done labels
  | line :: rest =>
      if endswith_colon line then
        let label := removelast line in
        match labels !! label with
        | Some _ => Exit (Duplicate_label label)
        | None => collect_labels rest (<[label := pc]> labels) pc
        end
      else collect_labels rest labels (pc + 4)
  end.

(** Second pass: one word per instruction line. *)
Fixpoint generate (lines : list str) (i : nat) (labels : gmap str Z) (pc : Z)
  : asm (list str) :=
  match lines with
  | [] => Done []
  | line :: rest =>
      if endswith_colon line then generate rest (S i) labels pc
      else
        asm! result := do_instruction line i labels pc in
        asm! binary := generate rest (S i) labels (pc + 4) in
        Done (match result with
              | Some word => match word with [] => binary | _ => word :: binary end
              | None => binary
              end)
  end.

(** [assemble(infile, outfile)]: the lines written to the output file. *)
Definition assemble (file : option (list str)) : asm (list str) :=
  match file with
  | None => Exit Input_not_found
  | Some file =>
      let lines := filter (fun line => line <> []) (map clean_line file) in
      asm! labels := collect_labels lines ∅ 0 in
      generate lines 1 labels 0
  end.

(** ** Reference encodings used to state the results *)

(** The [w] low bits of [n], most significant first. *)
Fixpoint bits_of (w : nat) (n : Z) : str :=
  match w with
  | O => []
  | S w' => bits_of w' (n / 2) ++ [if Z.odd n then "1"%char else "0"%char]
  end.

(** The two's-complement reading of the [w] low bits of [n]. *)
Definition signed (w : nat) (n : Z) : Z :=
  let u := n mod 2 ^ Z.of_nat w in
  if 2 ^ (Z.of_nat w - 1) <=? u then u - 2 ^ Z.of_nat w else u.

(** Every register the instruction fields can name is present. *)
Definition regs_ok (registers : gmap Z Z) : Prop :=
  forall i, 0 <= i < 32 -> is_Some (registers !! i).

(** The machine state after at most [n] passes through the loop body. *)
Fixpoint run_cycles (n : nat) (s : sim) : sim :=
  match n with
  | O => s
  | S n' =>
      if loop_cond s then
        match loop_body s with
        | (Break, s') => s'
        | (Continue, s') => run_cycles n' s'
        end
      else s
  end.

(** [reaches s0 s]: the loop started in [s0] comes back to its head in [s]. *)
Inductive reaches (s0 : sim) : sim -> Prop :=
  | reaches_start : reaches s0 s0
  | reaches_cycle s s' :
      reaches s0 s -> loop_cond s = true -> loop_body s = (Continue, s') ->
      reaches s0 s'.

(** The machine handed to the executor in the cycle that starts in [s]. *)
Definition entry_machine (s : sim) : machine :=
  Machine (<[0 := 0]> (registers (mach s))) (memory (mach s)).

(** The instruction fetched in the cycle that starts in [s]. *)
Definition fetched (s : sim) (instr_bin : str) : Prop :=
  exists instr, memory (mach s) !! Z.to_nat (pc s / 4) = Some instr
                /\ instr_bin = zfill 32 (drop 2 (bin instr)).

(** The cycle that starts in [s] gets as far as executing an instruction. *)
Definition executes (s : sim) : Prop :=
  loop_cond s = true /\ pc s <> last_pc s /\ step_count s <= max_steps.

(** The canonical halt instruction [beq zero, zero, 0]: every immediate bit,
    both register fields and funct3 are zero. *)
Definition halt_word : str := lit "00000000000000000000000001100011".

(** The fields a branch word is decoded into: [(rs1, rs2, imm)]. *)
Definition b_fields (instr : str) : res (Z * Z * Z) :=
  try! imm_12 := char_at instr 0 in
  try! rs2 := int2 (slice 7 12 instr) in
  try! rs1 := int2 (slice 12 17 instr) in
  try! imm_11 := char_at instr 24 in
  try! imm := binary_to_decimal
                ([imm_12] ++ [imm_11] ++ slice 1 7 instr ++ slice 20 24 instr ++ lit "0") 13 in
  Ok (rs1, rs2, imm).

(** The fields a jump word is decoded into: [(rd, imm)]. *)
Definition j_fields (instr : str) : res (Z * Z) :=
  try! imm_20 := char_at instr 0 in
  try! imm_11 := char_at instr 11 in
  try! rd := int2 (slice 20 25 instr) in
  try! imm := binary_to_decimal
                ([imm_20] ++ slice 12 20 instr ++ [imm_11] ++ slice 1 11 instr ++ lit "0") 21 in
  Ok (rd, imm).

(** The number a register name stands for. *)
Definition reg_number (name : str) : option Z :=
  match reg_get name with
  | Some b => match int2 b with Ok n => Some n | Raise _ => None end
  | None => None
  end.

(** [inst] is one of the branch mnemonics of [insts], with funct3 [f3]. *)
Definition branch_entry (inst f3 : str) : Prop :=
  dict_get insts inst = Some (Inst (B_TYPE.opcode B_TYPE.beq) (Some f3) None).

(** The fields an arithmetic word is decoded into: [(rd, rs1, rs2)]. *)
Definition r_fields (instr : str) : res (Z * Z * Z) :=
  try! rs2 := int2 (slice 7 12 instr) in
  try! rs1 := int2 (slice 12 17 instr) in
  try! rd := int2 (slice 20 25 instr) in
  Ok (rd, rs1, rs2).

(** The fields a load word is decoded into: [(rd, rs1, imm)]. *)
Definition i_fields (instr : str) : res (Z * Z * Z) :=
  try! imm := binary_to_decimal (slice 0 12 instr) 12 in
  try! rs1 := int2 (slice 12 17 instr) in
  try! rd := int2 (slice 20 25 instr) in
  Ok (rd, rs1, imm).

(** The fields a store word is decoded into: [(rs1, rs2, imm)]. *)
Definition s_fields (instr : str) : res (Z * Z * Z) :=
  try! rs2 := int2 (slice 7 12 instr) in
  try! rs1 := int2 (slice 12 17 instr) in
  try! imm := binary_to_decimal (slice 0 7 instr ++ slice 20 25 instr) 12 in
  Ok (rs1, rs2, imm).

(** [instr] is a [lw] or a [sw] whose byte address [addr = rs1 + imm]
    lies outside the memory of [m]. *)
Inductive access_out_of_bounds (instr : str) (m : machine) (addr : Z) : Prop :=
  | oob_lw rd rs1 imm rs1_val :
      slice_from 25 instr = I_TYPE.opcode I_TYPE.lw ->
      slice 17 20 instr = I_TYPE.funct3 I_TYPE.lw ->
      i_fields instr = Ok (rd, rs1, imm) ->
      registers m !! rs1 = Some rs1_val ->
      addr = rs1_val + imm ->
      ~ (0 <= addr < Z.of_nat (length (memory m)) * 4) ->
      access_out_of_bounds instr m addr
  | oob_sw rs1 rs2 imm rs1_val rs2_val :
      slice_from 25 instr = S_TYPE.opcode S_TYPE.sw ->
      slice 17 20 instr = S_TYPE.funct3 S_TYPE.sw ->
      s_fields instr = Ok (rs1, rs2, imm) ->
      registers m !! rs1 = Some rs1_val ->
      registers m !! rs2 = Some rs2_val ->
      addr = rs1_val + imm ->
      ~ (0 <= addr < Z.of_nat (length (memory m)) * 4) ->
      access_out_of_bounds instr m addr.

(** What one executor call may change: [x0] keeps its value, no register
    disappears, the memory keeps its length. *)
Definition extends (m m' : machine) : Prop :=
  registers m' !! 0 = registers m !! 0
  /\ (forall i, is_Some (registers m !! i) -> is_Some (registers m' !! i))
  /\ length (memory m') = length (memory m).

Definition keeps {A} (c : M A) : Prop := forall m, extends m (snd (c m)).

(** ** Sample programs *)

(** The words the assembler writes for a source text ([[]] if it exits). *)
Definition assembled (source : list string) : list str :=
  match assemble (Some (map lit source)) with
  | Done binary => binary
  | Exit _ => []
  end.

(** The memory after loading a binary file into the 32-word memory. *)
Definition loaded (file : list str) : list Z :=
  snd (load_program (Some file) (initialize_memory 32)).

Definition halt_program : list str := assembled ["beq zero, zero, 0"%string].

(** A load from byte address 128, one past the 32-word memory. *)
Definition lw_oob_program : list str := assembled ["lw a0, 128(zero)"%string].

(** A store to byte address -4. *)
Definition sw_oob_program : list str := assembled ["sw a0, -4(zero)"%string].

(** A jump to byte address 128, one past the 32-word memory. *)
Definition jump_out_program : list str := assembled ["jal zero, 128"%string].

(** [bne zero, zero, 0]: the halt word with funct3 = 001. *)
Definition bne_zero_word : str := lit "00000000000000000001000001100011".

(** The halt word with funct3 = 111, which names no branch. *)
Definition f111_zero_word : str := lit "00000000000000000111000001100011".

(** Two jumps that send the program counter back and forth between 0 and
    4 for ever: no halt, no register or memory write. *)
Definition pingpong_program : list str :=
  assembled ["jal zero, 4"; "jal zero, -4"]%string.

Definition pingpong_pc (k : nat) : Z := if Nat.even k then 0 else 4.

(** The trace after [k] cycles of that program. *)
Fixpoint pingpong_lines (k : nat) : list trace_line :=
  match k with
  | O => []
  | S j => pingpong_lines j ++ [(pingpong_pc j, replicate 32 0)]
  end.

(** The state of the loop after [k] cycles of that program. *)
Definition pingpong_state (k : nat) : sim :=
  Sim (pingpong_pc k) false
    (match k with O => -1 | S j => pingpong_pc j end)
    (Z.of_nat k)
    (Machine initialize_registers (loaded pingpong_program))
    (pingpong_lines k).

(** [ra = -1], [sp = 1], then [slt gp, ra, sp]. *)
Definition slt_program : list str :=
  assembled ["addi ra, zero, -1"; "addi sp, zero, 1"; "slt gp, ra, sp";
             "beq zero, zero, 0"]%string.

(** A jump over two instructions to a label at byte address 16. *)
Definition jal_label_program : list str :=
  assembled ["addi ra, zero, 1"; "jal ra, end"; "addi ra, zero, 1"; "addi ra, zero, 1";
             "end:"; "beq zero, zero, 0"]%string.

(** A taken branch over two instructions to a label at byte address 16. *)
Definition beq_label_program : list str :=
  assembled ["addi ra, zero, 1"; "beq ra, ra, end"; "addi ra, zero, 1"; "addi ra, zero, 1";
             "end:"; "beq zero, zero, 0"]%string.

(** [a0 = 42], stored at byte address 0 and loaded back into [a1]. *)
Definition store_load_program : list str :=
  assembled ["addi a0, zero, 42"; "sw a0, 0(sp)"; "lw a1, 0(sp)";
             "beq zero, zero, 0"]%string.

(** The returned flag and the number of trace lines of a run. *)
Definition run_summary (file : option (list str)) : option (bool * option Z) :=
  match run_simulation file with
  | Some (success, out) =>
      Some (success, option_map (fun o => Z.of_nat (length (trace_lines o))) out)
  | None => None
  end.

(** The program counters of the trace lines of a run, in order. *)
Definition trace_pcs (file : option (list str)) : option (list Z) :=
  match run_simulation file with
  | Some (_, Some o) => Some (map fst (trace_lines o))
  | _ => None
  end.

(** Register [i] in the last trace line of a run. *)
Definition final_register (file : option (list str)) (i : nat) : option Z :=
  match run_simulation file with
  | Some (_, Some o) =>
      match last (trace_lines o) with
      | Some (_, values) => values !! i
      | None => None
      end
  | _ => None
  end.

(** The [blt] operands for which the assembled word halts the machine:
    both registers are [zero] and the immediate is 0 or 1. *)
Definition blt_halts (p1 p2 : str) (v : Z) : bool :=
  str_eqb p1 (lit "zero") && str_eqb p2 (lit "zero") && ((v =? 0) || (v =? 1)).

(** What holds each time the loop is back at its head, from the start on. *)
Definition sim_inv (s : sim) : Prop :=
  regs_ok (registers (mach s))
  /\ registers (mach s) !! 0 = Some 0
  /\ Z.of_nat (length (written s)) = step_count s
  /\ step_count s <= max_steps + 1.

(** ** Further reference definitions *)

(** A binary digit, and a string made of binary digits only. *)
Definition is_bit (c : ascii) : Prop := c = "0"%char \/ c = "1"%char.

Definition bitstring (s : str) : Prop := Forall is_bit s.

(** A 32-character instruction word. *)
Definition word32 (s : str) : Prop := length s = 32%nat /\ bitstring s.

(** A computation that reads the machine without changing it. *)
Definition unchanged {A} (c : M A) : Prop := forall m, snd (c m) = m.

(** A computation that always returns a value. *)
Definition no_raise {A} (c : M A) : Prop := forall m, exists a, fst (c m) = Ok a.

(** A computation that, when it raises, leaves the machine as it found it. *)
Definition atomic {A} (c : M A) : Prop :=
  forall m e, fst (c m) = Raise e -> snd (c m) = m.

(** The value [execute_r_type] computes from the two operands. *)
Definition alu (funct3 funct7 : str) (rs1_val rs2_val : Z) : res Z :=
  if str_eqb funct3 (R_TYPE.funct3 R_TYPE.add) then
    if str_eqb funct7 (R_TYPE.funct7 R_TYPE.add) then Ok (rs1_val + rs2_val)
    else if str_eqb funct7 (R_TYPE.funct7 R_TYPE.sub) then Ok (rs1_val - rs2_val)
    else Raise Unknown_R_funct7
  else if str_eqb funct3 (R_TYPE.funct3 R_TYPE.slt) then
    Ok (if rs1_val <? rs2_val then 1 else 0)
  else if str_eqb funct3 (R_TYPE.funct3 R_TYPE.srl) then
    Ok (Z.shiftr rs1_val (rs2_val mod 32))
  else if str_eqb funct3 (R_TYPE.funct3 R_TYPE.or) then Ok (Z.lor rs1_val rs2_val)
  else if str_eqb funct3 (R_TYPE.funct3 R_TYPE.and) then Ok (Z.land rs1_val rs2_val)
  else Raise Unknown_R_funct3.

(** The machine after [write_register]. *)
Definition set_register (rd value : Z) (m : machine) : machine :=
  snd (write_register rd value m).

(** The faults an executor raises on purpose. *)
Definition documented_fault (e : exn) : Prop :=
  match e with
  | ValueError_int | IndexError | KeyError => False
  | _ => True
  end.

(** The number a line of binary digits stands for (0 if it is not one). *)
Definition word_value (line : str) : Z :=
  match int2 line with
  | Ok n => n
  | Raise _ => 0
  end.

(** Registers and memory words are 32-bit unsigned values. *)
Definition wf_machine (m : machine) : Prop :=
  (forall i v, registers m !! i = Some v -> 0 <= v < 2 ^ 32)
  /\ Forall (fun w => 0 <= w < 2 ^ 32) (memory m).

(** A computation that keeps the machine 32-bit and returns a value in [Q]. *)
Definition wf_gives {A} (c : M A) (Q : A -> Prop) : Prop :=
  forall m, wf_machine m ->
    wf_machine (snd (c m)) /\ forall a, fst (c m) = Ok a -> Q a.

(** What holds of the machine throughout the run of a loaded program. *)
Definition machine_inv (m : machine) : Prop :=
  wf_machine m /\ regs_ok (registers m) /\ length (memory m) = 32%nat.

(** The state of [store_load_program] after its first cycle. *)
Definition store_load_after_one_cycle : sim :=
  snd (loop_body (initial_sim (loaded store_load_program))).


(** A [jalr] whose target [zero + (-1)] is the halt sentinel. *)
Definition jalr_minus_one_program : list str := assembled ["jalr ra, zero, -1"%string].

(** A jump to itself. *)
Definition self_loop_program : list str := assembled ["jal zero, 0"%string].

(** The names the label lines of a program define, in order. *)
Definition label_names (lines : list str) : list str :=
  map (removelast (A:=ascii)) (filter (fun l => endswith_colon l = true) lines).

(** The number of lines that are not label lines. *)
Fixpoint instruction_lines (lines : list str) : Z :=
  match lines with
  | [] => 0
  | l :: rest =>
      (if endswith_colon l then 0 else 1) + instruction_lines rest
  end.

(** A trace line of a 32-word machine: the PC is inside the memory, there
    are 32 register values, all 32-bit, the first of them 0. *)
Definition line_ok (line : trace_line) : Prop :=
  0 <= fst line < 128
  /\ length (snd line) = 32%nat
  /\ snd line !! 0%nat = Some 0
  /\ Forall (fun v => 0 <= v < 2 ^ 32) (snd line).

(** What holds of the loop state throughout a run, its last state included. *)
Definition run_inv (s : sim) : Prop :=
  machine_inv (mach s) /\ sim_inv s /\ Forall line_ok (written s).

(** The state in which the run of [halt_program] ends. *)
Definition halt_program_end : sim :=
  snd (loop_body (initial_sim (loaded halt_program))).

(** The opcodes [execute_instruction] dispatches on. *)
Definition known_opcodes : list str :=
  [ R_TYPE.opcode R_TYPE.add; I_TYPE.opcode I_TYPE.addi; I_TYPE.opcode I_TYPE.lw;
    I_TYPE.opcode I_TYPE.jalr; S_TYPE.opcode S_TYPE.sw; B_TYPE.opcode B_TYPE.beq;
    J_TYPE.opcode J_TYPE.jal; lit "1110011" ].

(** The loaded file that has no instruction line. *)
Definition blank_program : list str := [lit ""; lit "   "].

(** A file whose one line has the opcode 1110011 and other bits set. *)
Definition system_program : list str := [lit "10100000000000000101000001110011"].

(** The first token of the line is not a label, so that [do_instruction]
    goes on to encode the line. *)
Definition starts_instruction (line : str) : bool :=
  match split (replace_punctuation line) with
  | tok :: _ => negb (endswith_colon tok)
  | [] => false
  end.

(** A line the two passes treat alike: a label line, or a line that starts
    with a mnemonic. *)
Definition regular_line (line : str) : Prop :=
  endswith_colon line = true \/ starts_instruction line = true.

(** A small program with two labels, and what stands before and after the
    second one. *)
Definition loop_source_pre : list str :=
  [lit "addi a0, zero, 1"; lit "loop:"; lit "addi a0, a0, 1"; lit "jal zero, loop"].

Definition loop_source_post : list str := [lit "beq zero, zero, 0"].

Definition loop_labels : gmap str Z := {[ lit "loop" := 4; lit "end" := 12 ]}.

(** * Properties *)

(** ** Strings of binary digits *)

Lemma str_eqb_eq (s t : str) : str_eqb s t = true <-> s = t.
Proof.
  revert t; induction s as [|c s IH]; intros [|d t]; simpl; try easy.
  rewrite andb_true_iff, Ascii.eqb_eq, IH. split.
  - intros [-> ->]; reflexivity.
  - intros [= -> ->]; auto.
Qed.

Lemma str_eqb_refl (s : str) : str_eqb s s = true.
Proof. apply str_eqb_eq; reflexivity. Qed.

Lemma length_bits_of (w : nat) (n : Z) : length (bits_of w n) = w.
Proof.
  revert n; induction w as [|w IH]; intros n; simpl; [reflexivity|].
  rewrite length_app, IH; simpl; lia.
Qed.

Lemma int2_acc_app (s t : str) (a : Z) :
  int2_acc (s ++ t) a =
  match int2_acc s a with Some b => int2_acc t b | None => None end.
Proof.
  revert a; induction s as [|c s IH]; intros a; simpl; [reflexivity|].
  destruct (bit_value c); [apply IH | reflexivity].
Qed.

Lemma int2_acc_bits_of (w : nat) (n a : Z) :
  int2_acc (bits_of w n) a = Some (a * 2 ^ Z.of_nat w + n mod 2 ^ Z.of_nat w).
Proof.
  revert n a; induction w as [|w IH]; intros n a.
  - simpl. rewrite Z.mod_1_r. f_equal; lia.
  - cbn [bits_of]. rewrite int2_acc_app, IH.
    rewrite Nat2Z.inj_succ, Z.pow_succ_r by lia.
    assert (Hp : 0 < 2 ^ Z.of_nat w) by (apply Z.pow_pos_nonneg; lia).
    rewrite (Z.rem_mul_r n 2 (2 ^ Z.of_nat w)) by lia.
    rewrite Zmod_odd.
    destruct (Z.odd n); cbn; f_equal; lia.
Qed.

Lemma bits_of_mod (w : nat) (n : Z) : bits_of w (n mod 2 ^ Z.of_nat w) = bits_of w n.
Proof.
  revert n; induction w as [|w IH]; intros n; [reflexivity|].
  cbn [bits_of].
  rewrite Nat2Z.inj_succ, Z.pow_succ_r by lia.
  assert (Hp : 0 < 2 ^ Z.of_nat w) by (apply Z.pow_pos_nonneg; lia).
  f_equal.
  - rewrite <- (IH (n / 2)), <- (IH (_ / 2)). f_equal.
    rewrite (Z.rem_mul_r n 2 (2 ^ Z.of_nat w)) by lia.
    rewrite (Z.mul_comm 2), Z.add_comm, Z.div_add_l by lia.
    rewrite (Z.div_small (n mod 2) 2) by (apply Z.mod_pos_bound; lia).
    rewrite Z.add_0_r. apply Z.mod_mod; lia.
  - do 2 f_equal.
    assert (H : (n mod (2 * 2 ^ Z.of_nat w)) mod 2 = n mod 2).
    { rewrite (Z.rem_mul_r n 2 (2 ^ Z.of_nat w)) by lia.
      rewrite (Z.mul_comm 2 (_ mod _)), Z.mod_add by lia. apply Z.mod_mod; lia. }
    rewrite !Zmod_odd in H.
    destruct (Z.odd n), (Z.odd (n mod _)); congruence.
Qed.

Lemma bits_of_zero (w : nat) : bits_of w 0 = replicate w "0"%char.
Proof.
  induction w as [|w IH]; [reflexivity|].
  cbn [bits_of]. change (0 / 2) with 0. rewrite IH. simpl.
  clear IH. induction w; simpl; [reflexivity | f_equal; assumption].
Qed.

Lemma bin_pos_app (p : positive) (acc : str) : bin_pos p acc = bin_pos p [] ++ acc.
Proof.
  revert acc; induction p as [q IH|q IH|]; intros acc; simpl; [| |reflexivity].
  - rewrite (IH ("1"%char :: acc)), (IH ["1"%char]), <- app_assoc; reflexivity.
  - rewrite (IH ("0"%char :: acc)), (IH ["0"%char]), <- app_assoc; reflexivity.
Qed.

Lemma bin_pos_head (p : positive) (acc : str) : exists t, bin_pos p acc = "1"%char :: t.
Proof.
  revert acc; induction p as [q IH|q IH|]; intros acc; simpl; eauto.
Qed.

Lemma bin_pos_padded (p : positive) (w : nat) :
  Zpos p < 2 ^ Z.of_nat w ->
  (length (bin_pos p []) <= w)%nat /\
  replicate (w - length (bin_pos p [])) "0"%char ++ bin_pos p [] = bits_of w (Zpos p).
Proof.
  revert w; induction p as [q IH|q IH|]; intros [|w] Hlt;
    try (change (2 ^ Z.of_nat 0) with 1 in Hlt; lia);
    rewrite Nat2Z.inj_succ, Z.pow_succ_r in Hlt by lia.
  - destruct (IH w ltac:(lia)) as [Hlen Hpad].
    cbn [bin_pos bits_of]. rewrite bin_pos_app, length_app. cbn [length].
    split; [lia|].
    replace (S w - (length (bin_pos q []) + 1))%nat with (w - length (bin_pos q []))%nat by lia.
    rewrite app_assoc, Hpad, Pos2Z.inj_xI.
    replace ((2 * Z.pos q + 1) / 2) with (Z.pos q)
      by (apply (Z.div_unique _ 2 _ 1); lia).
    rewrite Z.add_comm, Z.odd_add_mul_2. reflexivity.
  - destruct (IH w ltac:(lia)) as [Hlen Hpad].
    cbn [bin_pos bits_of]. rewrite bin_pos_app, length_app. cbn [length].
    split; [lia|].
    replace (S w - (length (bin_pos q []) + 1))%nat with (w - length (bin_pos q []))%nat by lia.
    rewrite app_assoc, Hpad, Pos2Z.inj_xO.
    replace (2 * Z.pos q / 2) with (Z.pos q)
      by (apply (Z.div_unique _ 2 _ 0); lia).
    rewrite Z.odd_mul. reflexivity.
  - cbn [bin_pos bits_of length]. split; [lia|].
    replace (S w - 1)%nat with w by lia.
    change (1 / 2) with 0. rewrite bits_of_zero. reflexivity.
Qed.

Lemma replicate_zero_snoc (n : nat) :
  replicate n "0"%char ++ ["0"%char] = replicate (S n) "0"%char.
Proof. induction n; simpl; [reflexivity | f_equal; assumption]. Qed.

(** [bin(n)[2:].zfill(w)] is the [w]-digit form of an [n] that fits. *)
Lemma zfill_bin (w : nat) (n : Z) :
  (1 <= w)%nat -> 0 <= n < 2 ^ Z.of_nat w ->
  zfill w (drop 2 (bin n)) = bits_of w n.
Proof.
  intros Hw [Hn0 Hn]. unfold bin.
  destruct (Z.ltb_spec n 0) as [|_]; [lia|].
  cbn [lit list_ascii_of_string app drop]. rewrite drop_0.
  destruct n as [|p|p]; [| |lia].
  - cbn [bin_digits lit list_ascii_of_string]. rewrite bits_of_zero. unfold zfill.
    cbn [length]. destruct (Nat.leb_spec w 1).
    + replace w with 1%nat by lia. reflexivity.
    + cbn [Ascii.eqb Bool.eqb orb]. destruct w as [|w]; [lia|].
      replace (S w - 1)%nat with w by lia. apply replicate_zero_snoc.
  - cbn [bin_digits]. destruct (bin_pos_padded p w Hn) as [Hlen Hpad].
    unfold zfill. destruct (Nat.leb_spec w (length (bin_pos p []))).
    + replace (w - length (bin_pos p []))%nat with 0%nat in Hpad by lia.
      exact Hpad.
    + destruct (bin_pos_head p []) as [t Ht]. rewrite Ht in *.
      cbn [Ascii.eqb Bool.eqb orb]. exact Hpad.
Qed.

Lemma bits_of_add_pow2 (w : nat) (n : Z) : bits_of w (2 ^ Z.of_nat w + n) = bits_of w n.
Proof.
  rewrite <- (bits_of_mod w (_ + n)), <- (bits_of_mod w n). f_equal.
  assert (Hp : 0 < 2 ^ Z.of_nat w) by (apply Z.pow_pos_nonneg; lia).
  rewrite Z.add_comm.
  rewrite <- (Z.mul_1_l (2 ^ Z.of_nat w)) at 1. apply Z.mod_add; lia.
Qed.

(** The encoder writes the [size] low two's-complement bits of [num]. *)
Lemma make_binary_bits_of (size : nat) (num : Z) :
  (1 <= size)%nat -> - 2 ^ Z.of_nat size <= num < 2 ^ Z.of_nat size ->
  make_binary num size = bits_of size num.
Proof.
  intros Hs [Hlo Hhi]. unfold make_binary.
  destruct (Z.ltb_spec num 0).
  - rewrite zfill_bin by lia. apply bits_of_add_pow2.
  - apply zfill_bin; lia.
Qed.

Lemma bits_of_msb (w : nat) (n : Z) :
  bits_of (S w) n =
  (if Z.testbit n (Z.of_nat w) then "1"%char else "0"%char) :: bits_of w n.
Proof.
  revert n; induction w as [|w IH]; intros n.
  - cbn [bits_of app Z.of_nat]. rewrite Z.bit0_odd. reflexivity.
  - change (bits_of (S (S w)) n)
      with (bits_of (S w) (n / 2) ++ [if Z.odd n then "1"%char else "0"%char]).
    rewrite IH. cbn [app bits_of].
    rewrite Nat2Z.inj_succ, <- Z.div2_bits by lia.
    reflexivity.
Qed.

Lemma testbit_mod_pow2 (w : nat) (n : Z) :
  Z.testbit n (Z.of_nat w) = (2 ^ Z.of_nat w <=? n mod 2 ^ Z.of_nat (S w)).
Proof.
  assert (Hp : 0 < 2 ^ Z.of_nat w) by (apply Z.pow_pos_nonneg; lia).
  rewrite Nat2Z.inj_succ, Z.pow_succ_r, (Z.mul_comm 2) by lia.
  rewrite Z.rem_mul_r by lia.
  pose proof (Z.testbit_spec' n (Z.of_nat w) ltac:(lia)) as Hb.
  pose proof (Z.mod_pos_bound n (2 ^ Z.of_nat w) Hp) as Hm.
  rewrite <- Hb.
  destruct (Z.testbit n (Z.of_nat w)); cbn [Z.b2z];
    match goal with |- _ = (?a <=? ?b) => destruct (Z.leb_spec a b) end;
    first [reflexivity | lia].
Qed.

Lemma map_invert_bits_of (w : nat) (n : Z) :
  map invert_bit (bits_of w n) = bits_of w (- n - 1).
Proof.
  revert n; induction w as [|w IH]; intros n; [reflexivity|].
  cbn [bits_of]. rewrite map_app, IH. f_equal.
  - f_equal. apply (Z.div_unique _ 2 _ (1 - n mod 2)).
    + pose proof (Z.mod_pos_bound n 2); lia.
    + pose proof (Z.div_mod n 2); lia.
  - replace (- n - 1) with (- n + -1) by lia.
    rewrite Z.odd_add, Z.odd_opp.
    destruct (Z.odd n); reflexivity.
Qed.

Lemma mod_complement (n m : Z) : 0 < m -> (- n - 1) mod m = m - 1 - n mod m.
Proof.
  intros Hm. symmetry. apply (Z.mod_unique_pos _ _ (- (n / m) - 1)).
  - pose proof (Z.mod_pos_bound n m Hm); lia.
  - pose proof (Z.div_mod n m); lia.
Qed.

Lemma int2_bits_of (w : nat) (n : Z) :
  (1 <= w)%nat -> int2 (bits_of w n) = Ok (n mod 2 ^ Z.of_nat w).
Proof.
  intros Hw. unfold int2. rewrite int2_acc_bits_of.
  destruct w as [|w]; [lia|]. rewrite bits_of_msb. reflexivity.
Qed.

(** The decoder reads a [w]-digit string as a two's-complement number. *)
Lemma binary_to_decimal_bits_of (w : nat) (n : Z) :
  (1 <= w)%nat -> binary_to_decimal (bits_of w n) w = Ok (signed w n).
Proof.
  intros Hw. unfold binary_to_decimal, signed.
  rewrite length_bits_of, Nat.ltb_irrefl.
  assert (Hp : 0 < 2 ^ Z.of_nat w) by (apply Z.pow_pos_nonneg; lia).
  destruct w as [|w]; [lia|].
  replace (Z.of_nat (S w) - 1) with (Z.of_nat w) by lia.
  rewrite <- testbit_mod_pow2.
  pose proof (bits_of_msb w n) as Hmsb.
  destruct (bits_of (S w) n) as [|c s] eqn:Hs; [discriminate|].
  injection Hmsb as -> _.
  destruct (Z.testbit n (Z.of_nat w)); cbn [Ascii.eqb Bool.eqb andb].
  - rewrite <- Hs, map_invert_bits_of, int2_bits_of by lia.
    cbn [res_bind]. rewrite mod_complement by lia. f_equal; lia.
  - rewrite <- Hs. apply int2_bits_of; lia.
Qed.

Lemma signed_in_range (w : nat) (v : Z) :
  (1 <= w)%nat -> - 2 ^ (Z.of_nat w - 1) <= v <= 2 ^ (Z.of_nat w - 1) - 1 ->
  signed w v = v.
Proof.
  intros Hw Hv. unfold signed.
  assert (Hp : 0 < 2 ^ (Z.of_nat w - 1)) by (apply Z.pow_pos_nonneg; lia).
  assert (H2 : 2 ^ Z.of_nat w = 2 * 2 ^ (Z.of_nat w - 1)).
  { rewrite <- Z.pow_succ_r by lia. f_equal; lia. }
  destruct (Z.lt_ge_cases v 0).
  - replace (v mod 2 ^ Z.of_nat w) with (v + 2 ^ Z.of_nat w).
    + destruct (Z.leb_spec (2 ^ (Z.of_nat w - 1)) (v + 2 ^ Z.of_nat w)); lia.
    + apply (Z.mod_unique_pos _ _ (-1)); lia.
  - rewrite Z.mod_small by lia.
    destruct (Z.leb_spec (2 ^ (Z.of_nat w - 1)) v); lia.
Qed.

(** ** C2: the bit codec round trip *)

(** C2.  For each field width [w] the system uses (12, 13 and 21) and each
    signed integer [v] with [-2^(w-1) <= v <= 2^(w-1) - 1], decoding the
    [w]-digit two's-complement string that [make_binary] produces gives
    [v] back: [binary_to_decimal (make_binary v w) w = v]. *)
Theorem codec_round_trip (w : nat) (v : Z) :
  w = 12%nat \/ w = 13%nat \/ w = 21%nat ->
  - 2 ^ (Z.of_nat w - 1) <= v <= 2 ^ (Z.of_nat w - 1) - 1 ->
  binary_to_decimal (make_binary v w) w = Ok v.
Proof.
  intros Hw Hv.
  assert (H1 : (1 <= w)%nat) by lia.
  assert (Hp : 0 < 2 ^ (Z.of_nat w - 1)) by (apply Z.pow_pos_nonneg; lia).
  assert (H2 : 2 ^ Z.of_nat w = 2 * 2 ^ (Z.of_nat w - 1)).
  { rewrite <- Z.pow_succ_r by lia. f_equal; lia. }
  rewrite make_binary_bits_of by lia.
  rewrite binary_to_decimal_bits_of by lia.
  f_equal. apply signed_in_range; lia.
Qed.

Lemma codec_round_trip_witness :
  binary_to_decimal (make_binary (-2048) 12) 12 = Ok (-2048).
Proof. apply codec_round_trip; [left; reflexivity | simpl; lia]. Defined.

(** ** What the executors leave alone *)

Lemma extends_refl (m : machine) : extends m m.
Proof. repeat split; auto. Qed.

Lemma extends_trans (m1 m2 m3 : machine) :
  extends m1 m2 -> extends m2 m3 -> extends m1 m3.
Proof.
  intros (H0 & Hk & Hl) (H0' & Hk' & Hl'). repeat split.
  - congruence.
  - auto.
  - congruence.
Qed.

Lemma keeps_ret {A} (a : A) : keeps (ret a).
Proof. intros m; apply extends_refl. Qed.

Lemma keeps_raise {A} (e : exn) : keeps (@raise A e).
Proof. intros m; apply extends_refl. Qed.

Lemma keeps_lift {A} (r : res A) : keeps (lift r).
Proof. intros m; apply extends_refl. Qed.

Lemma keeps_bind {A B} (c : M A) (k : A -> M B) :
  keeps c -> (forall a, keeps (k a)) -> keeps (bind c k).
Proof.
  intros Hc Hk m. unfold bind. specialize (Hc m).
  destruct (c m) as [[a|e] m']; simpl in *; [|assumption].
  eapply extends_trans; [eassumption | apply Hk].
Qed.

Lemma keeps_read_register (i : Z) : keeps (read_register i).
Proof.
  intros m. unfold read_register. destruct (registers m !! i); apply extends_refl.
Qed.

Lemma keeps_read_memory (i : Z) : keeps (read_memory i).
Proof. intros m; apply extends_refl. Qed.

Lemma keeps_len_memory : keeps len_memory.
Proof. intros m; apply extends_refl. Qed.

Lemma keeps_write_register (rd v : Z) : keeps (write_register rd v).
Proof.
  intros m. unfold write_register.
  destruct (Z.eqb_spec rd 0) as [->|Hrd]; simpl; [apply extends_refl|].
  repeat split; simpl.
  - apply lookup_insert_ne; assumption.
  - intros i Hi. destruct (decide (rd = i)) as [->|Hne].
    + rewrite lookup_insert_eq; eauto.
    + rewrite lookup_insert_ne by assumption. assumption.
Qed.

Lemma keeps_write_memory (i v : Z) : keeps (write_memory i v).
Proof.
  intros m. unfold write_memory, list_set.
  destruct (_ && _); simpl; [|apply extends_refl].
  repeat split; simpl; auto. apply length_insert.
Qed.

Create HintDb keeps.
#[local] Hint Resolve keeps_ret keeps_raise keeps_lift keeps_read_register
  keeps_read_memory keeps_len_memory keeps_write_register keeps_write_memory : keeps.

Ltac keeps_tac :=
  repeat first
    [ apply keeps_bind; [|intros ?]
    | match goal with
      | |- keeps (if ?b then _ else _) => destruct b
      end
    | solve [auto with keeps] ].

Lemma keeps_execute_r_type (instr : str) (pc : Z) : keeps (execute_r_type instr pc).
Proof. unfold execute_r_type. keeps_tac. Qed.

Lemma keeps_execute_i_type (instr : str) (pc : Z) : keeps (execute_i_type instr pc).
Proof. unfold execute_i_type. keeps_tac. Qed.

Lemma keeps_execute_s_type (instr : str) (pc : Z) : keeps (execute_s_type instr pc).
Proof. unfold execute_s_type. keeps_tac. Qed.

Lemma keeps_execute_b_type (instr : str) (pc : Z) : keeps (execute_b_type instr pc).
Proof. unfold execute_b_type. keeps_tac. Qed.

Lemma keeps_execute_j_type (instr : str) (pc : Z) : keeps (execute_j_type instr pc).
Proof. unfold execute_j_type. keeps_tac. Qed.

#[local] Hint Resolve keeps_execute_r_type keeps_execute_i_type keeps_execute_s_type
  keeps_execute_b_type keeps_execute_j_type : keeps.

Lemma keeps_execute_instruction_body (instr : str) (pc : Z) :
  keeps (execute_instruction_body instr pc).
Proof. unfold execute_instruction_body. keeps_tac. Qed.

Lemma extends_execute_instruction (instr : str) (pc : Z) (m : machine) :
  extends m (snd (execute_instruction instr pc m)).
Proof.
  unfold execute_instruction.
  pose proof (keeps_execute_instruction_body instr pc m) as H.
  destruct (execute_instruction_body instr pc m) as [[v|e] m']; exact H.
Qed.

(** ** The driver *)

Lemma regs_ok_initialize_registers : regs_ok initialize_registers.
Proof.
  assert (H : Forall (fun i => is_Some (initialize_registers !! i))
                (map Z.of_nat (seq 0 32))).
  { repeat (constructor; [eexists; vm_compute; reflexivity|]). constructor. }
  intros i Hi. rewrite Forall_forall in H. apply H.
  apply list_elem_of_In, in_map_iff. exists (Z.to_nat i). split; [lia|].
  apply in_seq; lia.
Qed.

Lemma read_all_ok (registers : gmap Z Z) (keys : list Z) :
  Forall (fun i => is_Some (registers !! i)) keys ->
  exists l, read_all registers keys = Ok l.
Proof.
  induction 1 as [|i keys [v Hv] _ [l Hl]]; simpl; [eauto|].
  rewrite Hv, Hl. simpl. eauto.
Qed.

Lemma format_registers_ok (pc : Z) (registers : gmap Z Z) :
  regs_ok registers -> exists line, format_registers pc registers = Ok line.
Proof.
  intros Hok. unfold format_registers.
  destruct (read_all_ok registers (map Z.of_nat (seq 0 32))) as [l Hl].
  - apply Forall_forall. intros i Hi. apply Hok.
    apply list_elem_of_In, in_map_iff in Hi. destruct Hi as (n & <- & Hn).
    apply in_seq in Hn. lia.
  - rewrite Hl. simpl. eauto.
Qed.

Lemma regs_ok_extends (m m' : machine) :
  extends m m' -> regs_ok (registers m) -> regs_ok (registers m').
Proof. intros (_ & Hk & _) Hok i Hi. auto. Qed.

Lemma regs_ok_entry_machine (s : sim) :
  regs_ok (registers (mach s)) -> regs_ok (registers (entry_machine s)).
Proof.
  intros Hok i Hi. cbn. destruct (decide (0 = i)) as [<-|Hne].
  - rewrite lookup_insert_eq; eauto.
  - rewrite lookup_insert_ne by assumption. auto.
Qed.

(** The machine a pass through the loop body leaves behind. *)
Lemma loop_body_mach (s : sim) :
  mach (snd (loop_body s)) = mach s
  \/ mach (snd (loop_body s)) = entry_machine s
  \/ exists instr,
       mach (snd (loop_body s)) = snd (execute_instruction instr (pc s) (entry_machine s)).
Proof.
  unfold loop_body.
  destruct (pc s =? last_pc s); [left; reflexivity|].
  destruct (step_count s >? max_steps); [left; reflexivity|].
  cbn [memory]. destruct (list_get _ _) as [instr|e]; [|right; left; reflexivity].
  right; right. exists (zfill 32 (drop 2 (bin instr))).
  fold (entry_machine s).
  destruct (execute_instruction _ (pc s) (entry_machine s)) as [new_pc m'].
  destruct (format_registers _ _); [|reflexivity].
  destruct (new_pc =? -1); [reflexivity|].
  destruct (new_pc =? -2); reflexivity.
Qed.

Lemma loop_body_x0 (s : sim) :
  registers (mach s) !! 0 = Some 0 ->
  registers (mach (snd (loop_body s))) !! 0 = Some 0.
Proof.
  intros H0. destruct (loop_body_mach s) as [-> | [-> | [instr ->]]].
  - assumption.
  - apply lookup_insert_eq.
  - destruct (extends_execute_instruction instr (pc s) (entry_machine s)) as (-> & _).
    apply lookup_insert_eq.
Qed.

Lemma run_cycles_x0 (n : nat) (s : sim) :
  registers (mach s) !! 0 = Some 0 ->
  registers (mach (run_cycles n s)) !! 0 = Some 0.
Proof.
  revert s; induction n as [|n IH]; intros s H0; simpl; [assumption|].
  destruct (loop_cond s); [|assumption].
  pose proof (loop_body_x0 s H0) as H1.
  destruct (loop_body s) as [[|] s']; simpl in H1; auto.
Qed.

(** The loop started at [s] and given enough fuel stops in [run_cycles]. *)
Lemma while_loop_run_cycles (fuel : nat) (s r : sim) :
  while_loop fuel s = Some r -> r = run_cycles fuel s.
Proof.
  revert s; induction fuel as [|fuel IH]; intros s; simpl.
  - destruct (loop_cond s); [discriminate | congruence].
  - destruct (loop_cond s); [|congruence].
    destruct (loop_body s) as [[|] s']; [apply IH | congruence].
Qed.

(** ** C3: the zero register *)

(** C3.  Register [x0] always reads as 0: whatever the program in memory
    and however many cycles have run, [x0] holds 0 when the loop is at its
    head, which is the value every executor then reads; no instruction,
    whatever its destination field, changes [x0]; and a write to register 0
    is discarded without an error. *)
Theorem zero_register_invariant :
  (forall (mem : list Z) (n : nat),
      registers (mach (run_cycles n (initial_sim mem))) !! 0 = Some 0)
  /\ (forall (s : sim), registers (entry_machine s) !! 0 = Some 0)
  /\ (forall (instr : str) (pc : Z) (m : machine),
        registers (snd (execute_instruction instr pc m)) !! 0 = registers m !! 0)
  /\ (forall (value : Z) (m : machine), write_register 0 value m = (Ok tt, m)).
Proof.
  split; [|split; [|split]].
  - intros mem n. apply run_cycles_x0. reflexivity.
  - intros s. apply lookup_insert_eq.
  - intros instr pc m. apply extends_execute_instruction.
  - intros value m. reflexivity.
Qed.

(** ** One cycle of the loop *)

Lemma executes_in_memory (s : sim) :
  executes s ->
  halted s = false
  /\ 0 <= pc s / 4 < Z.of_nat (length (memory (mach s))).
Proof.
  intros (Hc & _ & _). unfold loop_cond in Hc.
  apply andb_prop in Hc as [Hc Hhi]. apply andb_prop in Hc as [Hh Hlo].
  apply Z.leb_le in Hlo. apply Z.ltb_lt in Hhi.
  split; [destruct (halted s); [discriminate | reflexivity]|].
  split; [apply Z.div_pos; lia | apply Z.div_lt_upper_bound; lia].
Qed.

Lemma executes_fetched (s : sim) : executes s -> exists instr_bin, fetched s instr_bin.
Proof.
  intros He. destruct (executes_in_memory s He) as (_ & Hrange).
  destruct (lookup_lt_is_Some_2 (memory (mach s)) (Z.to_nat (pc s / 4))) as [w Hw]; [lia|].
  exists (zfill 32 (drop 2 (bin w))), w. auto.
Qed.

(** What a cycle that executes an instruction does with its result. *)
Lemma loop_body_fetched (s : sim) (instr_bin : str) (new_pc : Z) (m' : machine) :
  executes s -> regs_ok (registers (mach s)) ->
  fetched s instr_bin ->
  execute_instruction instr_bin (pc s) (entry_machine s) = (new_pc, m') ->
  exists line,
    format_registers (pc s) (registers m') = Ok line
    /\ loop_body s =
       if new_pc =? -1 then
         (Continue, Sim (pc s) true (pc s) (step_count s + 1) m' (written s ++ [line]))
       else if new_pc =? -2 then
         (Break, Sim (pc s) (halted s) (pc s) (step_count s + 1) m' (written s ++ [line]))
       else
         (Continue, Sim new_pc (halted s) (pc s) (step_count s + 1) m' (written s ++ [line])).
Proof.
  intros He Hok (w & Hw & ->) Hexec.
  destruct (executes_in_memory s He) as (Hh & Hrange).
  destruct He as (_ & Hpc & Hsteps).
  assert (Hok' : regs_ok (registers m')).
  { eapply regs_ok_extends; [|apply regs_ok_entry_machine, Hok].
    pose proof (extends_execute_instruction
                  (zfill 32 (drop 2 (bin w))) (pc s) (entry_machine s)) as H.
    rewrite Hexec in H. exact H. }
  destruct (format_registers_ok (pc s) (registers m') Hok') as [line Hline].
  exists line. split; [assumption|].
  unfold loop_body.
  rewrite (proj2 (Z.eqb_neq _ _) Hpc).
  rewrite Z.gtb_ltb, (proj2 (Z.ltb_ge _ _) Hsteps).
  cbn [memory]. unfold list_get.
  rewrite (proj2 (Z.ltb_ge _ _) (proj1 Hrange)).
  rewrite (proj2 (Z.leb_le _ _) (proj1 Hrange)), (proj2 (Z.ltb_lt _ _) (proj2 Hrange)).
  cbn [andb]. rewrite Hw. fold (entry_machine s). rewrite Hexec, Hline.
  reflexivity.
Qed.

Lemma loop_body_continue (s s' : sim) :
  loop_body s = (Continue, s') ->
  pc s <> last_pc s /\ step_count s <= max_steps /\ step_count s' = step_count s + 1.
Proof.
  unfold loop_body.
  destruct (Z.eqb_spec (pc s) (last_pc s)); [discriminate|].
  rewrite Z.gtb_ltb. destruct (Z.ltb_spec max_steps (step_count s)); [discriminate|].
  destruct (list_get _ _); [|discriminate].
  destruct (execute_instruction _ _ _) as [new_pc m'].
  destruct (format_registers _ _); [|discriminate].
  destruct (new_pc =? -1); [intros [= <-]; cbn; auto|].
  destruct (new_pc =? -2); [discriminate|].
  intros [= <-]; cbn; auto.
Qed.

Lemma loop_body_inv (s : sim) :
  loop_cond s = true -> sim_inv s -> sim_inv (snd (loop_body s)).
Proof.
  intros Hc (Hok & H0 & Hlen & Hsteps).
  destruct (Z.eq_dec (pc s) (last_pc s)) as [Heq|Hne].
  { unfold loop_body. rewrite (proj2 (Z.eqb_eq _ _) Heq). repeat split; assumption. }
  destruct (Z.lt_ge_cases max_steps (step_count s)) as [Hgt|Hle].
  { unfold loop_body. rewrite (proj2 (Z.eqb_neq _ _) Hne).
    rewrite Z.gtb_ltb, (proj2 (Z.ltb_lt _ _) Hgt). repeat split; assumption. }
  assert (He : executes s) by (repeat split; assumption).
  destruct (executes_fetched s He) as [instr_bin Hf].
  destruct (execute_instruction instr_bin (pc s) (entry_machine s)) as [new_pc m'] eqn:Hexec.
  destruct (loop_body_fetched s instr_bin new_pc m' He Hok Hf Hexec) as (line & _ & ->).
  pose proof (extends_execute_instruction instr_bin (pc s) (entry_machine s)) as Hext.
  rewrite Hexec in Hext. cbn [snd] in Hext.
  assert (Hinv : forall p h, sim_inv (Sim p h (pc s) (step_count s + 1) m' (written s ++ [line]))).
  { intros p h. unfold sim_inv. cbn [mach written step_count].
    split; [eapply regs_ok_extends; [exact Hext | apply regs_ok_entry_machine, Hok]|].
    split; [destruct Hext as (-> & _); apply lookup_insert_eq|].
    rewrite length_app. cbn [length]. lia. }
  destruct (new_pc =? -1); [apply Hinv|].
  destruct (new_pc =? -2); apply Hinv.
Qed.

Lemma sim_inv_initial (mem : list Z) : sim_inv (initial_sim mem).
Proof.
  unfold sim_inv, initial_sim, max_steps. cbn.
  split; [apply regs_ok_initialize_registers|].
  split; [reflexivity|]. lia.
Qed.

Lemma reaches_inv (s0 s : sim) : sim_inv s0 -> reaches s0 s -> sim_inv s.
Proof.
  intros H0. induction 1 as [|s s' _ IH Hc Hb]; [assumption|].
  pose proof (loop_body_inv s Hc IH) as H. rewrite Hb in H. exact H.
Qed.

(** ** Termination of the loop *)

Lemma while_loop_total (fuel : nat) (s : sim) :
  sim_inv s -> max_steps + 2 - step_count s <= Z.of_nat fuel ->
  is_Some (while_loop fuel s).
Proof.
  revert s; induction fuel as [|fuel IH]; intros s Hinv Hfuel.
  - destruct Hinv as (_ & _ & _ & Hs). lia.
  - simpl. destruct (loop_cond s) eqn:Hc; [|eauto].
    pose proof (loop_body_inv s Hc Hinv) as Hinv'.
    destruct (loop_body s) as [[|] s'] eqn:Hb; [|eauto].
    apply loop_body_continue in Hb as (_ & _ & Hs').
    apply IH; [exact Hinv' | lia].
Qed.

Lemma while_loop_fuel_mono (fuel fuel' : nat) (s r : sim) :
  while_loop fuel s = Some r -> (fuel <= fuel')%nat -> while_loop fuel' s = Some r.
Proof.
  revert fuel' s; induction fuel as [|fuel IH]; intros fuel' s Hr Hle.
  - simpl in Hr. destruct fuel'; simpl; destruct (loop_cond s); congruence.
  - destruct fuel' as [|fuel']; [lia|]. simpl in *.
    destruct (loop_cond s); [|assumption].
    destruct (loop_body s) as [[|] s']; [|assumption].
    apply IH; [assumption | lia].
Qed.

Lemma while_loop_deterministic (fuel fuel' : nat) (s r r' : sim) :
  while_loop fuel s = Some r -> while_loop fuel' s = Some r' -> r = r'.
Proof.
  intros H H'.
  apply (while_loop_fuel_mono _ (max fuel fuel')) in H; [|lia].
  apply (while_loop_fuel_mono _ (max fuel fuel')) in H'; [|lia].
  congruence.
Qed.

Lemma reaches_while_loop (s0 s r : sim) (fuel : nat) :
  reaches s0 s -> while_loop fuel s = Some r ->
  exists fuel0, while_loop fuel0 s0 = Some r.
Proof.
  intros Hreach; revert fuel. induction Hreach as [|s s' _ IH Hc Hb]; intros fuel Hr.
  - eauto.
  - apply (IH (S fuel)). simpl. rewrite Hc, Hb. exact Hr.
Qed.

(** [run_simulation] returns, and returns what the loop ends in from any
    state the run goes through. *)
Lemma run_simulation_from (file : option (list str)) (mem : list Z) (s r : sim) (fuel : nat) :
  load_program file (initialize_memory 32) = (true, mem) ->
  reaches (initial_sim mem) s ->
  while_loop fuel s = Some r ->
  run_simulation file
  = Some (halted r, Some (Output (written r) (format_memory (memory (mach r))))).
Proof.
  intros Hload Hreach Hr. unfold run_simulation. rewrite Hload.
  destruct (reaches_while_loop _ _ _ _ Hreach Hr) as [fuel0 H0].
  destruct (while_loop_total (Z.to_nat (max_steps + 2)) (initial_sim mem)) as [r0 Hr0].
  - apply sim_inv_initial.
  - unfold max_steps, initial_sim. cbn [step_count]. lia.
  - rewrite Hr0. rewrite (while_loop_deterministic _ _ _ _ _ Hr0 H0). reflexivity.
Qed.

Lemma run_simulation_total (file : option (list str)) : is_Some (run_simulation file).
Proof.
  unfold run_simulation.
  destruct (load_program file (initialize_memory 32)) as [[|] mem]; [|eauto].
  destruct (while_loop_total (Z.to_nat (max_steps + 2)) (initial_sim mem)) as [r0 Hr0].
  - apply sim_inv_initial.
  - unfold max_steps, initial_sim. cbn [step_count]. lia.
  - rewrite Hr0. eauto.
Qed.

(** ** Dispatch *)

Lemma body_b_type (instr : str) (pc : Z) :
  slice_from 25 instr = B_TYPE.opcode B_TYPE.beq ->
  execute_instruction_body instr pc = execute_b_type instr pc.
Proof. intros H. unfold execute_instruction_body. rewrite H. reflexivity. Qed.

Lemma body_lw (instr : str) (pc : Z) :
  slice_from 25 instr = I_TYPE.opcode I_TYPE.lw ->
  execute_instruction_body instr pc = execute_i_type instr pc.
Proof. intros H. unfold execute_instruction_body. rewrite H. reflexivity. Qed.

Lemma body_sw (instr : str) (pc : Z) :
  slice_from 25 instr = S_TYPE.opcode S_TYPE.sw ->
  execute_instruction_body instr pc = execute_s_type instr pc.
Proof. intros H. unfold execute_instruction_body. rewrite H. reflexivity. Qed.

Lemma execute_instruction_ok (instr : str) (pc new_pc : Z) (m m' : machine) :
  execute_instruction_body instr pc m = (Ok new_pc, m') ->
  execute_instruction instr pc m = (new_pc, m').
Proof. intros H. unfold execute_instruction. rewrite H. reflexivity. Qed.

Lemma execute_instruction_raise (instr : str) (pc : Z) (e : exn) (m m' : machine) :
  execute_instruction_body instr pc m = (Raise e, m') ->
  execute_instruction instr pc m = (-2, m').
Proof. intros H. unfold execute_instruction. rewrite H. reflexivity. Qed.

(** ** Halting *)

Ltac res_cases H :=
  repeat match type of H with
    | res_bind ?r _ = Ok _ =>
        let E := fresh "E" in destruct r eqn:E; cbn [res_bind] in H; [|discriminate H]
    end.

Lemma b_type_halts (instr : str) (pc : Z) (m : machine) :
  slice_from 25 instr = B_TYPE.opcode B_TYPE.beq ->
  b_fields instr = Ok (0, 0, 0) ->
  is_Some (registers m !! 0) ->
  execute_b_type instr pc m = (Ok (-1), m).
Proof.
  intros Hop Hf [v Hv]. unfold b_fields in Hf. res_cases Hf.
  injection Hf as -> -> ->.
  unfold execute_b_type, bind, lift, read_register.
  rewrite E, E0, E1, E2, E3, Hv, Hop. cbn. rewrite Hv. reflexivity.
Qed.

(** The halting cycle: the loop records the line and stops with the flag set. *)
Lemma halting_cycle (s : sim) (instr_bin : str) (m' : machine) (fuel : nat) :
  executes s -> regs_ok (registers (mach s)) -> fetched s instr_bin ->
  execute_instruction instr_bin (pc s) (entry_machine s) = (-1, m') ->
  exists line,
    format_registers (pc s) (registers m') = Ok line
    /\ while_loop (S fuel) s
       = Some (Sim (pc s) true (pc s) (step_count s + 1) m' (written s ++ [line])).
Proof.
  intros He Hok Hf Hexec.
  destruct (loop_body_fetched s instr_bin (-1) m' He Hok Hf Hexec) as (line & Hline & Hb).
  exists line. split; [assumption|].
  destruct He as (Hc & _). cbn [while_loop]. rewrite Hc, Hb. cbn [Z.eqb].
  destruct fuel; reflexivity.
Qed.

(** The faulting cycle: the loop records the line and breaks. *)
Lemma faulting_cycle (s : sim) (instr_bin : str) (m' : machine) (fuel : nat) :
  executes s -> regs_ok (registers (mach s)) -> fetched s instr_bin ->
  execute_instruction instr_bin (pc s) (entry_machine s) = (-2, m') ->
  exists line,
    format_registers (pc s) (registers m') = Ok line
    /\ while_loop (S fuel) s
       = Some (Sim (pc s) false (pc s) (step_count s + 1) m' (written s ++ [line])).
Proof.
  intros He Hok Hf Hexec.
  destruct (loop_body_fetched s instr_bin (-2) m' He Hok Hf Hexec) as (line & Hline & Hb).
  exists line. split; [assumption|].
  destruct (executes_in_memory s He) as (Hh & _).
  destruct He as (Hc & _). cbn [while_loop]. rewrite Hc, Hb, Hh. reflexivity.
Qed.

Example halt_word_assembled :
  do_instruction (lit "beq zero, zero, 0") 1 ∅ 0 = Done (Some halt_word).
Proof. vm_compute. reflexivity. Qed.

Example halt_word_fields :
  b_fields halt_word = Ok (0, 0, 0)
  /\ slice 17 20 halt_word = B_TYPE.funct3 B_TYPE.beq
  /\ slice_from 25 halt_word = B_TYPE.opcode B_TYPE.beq.
Proof. repeat split. Qed.

(** ** C4: halt precedence *)

(** C4.  Executing the word that encodes [beq] with both register fields 0
    and immediate 0 returns the halt sentinel [-1] for every program
    counter, register file and memory, leaving registers and memory as
    they were, whatever the registers hold; and in the driver the cycle
    that fetches it is the last one: it writes its trace line and the loop
    ends with the halted flag set. *)
Theorem halt_precedence (pc0 : Z) (m : machine) (s : sim) (fuel : nat) :
  is_Some (registers m !! 0) ->
  executes s -> regs_ok (registers (mach s)) -> fetched s halt_word ->
  execute_b_type halt_word pc0 m = (Ok (-1), m)
  /\ execute_instruction halt_word pc0 m = (-1, m)
  /\ exists line,
       format_registers (pc s) (registers (entry_machine s)) = Ok line
       /\ while_loop (S fuel) s
          = Some (Sim (pc s) true (pc s) (step_count s + 1) (entry_machine s)
                    (written s ++ [line])).
Proof.
  intros Hm He Hok Hf.
  assert (Hb : forall p m0, is_Some (registers m0 !! 0) ->
                 execute_b_type halt_word p m0 = (Ok (-1), m0)).
  { intros p m0 H0. apply b_type_halts; [reflexivity | reflexivity | exact H0]. }
  assert (Hi : forall p m0, is_Some (registers m0 !! 0) ->
                 execute_instruction halt_word p m0 = (-1, m0)).
  { intros p m0 H0. apply execute_instruction_ok.
    rewrite body_b_type by reflexivity. apply Hb, H0. }
  split; [apply Hb, Hm|]. split; [apply Hi, Hm|].
  apply (halting_cycle s halt_word); try assumption.
  apply Hi. cbn. rewrite lookup_insert_eq. eauto.
Qed.

Lemma halt_precedence_witness :
  execute_b_type halt_word 0 (Machine initialize_registers [])
  = (Ok (-1), Machine initialize_registers [])
  /\ execute_instruction halt_word 0 (Machine initialize_registers [])
     = (-1, Machine initialize_registers [])
  /\ exists line,
       format_registers (pc (initial_sim (loaded halt_program)))
         (registers (entry_machine (initial_sim (loaded halt_program)))) = Ok line
       /\ while_loop 1 (initial_sim (loaded halt_program))
          = Some (Sim (pc (initial_sim (loaded halt_program))) true
                    (pc (initial_sim (loaded halt_program)))
                    (step_count (initial_sim (loaded halt_program)) + 1)
                    (entry_machine (initial_sim (loaded halt_program)))
                    (written (initial_sim (loaded halt_program)) ++ [line])).
Proof.
  apply (halt_precedence 0 (Machine initialize_registers [])
           (initial_sim (loaded halt_program)) 0).
  - exists 0. vm_compute. reflexivity.
  - repeat split; vm_compute; congruence.
  - apply regs_ok_initialize_registers.
  - exists 99. split; vm_compute; reflexivity.
Defined.

(** ** C9: the halt test does not look at funct3 *)

(** C9.  For every 32-character word with the branch opcode 1100011 whose
    rs1 field, rs2 field and decoded immediate are all zero, execution
    returns the halt sentinel [-1] and leaves the machine as it was,
    whatever the funct3 field holds: the word is neither executed as a
    branch nor rejected as an unknown branch. *)
Theorem funct3_blind_halt (instr : str) (pc0 : Z) (m : machine) :
  length instr = 32%nat ->
  slice_from 25 instr = B_TYPE.opcode B_TYPE.beq ->
  b_fields instr = Ok (0, 0, 0) ->
  is_Some (registers m !! 0) ->
  execute_b_type instr pc0 m = (Ok (-1), m)
  /\ execute_instruction instr pc0 m = (-1, m).
Proof.
  intros _ Hop Hf Hm.
  pose proof (b_type_halts instr pc0 m Hop Hf Hm) as Hb.
  split; [exact Hb|].
  apply execute_instruction_ok. rewrite body_b_type by assumption. exact Hb.
Qed.

Lemma funct3_blind_halt_witness :
  slice 17 20 bne_zero_word = B_TYPE.funct3 B_TYPE.bne
  /\ execute_b_type bne_zero_word 8 (Machine initialize_registers [])
     = (Ok (-1), Machine initialize_registers [])
  /\ execute_instruction bne_zero_word 8 (Machine initialize_registers [])
     = (-1, Machine initialize_registers []).
Proof.
  split; [reflexivity|].
  apply funct3_blind_halt.
  - reflexivity.
  - reflexivity.
  - reflexivity.
  - exists 0. vm_compute. reflexivity.
Defined.

Example funct3_111_halts :
  slice 17 20 f111_zero_word = lit "111"
  /\ execute_instruction f111_zero_word 8 (Machine initialize_registers [])
     = (-1, Machine initialize_registers []).
Proof.
  split; [reflexivity|].
  apply execute_instruction_ok. rewrite body_b_type by reflexivity.
  apply b_type_halts; [reflexivity | reflexivity |].
  exists 0. vm_compute. reflexivity.
Qed.

(** ** C5: memory bounds *)

Lemma out_of_bounds_test (addr len : Z) :
  ~ (0 <= addr < len * 4) -> (0 <=? addr) && (addr <? len * 4) = false.
Proof.
  intros H. destruct (Z.leb_spec 0 addr), (Z.ltb_spec addr (len * 4)); try reflexivity.
  exfalso. apply H. lia.
Qed.

(** An out-of-bounds [lw] or [sw] raises before it writes anything. *)
Lemma access_out_of_bounds_raises (instr : str) (pc0 : Z) (m : machine) (addr : Z) :
  access_out_of_bounds instr m addr ->
  execute_instruction_body instr pc0 m = (Raise (Invalid_memory_address addr), m).
Proof.
  intros [rd rs1 imm rs1_val Hop Hf3 Hf Hr1 -> Hout
         | rs1 rs2 imm rs1_val rs2_val Hop Hf3 Hf Hr1 Hr2 -> Hout].
  - rewrite body_lw by assumption.
    unfold i_fields in Hf. res_cases Hf. injection Hf as -> -> ->.
    unfold execute_i_type, bind, lift, read_register, len_memory.
    rewrite E, E0, E1, Hr1, Hop, Hf3. cbn [I_TYPE.opcode I_TYPE.funct3 I_TYPE.addi I_TYPE.lw].
    change (str_eqb (lit "0000011") (lit "0010011")) with false.
    rewrite !str_eqb_refl. cbn [andb].
    rewrite out_of_bounds_test by assumption. reflexivity.
  - rewrite body_sw by assumption.
    unfold s_fields in Hf. res_cases Hf. injection Hf as -> -> ->.
    unfold execute_s_type, bind, lift, read_register, len_memory.
    rewrite E, E0, E1, Hr1. cbn match. rewrite Hr2, Hop, Hf3.
    rewrite !str_eqb_refl. cbn [andb].
    rewrite out_of_bounds_test by assumption. reflexivity.
Qed.

(** C5.  When the cycle at hand executes a [lw] or a [sw] whose byte
    address [rs1 + imm] lies outside [0, 4 * memory size), the executor
    raises the invalid-memory-address error for that address, the
    dispatcher returns the error sentinel [-2], and neither the memory nor
    any register is changed by the instruction; the loop writes the trace
    line of the cycle and stops, and the run returns [False]. *)
Theorem memory_bounds_enforcement
    (file : list str) (mem : list Z) (s : sim) (instr_bin : str) (addr : Z) (fuel : nat) :
  load_program (Some file) (initialize_memory 32) = (true, mem) ->
  reaches (initial_sim mem) s ->
  executes s ->
  fetched s instr_bin ->
  access_out_of_bounds instr_bin (entry_machine s) addr ->
  execute_instruction_body instr_bin (pc s) (entry_machine s)
  = (Raise (Invalid_memory_address addr), entry_machine s)
  /\ execute_instruction instr_bin (pc s) (entry_machine s) = (-2, entry_machine s)
  /\ exists line,
       format_registers (pc s) (registers (entry_machine s)) = Ok line
       /\ while_loop (S fuel) s
          = Some (Sim (pc s) false (pc s) (step_count s + 1) (entry_machine s)
                    (written s ++ [line]))
       /\ run_simulation (Some file)
          = Some (false, Some (Output (written s ++ [line])
                                 (format_memory (memory (entry_machine s))))).
Proof.
  intros Hload Hreach He Hf Hoob.
  pose proof (access_out_of_bounds_raises instr_bin (pc s) _ _ Hoob) as Hraise.
  pose proof (execute_instruction_raise _ _ _ _ _ Hraise) as Hexec.
  assert (Hok : regs_ok (registers (mach s))).
  { apply (reaches_inv _ _ (sim_inv_initial mem) Hreach). }
  split; [exact Hraise|]. split; [exact Hexec|].
  destruct (faulting_cycle s instr_bin _ fuel He Hok Hf Hexec) as (line & Hline & Hloop).
  exists line. split; [exact Hline|]. split; [exact Hloop|].
  apply (run_simulation_from _ _ _ _ _ Hload Hreach Hloop).
Qed.

Lemma memory_bounds_enforcement_witness :
  execute_instruction_body (lit "00001000000000000010010100000011")
    (pc (initial_sim (loaded lw_oob_program)))
    (entry_machine (initial_sim (loaded lw_oob_program)))
  = (Raise (Invalid_memory_address 128), entry_machine (initial_sim (loaded lw_oob_program)))
  /\ execute_instruction (lit "00001000000000000010010100000011")
       (pc (initial_sim (loaded lw_oob_program)))
       (entry_machine (initial_sim (loaded lw_oob_program)))
     = (-2, entry_machine (initial_sim (loaded lw_oob_program)))
  /\ exists line,
       format_registers (pc (initial_sim (loaded lw_oob_program)))
         (registers (entry_machine (initial_sim (loaded lw_oob_program)))) = Ok line
       /\ while_loop 1 (initial_sim (loaded lw_oob_program))
          = Some (Sim (pc (initial_sim (loaded lw_oob_program))) false
                    (pc (initial_sim (loaded lw_oob_program)))
                    (step_count (initial_sim (loaded lw_oob_program)) + 1)
                    (entry_machine (initial_sim (loaded lw_oob_program)))
                    (written (initial_sim (loaded lw_oob_program)) ++ [line]))
       /\ run_simulation (Some lw_oob_program)
          = Some (false,
                  Some (Output (written (initial_sim (loaded lw_oob_program)) ++ [line])
                          (format_memory
                             (memory (entry_machine (initial_sim (loaded lw_oob_program))))))).
Proof.
  apply (memory_bounds_enforcement lw_oob_program (loaded lw_oob_program)
           (initial_sim (loaded lw_oob_program)) _ 128 0).
  - vm_compute. reflexivity.
  - apply reaches_start.
  - repeat split; vm_compute; congruence.
  - exists 134227203. split; vm_compute; reflexivity.
  - apply (oob_lw _ _ _ 10 0 128 0).
    + reflexivity.
    + reflexivity.
    + reflexivity.
    + vm_compute. reflexivity.
    + reflexivity.
    + vm_compute. intros [_ H]. discriminate H.
Defined.

Example sw_out_of_bounds :
  access_out_of_bounds (lit "11111110101000000010111000100011")
    (Machine initialize_registers (loaded sw_oob_program)) (-4)
  /\ execute_instruction (lit "11111110101000000010111000100011") 0
       (Machine initialize_registers (loaded sw_oob_program))
     = (-2, Machine initialize_registers (loaded sw_oob_program)).
Proof.
  assert (H : access_out_of_bounds (lit "11111110101000000010111000100011")
                (Machine initialize_registers (loaded sw_oob_program)) (-4)).
  { apply (oob_sw _ _ _ 0 10 (-4) 0 0); try reflexivity.
    vm_compute. intros [H _]. apply H. reflexivity. }
  split; [exact H|].
  eapply execute_instruction_raise, access_out_of_bounds_raises, H.
Qed.

(** ** C10: a next PC outside the memory *)

(** C10.  When the instruction executed in a cycle yields a next PC that
    is neither sentinel and lies outside [0, 4 * memory size), the loop
    ends at its condition: the trace has the line of the executed cycle
    and none for the new PC, nothing is fetched there and no error is
    returned; the memory dump is written and [run_simulation] returns
    [False], the halted flag never having been set. *)
Theorem silent_stop_out_of_range
    (file : list str) (mem : list Z) (s : sim) (instr_bin : str)
    (new_pc : Z) (m' : machine) (fuel : nat) :
  load_program (Some file) (initialize_memory 32) = (true, mem) ->
  reaches (initial_sim mem) s ->
  executes s ->
  fetched s instr_bin ->
  execute_instruction instr_bin (pc s) (entry_machine s) = (new_pc, m') ->
  new_pc <> -1 -> new_pc <> -2 ->
  ~ (0 <= new_pc < Z.of_nat (length (memory m')) * 4) ->
  exists line,
    format_registers (pc s) (registers m') = Ok line
    /\ loop_body s
       = (Continue, Sim new_pc false (pc s) (step_count s + 1) m' (written s ++ [line]))
    /\ while_loop (S fuel) s
       = Some (Sim new_pc false (pc s) (step_count s + 1) m' (written s ++ [line]))
    /\ run_simulation (Some file)
       = Some (false, Some (Output (written s ++ [line]) (format_memory (memory m')))).
Proof.
  intros Hload Hreach He Hf Hexec Hn1 Hn2 Hout.
  assert (Hok : regs_ok (registers (mach s))).
  { apply (reaches_inv _ _ (sim_inv_initial mem) Hreach). }
  destruct (loop_body_fetched s instr_bin new_pc m' He Hok Hf Hexec) as (line & Hline & Hb).
  rewrite (proj2 (Z.eqb_neq _ _) Hn1), (proj2 (Z.eqb_neq _ _) Hn2) in Hb.
  destruct (executes_in_memory s He) as (Hh & _). rewrite Hh in Hb.
  assert (Hloop : while_loop (S fuel) s
                  = Some (Sim new_pc false (pc s) (step_count s + 1) m' (written s ++ [line]))).
  { destruct He as (Hc & _). cbn [while_loop]. rewrite Hc, Hb.
    assert (Hc' : loop_cond (Sim new_pc false (pc s) (step_count s + 1) m'
                               (written s ++ [line])) = false).
    { unfold loop_cond. cbn [halted pc mach negb andb].
      apply out_of_bounds_test. exact Hout. }
    destruct fuel; cbn [while_loop]; rewrite Hc'; reflexivity. }
  exists line. split; [exact Hline|]. split; [exact Hb|]. split; [exact Hloop|].
  apply (run_simulation_from _ _ _ _ _ Hload Hreach Hloop).
Qed.

Lemma silent_stop_out_of_range_witness :
  exists line,
    format_registers (pc (initial_sim (loaded jump_out_program)))
      (registers (entry_machine (initial_sim (loaded jump_out_program)))) = Ok line
    /\ loop_body (initial_sim (loaded jump_out_program))
       = (Continue,
          Sim 128 false (pc (initial_sim (loaded jump_out_program)))
            (step_count (initial_sim (loaded jump_out_program)) + 1)
            (entry_machine (initial_sim (loaded jump_out_program)))
            (written (initial_sim (loaded jump_out_program)) ++ [line]))
    /\ while_loop 1 (initial_sim (loaded jump_out_program))
       = Some (Sim 128 false (pc (initial_sim (loaded jump_out_program)))
                 (step_count (initial_sim (loaded jump_out_program)) + 1)
                 (entry_machine (initial_sim (loaded jump_out_program)))
                 (written (initial_sim (loaded jump_out_program)) ++ [line]))
    /\ run_simulation (Some jump_out_program)
       = Some (false,
               Some (Output (written (initial_sim (loaded jump_out_program)) ++ [line])
                       (format_memory
                          (memory (entry_machine (initial_sim (loaded jump_out_program))))))).
Proof.
  apply (silent_stop_out_of_range jump_out_program (loaded jump_out_program)
           (initial_sim (loaded jump_out_program))
           (lit "00001000000000000000000001101111") 128
           (entry_machine (initial_sim (loaded jump_out_program))) 0).
  - vm_compute. reflexivity.
  - apply reaches_start.
  - repeat split; vm_compute; congruence.
  - exists 134217839. split; vm_compute; reflexivity.
  - vm_compute. reflexivity.
  - lia.
  - lia.
  - vm_compute. intros [_ H]. discriminate H.
Defined.

(** ** C7: the step ceiling *)

Lemma while_loop_inv (fuel : nat) (s r : sim) :
  sim_inv s -> while_loop fuel s = Some r -> sim_inv r.
Proof.
  revert s; induction fuel as [|fuel IH]; intros s Hinv; simpl.
  - destruct (loop_cond s); [discriminate | intros [= <-]; exact Hinv].
  - destruct (loop_cond s) eqn:Hc; [|intros [= <-]; exact Hinv].
    pose proof (loop_body_inv s Hc Hinv) as Hinv'.
    destruct (loop_body s) as [[|] s']; [apply IH, Hinv' | intros [= <-]; exact Hinv'].
Qed.

Lemma pingpong_pc_succ (k : nat) : pingpong_pc (S k) = 4 - pingpong_pc k.
Proof.
  unfold pingpong_pc. rewrite Nat.even_succ, <- Nat.negb_even.
  destruct (Nat.even k); reflexivity.
Qed.

Lemma pingpong_execute (k : nat) :
  exists instr,
    list_get (loaded pingpong_program) (pingpong_pc k / 4) = Ok instr
    /\ execute_instruction (zfill 32 (drop 2 (bin instr))) (pingpong_pc k)
         (Machine (<[0 := 0]> initialize_registers) (loaded pingpong_program))
       = (pingpong_pc (S k), Machine initialize_registers (loaded pingpong_program))
    /\ format_registers (pingpong_pc k) initialize_registers
       = Ok (pingpong_pc k, replicate 32 0).
Proof.
  rewrite pingpong_pc_succ. unfold pingpong_pc. destruct (Nat.even k).
  - exists 4194415. repeat split; vm_compute; reflexivity.
  - exists 4292866159. repeat split; vm_compute; reflexivity.
Qed.

Lemma pingpong_cond (k : nat) : loop_cond (pingpong_state k) = true.
Proof. unfold pingpong_state, pingpong_pc. destruct (Nat.even k); reflexivity. Qed.

Lemma pingpong_moves (k : nat) : pc (pingpong_state k) <> last_pc (pingpong_state k).
Proof.
  destruct k as [|j]; cbn [pingpong_state pc last_pc].
  - unfold pingpong_pc. cbn. lia.
  - rewrite pingpong_pc_succ. unfold pingpong_pc. destruct (Nat.even j); lia.
Qed.

(** Below the ceiling a cycle of the ping-pong program leads to the next. *)
Lemma pingpong_cycle (k : nat) :
  Z.of_nat k <= max_steps ->
  loop_body (pingpong_state k) = (Continue, pingpong_state (S k)).
Proof.
  intros Hk. unfold loop_body.
  rewrite (proj2 (Z.eqb_neq _ _) (pingpong_moves k)).
  cbn [pingpong_state pc last_pc step_count mach written halted registers memory].
  rewrite Z.gtb_ltb, (proj2 (Z.ltb_ge _ _) Hk).
  destruct (pingpong_execute k) as (instr & -> & -> & Hline).
  cbn [registers]. rewrite Hline.
  assert (Hpc : pingpong_pc (S k) = 0 \/ pingpong_pc (S k) = 4).
  { unfold pingpong_pc. destruct (Nat.even (S k)); auto. }
  replace (pingpong_pc (S k) =? -1) with false by (symmetry; apply Z.eqb_neq; lia).
  replace (pingpong_pc (S k) =? -2) with false by (symmetry; apply Z.eqb_neq; lia).
  unfold pingpong_state. cbn [pingpong_lines]. rewrite Nat2Z.inj_succ.
  reflexivity.
Qed.

(** At the ceiling the loop breaks before executing anything. *)
Lemma pingpong_break (k : nat) :
  max_steps < Z.of_nat k ->
  loop_body (pingpong_state k) = (Break, pingpong_state k).
Proof.
  intros Hk. unfold loop_body.
  rewrite (proj2 (Z.eqb_neq _ _) (pingpong_moves k)).
  cbn [pingpong_state step_count].
  rewrite Z.gtb_ltb, (proj2 (Z.ltb_lt _ _) Hk). reflexivity.
Qed.

Lemma pingpong_run (n k fuel : nat) :
  Z.of_nat k + Z.of_nat n = max_steps + 1 -> (n < fuel)%nat ->
  while_loop fuel (pingpong_state k) = Some (pingpong_state (k + n)).
Proof.
  revert k fuel; induction n as [|n IH]; intros k fuel Hk Hfuel;
    (destruct fuel as [|fuel]; [lia|]); cbn [while_loop]; rewrite pingpong_cond.
  - rewrite pingpong_break by lia. rewrite Nat.add_0_r. reflexivity.
  - rewrite pingpong_cycle by lia.
    rewrite (IH (S k) fuel) by lia. do 2 f_equal. lia.
Qed.

Lemma length_pingpong_lines (k : nat) : length (pingpong_lines k) = k.
Proof.
  induction k as [|k IH]; [reflexivity|].
  cbn [pingpong_lines]. rewrite length_app, IH. cbn [length]. lia.
Qed.

(** C7.  The loop tests [step_count > max_steps] before it counts the
    cycle, so the ceiling is [max_steps + 1] = 10001 cycles, not 10000:
    every run returns with at most 10001 trace lines, and the ping-pong
    program, which has no halt and never leaves the memory, runs 10001
    cycles, writes 10001 trace lines and is reported unsuccessful. *)
Theorem step_ceiling_is_10001 :
  (forall file : option (list str),
      match run_summary file with
      | Some (_, Some lines) => lines <= 10001
      | Some (_, None) => True
      | None => False
      end)
  /\ run_simulation (Some pingpong_program)
     = Some (false, Some (Output (pingpong_lines (Z.to_nat 10001))
                            (format_memory (loaded pingpong_program))))
  /\ run_summary (Some pingpong_program) = Some (false, Some 10001).
Proof.
  assert (Hrun : run_simulation (Some pingpong_program)
                 = Some (false, Some (Output (pingpong_lines (Z.to_nat 10001))
                                        (format_memory (loaded pingpong_program))))).
  { unfold run_simulation.
    assert (Hload : load_program (Some pingpong_program) (initialize_memory 32)
                    = (true, loaded pingpong_program)) by (vm_compute; reflexivity).
    rewrite Hload.
    change (initial_sim (loaded pingpong_program)) with (pingpong_state 0).
    rewrite (pingpong_run (Z.to_nat 10001) 0 (Z.to_nat (max_steps + 2)))
      by (unfold max_steps; lia).
    reflexivity. }
  split; [|split].
  - intros file. unfold run_summary, run_simulation.
    destruct (load_program file (initialize_memory 32)) as [[|] mem]; [|exact I].
    destruct (while_loop_total (Z.to_nat (max_steps + 2)) (initial_sim mem)) as [r Hr].
    + apply sim_inv_initial.
    + unfold max_steps, initial_sim. cbn [step_count]. lia.
    + rewrite Hr. cbn [option_map trace_lines].
      destruct (while_loop_inv _ _ _ (sim_inv_initial mem) Hr) as (_ & _ & Hlen & Hsteps).
      unfold max_steps in Hsteps. lia.
  - exact Hrun.
  - unfold run_summary. rewrite Hrun. cbn [option_map trace_lines].
    rewrite length_pingpong_lines, Z2Nat.id by lia. reflexivity.
Qed.

(** ** C6: [slt] *)

(** Whatever the registers hold, [slt] writes the outcome of comparing the
    two stored values as integers. *)
Lemma execute_slt (instr : str) (pc0 : Z) (m : machine) (rd rs1 rs2 a b : Z) :
  slice 17 20 instr = R_TYPE.funct3 R_TYPE.slt ->
  r_fields instr = Ok (rd, rs1, rs2) ->
  registers m !! rs1 = Some a ->
  registers m !! rs2 = Some b ->
  execute_r_type instr pc0 m
  = (Ok (pc0 + 4), snd (write_register rd (if a <? b then 1 else 0) m)).
Proof.
  intros Hf3 Hf Ha Hb. unfold r_fields in Hf. res_cases Hf. injection Hf as -> -> ->.
  unfold execute_r_type, bind, lift, read_register.
  rewrite E, E0, E1, Ha. cbn match. rewrite Hb, Hf3. cbn match.
  change (str_eqb (R_TYPE.funct3 R_TYPE.slt) (R_TYPE.funct3 R_TYPE.add)) with false.
  rewrite str_eqb_refl. unfold ret at 1.
  destruct (write_register rd (if a <? b then 1 else 0) m) as [[[]|e] m'] eqn:Hw;
    [reflexivity|].
  unfold write_register in Hw. destruct (negb (rd =? 0)); discriminate Hw.
Qed.

(** C6.  [slt] compares the stored register values as they are, that is
    as unsigned 32-bit numbers: after [ra = -1] (stored as 4294967295) and
    [sp = 1], the instruction [slt gp, ra, sp] leaves 0 in [gp], although
    the signed reading of [ra] is below that of [sp]. *)
Theorem slt_compares_unsigned :
  final_register (Some slt_program) 1 = Some 4294967295
  /\ final_register (Some slt_program) 2 = Some 1
  /\ final_register (Some slt_program) 3 = Some 0
  /\ signed 32 4294967295 = -1
  /\ signed 32 1 = 1.
Proof. vm_compute. repeat split; reflexivity. Qed.

(** ** Branch words *)

(** [execute_b_type] in terms of the decoded fields. *)
Lemma execute_b_type_fields (instr : str) (pc0 : Z) (m : machine)
    (rs1 rs2 imm rs1_val rs2_val : Z) :
  b_fields instr = Ok (rs1, rs2, imm) ->
  registers m !! rs1 = Some rs1_val ->
  registers m !! rs2 = Some rs2_val ->
  execute_b_type instr pc0 m =
  (if (rs1 =? 0) && (rs2 =? 0) && (imm =? 0)
      && str_eqb (slice_from 25 instr) (B_TYPE.opcode B_TYPE.beq)
   then Ok (-1)
   else if str_eqb (slice 17 20 instr) (B_TYPE.funct3 B_TYPE.beq)
   then Ok (pc0 + (if rs1_val =? rs2_val then imm else 4))
   else if str_eqb (slice 17 20 instr) (B_TYPE.funct3 B_TYPE.bne)
   then Ok (pc0 + (if negb (rs1_val =? rs2_val) then imm else 4))
   else Raise Unknown_B_funct3, m).
Proof.
  intros Hf Hv1 Hv2. unfold b_fields in Hf. res_cases Hf.
  injection Hf as -> -> ->.
  unfold execute_b_type, bind, lift, read_register.
  rewrite E, E0, E1, E2, E3, Hv1. cbn match. rewrite Hv2.
  destruct (_ && _); [reflexivity|].
  destruct (str_eqb _ (B_TYPE.funct3 B_TYPE.beq)); [reflexivity|].
  destruct (str_eqb _ (B_TYPE.funct3 B_TYPE.bne)); reflexivity.
Qed.

(** The fields of a word laid out as the assembler lays out a branch. *)
Lemma b_fields_layout (i0 i1 i2 i3 i4 i5 i6 i7 i8 i9 i10 i11 : ascii)
    (a0 a1 a2 a3 a4 b0 b1 b2 b3 b4 f0 f1 f2 : ascii) (op : str) :
  b_fields (i0 :: i2 :: i3 :: i4 :: i5 :: i6 :: i7 :: a0 :: a1 :: a2 :: a3 :: a4
            :: b0 :: b1 :: b2 :: b3 :: b4 :: f0 :: f1 :: f2
            :: i8 :: i9 :: i10 :: i11 :: i1 :: op)
  = try! rs2 := int2 [a0; a1; a2; a3; a4] in
    try! rs1 := int2 [b0; b1; b2; b3; b4] in
    try! imm := binary_to_decimal
                  ([i0; i1; i2; i3; i4; i5; i6; i7; i8; i9; i10; i11] ++ lit "0") 13 in
    Ok (rs1, rs2, imm).
Proof. reflexivity. Qed.

Lemma bits_of_double (w : nat) (k : Z) :
  bits_of (S w) (2 * k) = bits_of w k ++ ["0"%char].
Proof.
  cbn [bits_of]. rewrite Z.odd_mul. cbn [Z.odd andb].
  rewrite (Z.mul_comm 2 k), Z.div_mul by lia. reflexivity.
Qed.

Lemma bits_of_succ (w : nat) (n : Z) :
  bits_of (S w) n = bits_of w (n / 2) ++ [if Z.odd n then "1"%char else "0"%char].
Proof. reflexivity. Qed.

(** ** The register table *)

Lemma dict_get_In {A} (d : list (str * A)) (k : str) (v : A) :
  dict_get d k = Some v -> In (k, v) d.
Proof.
  induction d as [|[k' v'] d IH]; simpl; [discriminate|].
  destruct (str_eqb k k') eqn:Hk.
  - apply str_eqb_eq in Hk. intros [= <-]. left; congruence.
  - intros H; right; auto.
Qed.

(** A register name is encoded as the five bits of its number, and only
    [zero] as number 0. *)
Lemma reg_get_bits (name b : str) :
  reg_get name = Some b ->
  exists n, 0 <= n < 32 /\ b = bits_of 5 n /\ (n = 0 <-> name = lit "zero").
Proof.
  intros H. apply dict_get_In in H. unfold regs in H. cbn [map fst snd] in H.
  repeat (destruct H as [H|H];
          [injection H as <- <-;
           match goal with
           | |- exists n, _ /\ ?s = _ /\ _ =>
               let v := eval vm_compute in
                 (match int2 s with Ok v => v | Raise _ => 0 end) in
               exists v; split; [lia|]; split; [reflexivity|];
               split; intros Heq; first [reflexivity | vm_compute in Heq; discriminate Heq]
           end|]).
  destruct H.
Qed.

(** ** Assembling a branch *)

Lemma parse_immediate_bits (imm_str : str) (labels : gmap str Z) (pc0 : Z)
    (inst : str) (num size : nat) (v : Z) :
  (1 <= size)%nat ->
  resolve_immediate imm_str labels pc0 inst = Done v ->
  - 2 ^ (Z.of_nat size - 1) <= v <= 2 ^ (Z.of_nat size - 1) - 1 ->
  parse_immediate imm_str labels pc0 inst num size = Done (bits_of size v).
Proof.
  intros Hs Hv [Hlo Hhi]. unfold parse_immediate. rewrite Hv. cbn [asm_bind].
  rewrite (proj2 (Z.leb_le _ _) Hlo), (proj2 (Z.leb_le _ _) Hhi). cbn [andb negb].
  assert (Hp : 0 < 2 ^ (Z.of_nat size - 1)) by (apply Z.pow_pos_nonneg; lia).
  assert (H2 : 2 ^ Z.of_nat size = 2 * 2 ^ (Z.of_nat size - 1)).
  { rewrite <- Z.pow_succ_r by lia. f_equal; lia. }
  rewrite make_binary_bits_of by lia. reflexivity.
Qed.

Ltac explode s H :=
  repeat (destruct s as [|? s]; [discriminate H|]);
  destruct s; [clear H | discriminate H].

Lemma branch_entry_cases (inst f3 : str) :
  branch_entry inst f3 ->
  (inst = lit "beq" /\ f3 = lit "000") \/ (inst = lit "bne" /\ f3 = lit "001")
  \/ (inst = lit "blt" /\ f3 = lit "100").
Proof.
  intros H. apply dict_get_In in H. unfold insts in H.
  repeat (destruct H as [H|H]; [first [discriminate H | injection H as <- <-; auto]|]).
  destruct H.
Qed.

Lemma do_instruction_branch (line : str) (num : nat) (labels : gmap str Z) (pc0 : Z)
    (inst f3 p1 p2 p3 : str) :
  branch_entry inst f3 ->
  split (replace_punctuation line) = [inst; p1; p2; p3] ->
  do_instruction line num labels pc0 =
  match reg_get p1, reg_get p2 with
  | Some rs1, Some rs2 =>
      asm! imm_bin := parse_immediate p3 labels pc0 inst num 13 in
      asm! b0 := asm_char_at imm_bin 0 in
      asm! b1 := asm_char_at imm_bin 1 in
      Done (Some (b0 ++ slice 2 8 imm_bin ++ rs2 ++ rs1 ++ f3
                  ++ slice 8 12 imm_bin ++ b1 ++ B_TYPE.opcode B_TYPE.beq))
  | _, _ => Exit (Invalid_register inst)
  end.
Proof.
  intros He H. unfold do_instruction. rewrite H.
  destruct (branch_entry_cases _ _ He) as [[-> ->] | [[-> ->] | [-> ->]]]; reflexivity.
Qed.

Lemma zero_register_test (n : Z) (p : str) :
  (n = 0 <-> p = lit "zero") -> (n =? 0) = str_eqb p (lit "zero").
Proof.
  intros Hz. destruct (Z.eqb_spec n 0) as [Hn|Hn], (str_eqb p (lit "zero")) eqn:Hp;
    try reflexivity.
  - apply Hz in Hn. subst p. discriminate Hp.
  - apply str_eqb_eq in Hp. apply Hz in Hp. contradiction.
Qed.

Lemma even_part_zero (v : Z) : (2 * (v / 2) =? 0) = ((v =? 0) || (v =? 1)).
Proof.
  pose proof (Z.div_mod v 2 ltac:(lia)). pose proof (Z.mod_pos_bound v 2 ltac:(lia)).
  destruct (Z.eqb_spec v 0), (Z.eqb_spec v 1), (Z.eqb_spec (2 * (v / 2)) 0);
    try reflexivity; exfalso; lia.
Qed.

Lemma even_part_range (v c : Z) :
  - (2 * c) <= v <= 2 * c - 1 -> - (2 * c) <= 2 * (v / 2) <= 2 * c - 1.
Proof.
  pose proof (Z.div_mod v 2 ltac:(lia)). pose proof (Z.mod_pos_bound v 2 ltac:(lia)).
  lia.
Qed.

Lemma reg_number_bits (name b : str) :
  reg_get name = Some b ->
  exists n, 0 <= n < 32 /\ b = bits_of 5 n /\ (n = 0 <-> name = lit "zero")
            /\ reg_number name = Some n.
Proof.
  intros H. destruct (reg_get_bits _ _ H) as (n & Hn & Hb & Hz).
  exists n. repeat split; try tauto; try lia.
  unfold reg_number. rewrite H, Hb, int2_bits_of by lia.
  change (2 ^ Z.of_nat 5) with 32. rewrite Z.mod_small by lia. reflexivity.
Qed.

(** What the assembler makes of a branch line: a 32-character word whose
    decoded immediate is the encoded one with its lowest bit cleared. *)
Lemma branch_assembled (line : str) (num : nat) (labels : gmap str Z) (pc0 : Z)
    (inst f3 p1 p2 p3 rs1 rs2 : str) (v : Z) :
  branch_entry inst f3 ->
  split (replace_punctuation line) = [inst; p1; p2; p3] ->
  reg_get p1 = Some rs1 ->
  reg_get p2 = Some rs2 ->
  resolve_immediate p3 labels pc0 inst = Done v ->
  - 4096 <= v <= 4095 ->
  exists word n1 n2,
    do_instruction line num labels pc0 = Done (Some word)
    /\ length word = 32%nat
    /\ slice_from 25 word = B_TYPE.opcode B_TYPE.beq
    /\ slice 17 20 word = f3
    /\ (0 <= n1 < 32 /\ (n1 = 0 <-> p1 = lit "zero") /\ reg_number p1 = Some n1)
    /\ (0 <= n2 < 32 /\ (n2 = 0 <-> p2 = lit "zero") /\ reg_number p2 = Some n2)
    /\ b_fields word = Ok (n1, n2, 2 * (v / 2)).
Proof.
  intros He Hsplit Hr1 Hr2 Hv Hrange.
  destruct (reg_number_bits _ _ Hr1) as (n1 & Hn1 & Hb1 & Hz1 & Hnum1).
  destruct (reg_number_bits _ _ Hr2) as (n2 & Hn2 & Hb2 & Hz2 & Hnum2).
  rewrite (do_instruction_branch _ _ _ _ _ _ _ _ _ He Hsplit), Hr1, Hr2.
  rewrite (parse_immediate_bits _ _ _ _ num 13 v ltac:(lia) Hv)
    by (change (2 ^ (Z.of_nat 13 - 1)) with 4096; lia).
  cbn [asm_bind].
  pose proof (length_bits_of 13 v) as Hl.
  pose proof (bits_of_succ 12 v) as Hs.
  destruct (bits_of 13 v) as [|i0 imm] eqn:Himm; [discriminate Hl|].
  explode imm Hl.
  apply (f_equal (removelast (A:=ascii))) in Hs.
  rewrite removelast_last in Hs. cbn [removelast] in Hs.
  pose proof (length_bits_of 5 n1) as Hl1. rewrite <- Hb1 in Hl1. explode rs1 Hl1.
  pose proof (length_bits_of 5 n2) as Hl2. rewrite <- Hb2 in Hl2. explode rs2 Hl2.
  assert (Hf3 : exists c0 c1 c2, f3 = [c0; c1; c2]).
  { destruct (branch_entry_cases _ _ He) as [[_ ->] | [[_ ->] | [_ ->]]];
      cbn; eauto. }
  destruct Hf3 as (c0 & c1 & c2 & ->).
  cbn. eexists. exists n1, n2. split; [reflexivity|].
  do 3 (split; [reflexivity|]). split; [auto|]. split; [auto|].
  rewrite b_fields_layout, Hb1, Hb2, Hs.
  rewrite !int2_bits_of by lia. cbn [res_bind].
  change (lit "0") with ["0"%char]. rewrite <- bits_of_double.
  rewrite binary_to_decimal_bits_of by lia. cbn [res_bind].
  rewrite signed_in_range.
  - change (2 ^ Z.of_nat 5) with 32. rewrite !Z.mod_small by lia. reflexivity.
  - lia.
  - change (2 ^ (Z.of_nat 13 - 1)) with 4096. apply (even_part_range v 2048). lia.
Qed.

(** ** Jump words *)

Lemma body_jal (instr : str) (pc0 : Z) :
  slice_from 25 instr = J_TYPE.opcode J_TYPE.jal ->
  execute_instruction_body instr pc0 = execute_j_type instr pc0.
Proof. intros H. unfold execute_instruction_body. rewrite H. reflexivity. Qed.

(** [execute_j_type] in terms of the decoded fields. *)
Lemma execute_j_type_fields (instr : str) (pc0 : Z) (m : machine) (rd imm : Z) :
  slice_from 25 instr = J_TYPE.opcode J_TYPE.jal ->
  j_fields instr = Ok (rd, imm) ->
  execute_j_type instr pc0 m = (Ok (pc0 + imm), snd (write_register rd (pc0 + 4) m)).
Proof.
  intros Hop Hf. unfold j_fields in Hf. res_cases Hf. injection Hf as -> ->.
  unfold execute_j_type, bind, lift.
  rewrite E, E0, E1, E2, Hop. cbn [J_TYPE.opcode J_TYPE.jal]. rewrite str_eqb_refl.
  destruct (write_register rd (pc0 + 4) m) as [[[]|e] m'] eqn:Hw; [reflexivity|].
  unfold write_register in Hw. destruct (negb (rd =? 0)); discriminate Hw.
Qed.

(** The fields of a word laid out as the assembler lays out a jump. *)
Lemma j_fields_layout
    (i0 i1 i2 i3 i4 i5 i6 i7 i8 i9 i10 i11 i12 i13 i14 i15 i16 i17 i18 i19 : ascii)
    (d0 d1 d2 d3 d4 : ascii) (op : str) :
  j_fields (i0 :: i10 :: i11 :: i12 :: i13 :: i14 :: i15 :: i16 :: i17 :: i18 :: i19
            :: i9 :: i1 :: i2 :: i3 :: i4 :: i5 :: i6 :: i7 :: i8
            :: d0 :: d1 :: d2 :: d3 :: d4 :: op)
  = try! rd := int2 [d0; d1; d2; d3; d4] in
    try! imm := binary_to_decimal
                  ([i0; i1; i2; i3; i4; i5; i6; i7; i8; i9; i10; i11; i12; i13; i14;
                    i15; i16; i17; i18; i19] ++ lit "0") 21 in
    Ok (rd, imm).
Proof. reflexivity. Qed.

Lemma do_instruction_jal (line : str) (num : nat) (labels : gmap str Z) (pc0 : Z)
    (p1 p2 : str) :
  split (replace_punctuation line) = [lit "jal"; p1; p2] ->
  do_instruction line num labels pc0 =
  match reg_get p1 with
  | Some rd =>
      asm! imm_bin := parse_immediate p2 labels pc0 (lit "jal") num 21 in
      asm! b0 := asm_char_at imm_bin 0 in
      asm! b9 := asm_char_at imm_bin 9 in
      Done (Some (b0 ++ slice 10 20 imm_bin ++ b9 ++ slice 1 9 imm_bin
                  ++ rd ++ J_TYPE.opcode J_TYPE.jal))
  | None => Exit (Invalid_register (lit "jal"))
  end.
Proof. intros H. unfold do_instruction. rewrite H. reflexivity. Qed.

(** What the assembler makes of a [jal] line. *)
Lemma jal_assembled (line : str) (num : nat) (labels : gmap str Z) (pc0 : Z)
    (p1 p2 rd : str) (v : Z) :
  split (replace_punctuation line) = [lit "jal"; p1; p2] ->
  reg_get p1 = Some rd ->
  resolve_immediate p2 labels pc0 (lit "jal") = Done v ->
  - 1048576 <= v <= 1048575 ->
  exists word n,
    do_instruction line num labels pc0 = Done (Some word)
    /\ length word = 32%nat
    /\ slice_from 25 word = J_TYPE.opcode J_TYPE.jal
    /\ reg_number p1 = Some n
    /\ j_fields word = Ok (n, 2 * (v / 2)).
Proof.
  intros Hsplit Hr Hv Hrange.
  destruct (reg_number_bits _ _ Hr) as (n & Hn & Hb & _ & Hnum).
  rewrite (do_instruction_jal _ _ _ _ _ _ Hsplit), Hr.
  rewrite (parse_immediate_bits _ _ _ _ num 21 v ltac:(lia) Hv)
    by (change (2 ^ (Z.of_nat 21 - 1)) with 1048576; lia).
  cbn [asm_bind].
  pose proof (length_bits_of 21 v) as Hl.
  pose proof (bits_of_succ 20 v) as Hs.
  destruct (bits_of 21 v) as [|i0 imm] eqn:Himm; [discriminate Hl|].
  explode imm Hl.
  apply (f_equal (removelast (A:=ascii))) in Hs.
  rewrite removelast_last in Hs. cbn [removelast] in Hs.
  pose proof (length_bits_of 5 n) as Hl1. rewrite <- Hb in Hl1. explode rd Hl1.
  cbn. eexists. exists n. split; [reflexivity|].
  do 2 (split; [reflexivity|]). split; [assumption|].
  rewrite j_fields_layout, Hb, Hs.
  rewrite int2_bits_of by lia. cbn [res_bind].
  change (lit "0") with ["0"%char]. rewrite <- bits_of_double.
  rewrite binary_to_decimal_bits_of by lia. cbn [res_bind].
  rewrite signed_in_range.
  - change (2 ^ Z.of_nat 5) with 32. rewrite Z.mod_small by lia. reflexivity.
  - lia.
  - change (2 ^ (Z.of_nat 21 - 1)) with 1048576. apply (even_part_range v 524288). lia.
Qed.

(** ** Where a label operand leads *)

Lemma resolve_label (label : str) (labels : gmap str Z) (P L : Z) (inst : str) :
  labels !! label = Some L ->
  is_branch inst = true \/ inst = lit "jal" ->
  resolve_immediate label labels P inst = Done ((L - P) / 4).
Proof.
  intros HL Hinst. unfold resolve_immediate. rewrite HL.
  destruct Hinst as [-> | ->]; reflexivity.
Qed.

(** A [jal] to a label at [L], assembled at [P], continues at
    [P + 2 * ((L - P) / 4 / 2)]. *)
Lemma jal_to_label (line : str) (num : nat) (labels : gmap str Z)
    (p1 label rd : str) (P L : Z) (m : machine) :
  split (replace_punctuation line) = [lit "jal"; p1; label] ->
  reg_get p1 = Some rd ->
  labels !! label = Some L ->
  - 1048576 <= (L - P) / 4 <= 1048575 ->
  exists word,
    do_instruction line num labels P = Done (Some word)
    /\ fst (execute_instruction word P m) = P + 2 * ((L - P) / 4 / 2).
Proof.
  intros Hsplit Hr HL Hrange.
  destruct (jal_assembled line num labels P p1 label rd ((L - P) / 4) Hsplit Hr
              (resolve_label _ _ _ _ _ HL (or_intror eq_refl)) Hrange)
    as (word & n & Hword & _ & Hop & _ & Hf).
  exists word. split; [assumption|].
  rewrite (execute_instruction_ok word P _ m _
             (eq_trans (f_equal (fun c => c m) (body_jal word P Hop))
                       (execute_j_type_fields word P m _ _ Hop Hf))).
  reflexivity.
Qed.

(** A taken [beq] or [bne] to a label at [L], assembled at [P], continues
    at [P + 2 * ((L - P) / 4 / 2)], unless it is the halt word. *)
Lemma taken_branch_to_label (line : str) (num : nat) (labels : gmap str Z)
    (inst p1 p2 label : str) (P L n1 n2 v1 v2 : Z) (m : machine) :
  split (replace_punctuation line) = [inst; p1; p2; label] ->
  reg_number p1 = Some n1 ->
  reg_number p2 = Some n2 ->
  labels !! label = Some L ->
  - 4096 <= (L - P) / 4 <= 4095 ->
  registers m !! n1 = Some v1 ->
  registers m !! n2 = Some v2 ->
  (inst = lit "beq" /\ v1 = v2) \/ (inst = lit "bne" /\ v1 <> v2) ->
  ~ (n1 = 0 /\ n2 = 0 /\ 2 * ((L - P) / 4 / 2) = 0) ->
  exists word,
    do_instruction line num labels P = Done (Some word)
    /\ execute_instruction word P m = (P + 2 * ((L - P) / 4 / 2), m).
Proof.
  intros Hsplit Hnum1 Hnum2 HL Hrange Hv1 Hv2 Htaken Hnothalt.
  assert (Hr1 : exists rs1, reg_get p1 = Some rs1).
  { unfold reg_number in Hnum1. destruct (reg_get p1); [eauto | discriminate]. }
  assert (Hr2 : exists rs2, reg_get p2 = Some rs2).
  { unfold reg_number in Hnum2. destruct (reg_get p2); [eauto | discriminate]. }
  destruct Hr1 as [rs1 Hr1]. destruct Hr2 as [rs2 Hr2].
  assert (He : exists f3, branch_entry inst f3 /\ is_branch inst = true
                          /\ ((f3 = lit "000" /\ v1 = v2) \/ (f3 = lit "001" /\ v1 <> v2))).
  { destruct Htaken as [[-> Heq] | [-> Hne]].
    - exists (lit "000"). repeat split; auto.
    - exists (lit "001"). repeat split; auto. }
  destruct He as (f3 & He & Hbr & Hf3c).
  destruct (branch_assembled line num labels P inst f3 p1 p2 label rs1 rs2 ((L - P) / 4)
              He Hsplit Hr1 Hr2 (resolve_label _ _ _ _ _ HL (or_introl Hbr)) Hrange)
    as (word & n1' & n2' & Hword & _ & Hop & Hf3 & (_ & _ & Hn1') & (_ & _ & Hn2') & Hf).
  assert (n1' = n1) by congruence. assert (n2' = n2) by congruence. subst n1' n2'.
  exists word. split; [assumption|].
  apply execute_instruction_ok. rewrite body_b_type by assumption.
  rewrite (execute_b_type_fields _ _ _ _ _ _ _ _ Hf Hv1 Hv2), Hop, Hf3.
  assert (Hh : (n1 =? 0) && (n2 =? 0) && (2 * ((L - P) / 4 / 2) =? 0) = false).
  { destruct (Z.eqb_spec n1 0), (Z.eqb_spec n2 0),
      (Z.eqb_spec (2 * ((L - P) / 4 / 2)) 0); try reflexivity.
    exfalso. apply Hnothalt. auto. }
  rewrite Hh. cbn [andb].
  destruct Hf3c as [[-> Heq] | [-> Hne]]; cbn.
  - rewrite (proj2 (Z.eqb_eq _ _) Heq). reflexivity.
  - rewrite (proj2 (Z.eqb_neq _ _) Hne). reflexivity.
Qed.

(** With [P] and [L] word-aligned, that next PC is the label only when the
    label is the instruction's own address. *)
Lemma label_reached_only_from_itself (P L : Z) :
  (L - P) mod 4 = 0 -> (P + 2 * ((L - P) / 4 / 2) = L <-> L = P).
Proof.
  intros Ha.
  pose proof (Z.div_mod (L - P) 4 ltac:(lia)) as H4.
  pose proof (Z.div_mod ((L - P) / 4) 2 ltac:(lia)) as H2.
  pose proof (Z.mod_pos_bound ((L - P) / 4) 2 ltac:(lia)) as Hb.
  split; intros H.
  - lia.
  - subst L. clear. rewrite Z.sub_diag. change (0 / 4 / 2) with 0. lia.
Qed.

(** ** C1: label offsets *)

(** C1.  A label operand of [jal] or of a branch is encoded as the word
    offset [(L - P) / 4], and the decoder reads the field as a byte offset
    whose lowest bit is dropped: the [jal] at byte address 4 whose label is
    at byte address 16 continues at 6, and so does the taken [beq]; the run
    reaches the label only by falling through. *)
Theorem label_offset_next_pc :
  trace_pcs (Some jal_label_program) = Some [0; 4; 6; 8; 12; 16]
  /\ trace_pcs (Some beq_label_program) = Some [0; 4; 6; 8; 12; 16]
  /\ do_instruction (lit "jal ra, end") 2 {[ lit "end" := 16 ]} 4
     = Done (Some (lit "00000000001000000000000011101111"))
  /\ fst (execute_instruction (lit "00000000001000000000000011101111") 4
            (Machine initialize_registers (initialize_memory 32))) = 6
  /\ do_instruction (lit "beq ra, ra, end") 2 {[ lit "end" := 16 ]} 4
     = Done (Some (lit "00000000000100001000000101100011"))
  /\ fst (execute_instruction (lit "00000000000100001000000101100011") 4
            (Machine initialize_registers (initialize_memory 32))) = 6.
Proof. vm_compute. repeat split; reflexivity. Qed.

(** ** C8: [blt] is assembled but not executed *)

(** C8, as amended.  Every [blt] line with two valid register names and an
    immediate that fits 13 bits is assembled into a 32-character word with
    the branch opcode and funct3 = 100.  Executing that word performs no
    comparison: it raises the unknown-branch error, which the dispatcher
    turns into the error sentinel [-2] with the machine unchanged, except
    when both registers are [zero] and the immediate is 0 or 1, where the
    halt test comes first and the word returns the halt sentinel [-1]. *)
Theorem blt_assembled_not_executed
    (line : str) (num : nat) (labels : gmap str Z) (pc0 : Z)
    (p1 p2 p3 rs1 rs2 : str) (v : Z) (epc : Z) (m : machine) :
  split (replace_punctuation line) = [lit "blt"; p1; p2; p3] ->
  reg_get p1 = Some rs1 ->
  reg_get p2 = Some rs2 ->
  resolve_immediate p3 labels pc0 (lit "blt") = Done v ->
  - 4096 <= v <= 4095 ->
  regs_ok (registers m) ->
  exists word,
    do_instruction line num labels pc0 = Done (Some word)
    /\ length word = 32%nat
    /\ slice_from 25 word = B_TYPE.opcode B_TYPE.beq
    /\ slice 17 20 word = lit "100"
    /\ execute_instruction_body word epc m
       = (if blt_halts p1 p2 v then Ok (-1) else Raise Unknown_B_funct3, m)
    /\ execute_instruction word epc m = (if blt_halts p1 p2 v then -1 else -2, m).
Proof.
  intros Hsplit Hr1 Hr2 Hv Hrange Hok.
  destruct (branch_assembled line num labels pc0 (lit "blt") (lit "100")
              p1 p2 p3 rs1 rs2 v ltac:(reflexivity) Hsplit Hr1 Hr2 Hv Hrange)
    as (word & n1 & n2 & Hword & Hlen & Hop & Hf3 & (Hn1 & Hz1 & _) & (Hn2 & Hz2 & _) & Hf).
  destruct (Hok n1 Hn1) as [v1 Hv1]. destruct (Hok n2 Hn2) as [v2 Hv2].
  exists word. do 4 (split; [assumption|]).
  assert (Hb : execute_instruction_body word epc m
               = (if blt_halts p1 p2 v then Ok (-1) else Raise Unknown_B_funct3, m)).
  { rewrite body_b_type by assumption.
    rewrite (execute_b_type_fields _ _ _ _ _ _ _ _ Hf Hv1 Hv2).
    rewrite (zero_register_test _ _ Hz1), (zero_register_test _ _ Hz2), even_part_zero.
    rewrite Hop, Hf3, str_eqb_refl, andb_true_r. fold (blt_halts p1 p2 v).
    destruct (blt_halts p1 p2 v); reflexivity. }
  split; [exact Hb|].
  unfold execute_instruction. rewrite Hb.
  destruct (blt_halts p1 p2 v); reflexivity.
Qed.

Lemma blt_assembled_not_executed_witness :
  exists word,
    do_instruction (lit "blt a0, a1, 8") 1 ∅ 0 = Done (Some word)
    /\ length word = 32%nat
    /\ slice_from 25 word = B_TYPE.opcode B_TYPE.beq
    /\ slice 17 20 word = lit "100"
    /\ execute_instruction_body word 0 (Machine initialize_registers (initialize_memory 32))
       = (if blt_halts (lit "a0") (lit "a1") 8 then Ok (-1) else Raise Unknown_B_funct3,
          Machine initialize_registers (initialize_memory 32))
    /\ execute_instruction word 0 (Machine initialize_registers (initialize_memory 32))
       = (if blt_halts (lit "a0") (lit "a1") 8 then -1 else -2,
          Machine initialize_registers (initialize_memory 32)).
Proof.
  apply (blt_assembled_not_executed (lit "blt a0, a1, 8") 1 ∅ 0
           (lit "a0") (lit "a1") (lit "8") (lit "01010") (lit "01011") 8 0
           (Machine initialize_registers (initialize_memory 32))).
  - reflexivity.
  - reflexivity.
  - reflexivity.
  - reflexivity.
  - lia.
  - apply regs_ok_initialize_registers.
Defined.

(** The valid instruction [blt zero, zero, 0] is assembled into a word with
    funct3 = 100, and executing that word halts: no unknown-branch error is
    raised and the error sentinel is not returned. *)
Lemma blt_zero_zero_halts :
  do_instruction (lit "blt zero, zero, 0") 1 ∅ 0
  = Done (Some (lit "00000000000000000100000001100011"))
  /\ slice 17 20 (lit "00000000000000000100000001100011") = lit "100"
  /\ execute_instruction_body (lit "00000000000000000100000001100011") 0
       (Machine initialize_registers (initialize_memory 32))
     = (Ok (-1), Machine initialize_registers (initialize_memory 32))
  /\ execute_instruction_body (lit "00000000000000000100000001100011") 0
       (Machine initialize_registers (initialize_memory 32))
     <> (Raise Unknown_B_funct3, Machine initialize_registers (initialize_memory 32))
  /\ fst (execute_instruction (lit "00000000000000000100000001100011") 0
            (Machine initialize_registers (initialize_memory 32))) <> -2.
Proof.
  assert (H : execute_instruction_body (lit "00000000000000000100000001100011") 0
                (Machine initialize_registers (initialize_memory 32))
              = (Ok (-1), Machine initialize_registers (initialize_memory 32))).
  { rewrite body_b_type by reflexivity.
    apply b_type_halts; [reflexivity | reflexivity |].
    exists 0. vm_compute. reflexivity. }
  split; [vm_compute; reflexivity|]. split; [reflexivity|]. split; [exact H|].
  split.
  - rewrite H. intros [=].
  - rewrite (execute_instruction_ok _ _ _ _ _ H). cbn. lia.
Qed.

(** ** Two scenarios of the specification *)

(** [addi a0, zero, 5]: imm = 000000000101, rs1 = 00000, funct3 = 000,
    rd = 01010, opcode = 0010011. *)
Example assemble_addi :
  do_instruction (lit "addi a0, zero, 5") 1 ∅ 0
  = Done (Some (lit "000000000101" ++ lit "00000" ++ lit "000" ++ lit "01010"
                ++ lit "0010011")).
Proof. vm_compute. reflexivity. Qed.

(** A word stored with [sw] is read back by [lw]. *)
Example store_then_load :
  run_summary (Some store_load_program) = Some (true, Some 4)
  /\ final_register (Some store_load_program) 10 = Some 42
  /\ final_register (Some store_load_program) 11 = Some 42.
Proof. vm_compute. repeat split; reflexivity. Qed.

(** * Further properties *)

(** ** Binary strings *)

Lemma bitstring_bits_of (w : nat) (n : Z) : bitstring (bits_of w n).
Proof.
  revert n; induction w as [|w IH]; intros n; [constructor|].
  cbn [bits_of]. apply Forall_app. split; [apply IH|].
  constructor; [|constructor]. destruct (Z.odd n); [right | left]; reflexivity.
Qed.

(** Every string of binary digits is the fixed-width form of a number. *)
Lemma bitstring_is_bits_of (s : str) :
  bitstring s ->
  exists n, 0 <= n < 2 ^ Z.of_nat (length s) /\ s = bits_of (length s) n.
Proof.
  induction s as [|c s IH] using rev_ind; intros Hs.
  - exists 0. split; [cbn; lia | reflexivity].
  - apply Forall_app in Hs as [Hs Hc]. destruct (IH Hs) as (n & Hn & Hb).
    apply Forall_cons in Hc as [Hc _].
    rewrite length_app. cbn [length].
    replace (length s + 1)%nat with (S (length s)) by lia.
    rewrite Nat2Z.inj_succ, Z.pow_succ_r by lia.
    destruct Hc as [-> | ->].
    + exists (2 * n). split; [lia|]. rewrite bits_of_double, <- Hb. reflexivity.
    + exists (2 * n + 1). split; [lia|]. cbn [bits_of].
      rewrite Z.add_comm, Z.odd_add_mul_2. cbn [Z.odd].
      replace ((1 + 2 * n) / 2) with n by (apply (Z.div_unique _ 2 _ 1); lia).
      rewrite <- Hb. reflexivity.
Qed.

Lemma bitstring_slice (a b : nat) (s : str) : bitstring s -> bitstring (slice a b s).
Proof. intros H. unfold slice. apply Forall_take, Forall_drop, H. Qed.

Lemma length_slice (a b : nat) (s : str) :
  (b <= length s)%nat -> length (slice a b s) = (b - a)%nat.
Proof. intros H. unfold slice. rewrite length_take, length_drop. lia. Qed.

Lemma bitstring_slice_from (i : nat) (s : str) :
  bitstring s -> bitstring (slice_from (Z.of_nat i) s).
Proof.
  intros H. unfold slice_from.
  destruct (Z.ltb_spec (Z.of_nat i) 0); [lia|]. apply Forall_drop, H.
Qed.

Lemma int2_bitstring (s : str) :
  bitstring s -> s <> [] ->
  exists n, int2 s = Ok n /\ 0 <= n < 2 ^ Z.of_nat (length s).
Proof.
  intros Hs Hne. destruct (bitstring_is_bits_of s Hs) as (n & Hn & Hb).
  exists n. split; [|assumption].
  rewrite Hb at 1. rewrite int2_bits_of.
  - rewrite Z.mod_small by lia. reflexivity.
  - destruct s; [contradiction | cbn; lia].
Qed.

Lemma binary_to_decimal_bitstring (s : str) :
  bitstring s -> s <> [] ->
  exists v, binary_to_decimal s (length s) = Ok v
            /\ - 2 ^ (Z.of_nat (length s) - 1) <= v < 2 ^ (Z.of_nat (length s) - 1).
Proof.
  intros Hs Hne. destruct (bitstring_is_bits_of s Hs) as (n & Hn & Hb).
  assert (Hl : (1 <= length s)%nat) by (destruct s; [contradiction | cbn; lia]).
  exists (signed (length s) n). split.
  - rewrite Hb at 1. apply binary_to_decimal_bits_of, Hl.
  - unfold signed. rewrite Z.mod_small by lia.
    assert (H2 : 2 ^ Z.of_nat (length s) = 2 * 2 ^ (Z.of_nat (length s) - 1)).
    { rewrite <- Z.pow_succ_r by lia. f_equal; lia. }
    destruct (Z.leb_spec (2 ^ (Z.of_nat (length s) - 1)) n); lia.
Qed.

(** ** Faults come before writes *)

Lemma unchanged_ret {A} (a : A) : unchanged (ret a).
Proof. intros m; reflexivity. Qed.

Lemma unchanged_raise {A} (e : exn) : unchanged (@raise A e).
Proof. intros m; reflexivity. Qed.

Lemma unchanged_lift {A} (r : res A) : unchanged (lift r).
Proof. intros m; reflexivity. Qed.

Lemma unchanged_read_register (i : Z) : unchanged (read_register i).
Proof. intros m. unfold read_register. destruct (registers m !! i); reflexivity. Qed.

Lemma unchanged_read_memory (i : Z) : unchanged (read_memory i).
Proof. intros m; reflexivity. Qed.

Lemma unchanged_len_memory : unchanged len_memory.
Proof. intros m; reflexivity. Qed.

Lemma no_raise_ret {A} (a : A) : no_raise (ret a).
Proof. intros m; exists a; reflexivity. Qed.

Lemma atomic_unchanged {A} (c : M A) : unchanged c -> atomic c.
Proof. intros H m e _. apply H. Qed.

Lemma atomic_write_register (rd v : Z) : atomic (write_register rd v).
Proof.
  intros m e. unfold write_register. destruct (negb (rd =? 0)); discriminate.
Qed.

Lemma atomic_write_memory (i v : Z) : atomic (write_memory i v).
Proof.
  intros m e. unfold write_memory. destruct (list_set (memory m) i v); [discriminate|].
  reflexivity.
Qed.

Lemma atomic_bind_unchanged {A B} (c : M A) (k : A -> M B) :
  unchanged c -> (forall a, atomic (k a)) -> atomic (bind c k).
Proof.
  intros Hc Hk m e. unfold bind. specialize (Hc m).
  destruct (c m) as [[a|e'] m']; cbn in *; subst m'; [apply Hk | reflexivity].
Qed.

Lemma atomic_bind_no_raise {A B} (c : M A) (k : A -> M B) :
  atomic c -> (forall a, no_raise (k a)) -> atomic (bind c k).
Proof.
  intros Hc Hk m e. unfold bind. specialize (Hc m).
  destruct (c m) as [[a|e'] m']; cbn in *.
  - destruct (Hk a m') as [b Hb]. rewrite Hb. discriminate.
  - intros _. apply (Hc e'). reflexivity.
Qed.

Create HintDb atomic.
#[local] Hint Resolve unchanged_ret unchanged_raise unchanged_lift unchanged_read_register
  unchanged_read_memory unchanged_len_memory no_raise_ret atomic_write_register
  atomic_write_memory : atomic.

Ltac atomic_tac :=
  repeat first
    [ solve [auto with atomic]
    | solve [apply atomic_unchanged; auto with atomic]
    | match goal with
      | |- atomic (if ?b then _ else _) => destruct b
      | |- unchanged (if ?b then _ else _) => destruct b
      end
    | apply atomic_bind_unchanged; [solve [repeat first
          [ solve [auto with atomic]
          | match goal with |- unchanged (if ?b then _ else _) => destruct b end ]] | intros ?]
    | apply atomic_bind_no_raise; [| intros ?; solve [auto with atomic]] ].

Lemma atomic_execute_r_type (instr : str) (pc0 : Z) : atomic (execute_r_type instr pc0).
Proof. unfold execute_r_type. atomic_tac. Qed.

Lemma atomic_execute_i_type (instr : str) (pc0 : Z) : atomic (execute_i_type instr pc0).
Proof. unfold execute_i_type. atomic_tac. Qed.

Lemma atomic_execute_s_type (instr : str) (pc0 : Z) : atomic (execute_s_type instr pc0).
Proof. unfold execute_s_type. atomic_tac. Qed.

Lemma atomic_execute_b_type (instr : str) (pc0 : Z) : atomic (execute_b_type instr pc0).
Proof. unfold execute_b_type. atomic_tac. Qed.

Lemma atomic_execute_j_type (instr : str) (pc0 : Z) : atomic (execute_j_type instr pc0).
Proof. unfold execute_j_type. atomic_tac. Qed.

#[local] Hint Resolve atomic_execute_r_type atomic_execute_i_type atomic_execute_s_type
  atomic_execute_b_type atomic_execute_j_type : atomic.

Lemma atomic_execute_instruction_body (instr : str) (pc0 : Z) :
  atomic (execute_instruction_body instr pc0).
Proof. unfold execute_instruction_body. atomic_tac. Qed.

(** ** The executors in terms of the decoded fields *)

Lemma write_register_ok (rd v : Z) (m : machine) :
  write_register rd v m = (Ok tt, set_register rd v m).
Proof.
  unfold set_register, write_register. destruct (negb (rd =? 0)); reflexivity.
Qed.

Lemma execute_r_type_fields (instr : str) (pc0 : Z) (m : machine) (rd rs1 rs2 a b : Z) :
  r_fields instr = Ok (rd, rs1, rs2) ->
  registers m !! rs1 = Some a ->
  registers m !! rs2 = Some b ->
  execute_r_type instr pc0 m =
  match alu (slice 17 20 instr) (slice 0 7 instr) a b with
  | Ok v => (Ok (pc0 + 4), set_register rd v m)
  | Raise e => (Raise e, m)
  end.
Proof.
  intros Hf Ha Hb. unfold r_fields in Hf. res_cases Hf. injection Hf as -> -> ->.
  unfold execute_r_type, bind, lift, read_register, alu.
  rewrite E, E0, E1, Ha. cbn match. rewrite Hb. cbn match.
  repeat match goal with
         | |- context [if str_eqb ?x ?y then _ else _] => destruct (str_eqb x y)
         end;
    unfold ret, raise; rewrite ?write_register_ok; reflexivity.
Qed.

Lemma execute_i_type_fields (instr : str) (pc0 : Z) (m : machine) (rd rs1 imm a : Z) :
  i_fields instr = Ok (rd, rs1, imm) ->
  registers m !! rs1 = Some a ->
  execute_i_type instr pc0 m =
  let opcode := slice_from 25 instr in
  let funct3 := slice 17 20 instr in
  if str_eqb opcode (I_TYPE.opcode I_TYPE.addi) && str_eqb funct3 (I_TYPE.funct3 I_TYPE.addi)
  then (Ok (pc0 + 4), set_register rd (a + imm) m)
  else if str_eqb opcode (I_TYPE.opcode I_TYPE.lw) && str_eqb funct3 (I_TYPE.funct3 I_TYPE.lw)
  then
    if (0 <=? a + imm) && (a + imm <? Z.of_nat (length (memory m)) * 4) then
      match list_get (memory m) ((a + imm) / 4) with
      | Ok w => (Ok (pc0 + 4), set_register rd w m)
      | Raise e => (Raise e, m)
      end
    else (Raise (Invalid_memory_address (a + imm)), m)
  else if str_eqb opcode (I_TYPE.opcode I_TYPE.jalr)
          && str_eqb funct3 (I_TYPE.funct3 I_TYPE.jalr)
  then (Ok (a + imm), set_register rd (pc0 + 4) m)
  else (Raise Unknown_I_type, m).
Proof.
  intros Hf Ha. unfold i_fields in Hf. res_cases Hf. injection Hf as -> -> ->.
  unfold execute_i_type, bind, lift, read_register, len_memory, read_memory.
  rewrite E, E0, E1, Ha. cbn match. cbn zeta.
  destruct (_ && _); [rewrite write_register_ok; reflexivity|].
  destruct (_ && _).
  { destruct (_ && _); [|reflexivity].
    destruct (list_get _ _); [rewrite write_register_ok|]; reflexivity. }
  destruct (_ && _); [rewrite write_register_ok; reflexivity|].
  reflexivity.
Qed.

Lemma execute_s_type_fields (instr : str) (pc0 : Z) (m : machine) (rs1 rs2 imm a b : Z) :
  s_fields instr = Ok (rs1, rs2, imm) ->
  registers m !! rs1 = Some a ->
  registers m !! rs2 = Some b ->
  execute_s_type instr pc0 m =
  if str_eqb (slice_from 25 instr) (S_TYPE.opcode S_TYPE.sw)
     && str_eqb (slice 17 20 instr) (S_TYPE.funct3 S_TYPE.sw)
  then
    if (0 <=? a + imm) && (a + imm <? Z.of_nat (length (memory m)) * 4) then
      match list_set (memory m) ((a + imm) / 4) b with
      | Ok l => (Ok (pc0 + 4), Machine (registers m) l)
      | Raise e => (Raise e, m)
      end
    else (Raise (Invalid_memory_address (a + imm)), m)
  else (Raise Unknown_S_type, m).
Proof.
  intros Hf Ha Hb. unfold s_fields in Hf. res_cases Hf. injection Hf as -> -> ->.
  unfold execute_s_type, bind, lift, read_register, len_memory, write_memory.
  rewrite E, E0, E1, Ha. cbn match. rewrite Hb. cbn match.
  destruct (_ && _); [|reflexivity].
  destruct (_ && _); [|reflexivity].
  destruct (list_set _ _ _); reflexivity.
Qed.

(** Inside the memory, a word index computed from a byte address exists. *)
Lemma list_get_in_bounds (l : list Z) (addr : Z) :
  0 <= addr < Z.of_nat (length l) * 4 ->
  exists w, list_get l (addr / 4) = Ok w /\ l !! Z.to_nat (addr / 4) = Some w.
Proof.
  intros H.
  assert (Hi : 0 <= addr / 4 < Z.of_nat (length l)).
  { split; [apply Z.div_pos; lia | apply Z.div_lt_upper_bound; lia]. }
  unfold list_get.
  rewrite (proj2 (Z.ltb_ge _ _) (proj1 Hi)).
  rewrite (proj2 (Z.leb_le _ _) (proj1 Hi)), (proj2 (Z.ltb_lt _ _) (proj2 Hi)).
  cbn [andb].
  destruct (lookup_lt_is_Some_2 l (Z.to_nat (addr / 4))) as [w Hw]; [lia|].
  rewrite Hw. eauto.
Qed.

Lemma list_set_in_bounds (l : list Z) (addr v : Z) :
  0 <= addr < Z.of_nat (length l) * 4 ->
  list_set l (addr / 4) v = Ok (<[Z.to_nat (addr / 4) := v]> l).
Proof.
  intros H.
  assert (Hi : 0 <= addr / 4 < Z.of_nat (length l)).
  { split; [apply Z.div_pos; lia | apply Z.div_lt_upper_bound; lia]. }
  unfold list_set.
  rewrite (proj2 (Z.ltb_ge _ _) (proj1 Hi)).
  rewrite (proj2 (Z.leb_le _ _) (proj1 Hi)), (proj2 (Z.ltb_lt _ _) (proj2 Hi)).
  reflexivity.
Qed.

(** ** Decoding a 32-character word never fails *)

Lemma int2_slice (a b : nat) (instr : str) :
  bitstring instr -> (a < b)%nat -> (b <= length instr)%nat ->
  exists n, int2 (slice a b instr) = Ok n /\ 0 <= n < 2 ^ Z.of_nat (b - a).
Proof.
  intros Hb Hab Hlen.
  destruct (int2_bitstring (slice a b instr)) as (n & Hn & Hr).
  - apply bitstring_slice, Hb.
  - intros H. apply (f_equal length) in H. rewrite length_slice in H by lia. cbn in H. lia.
  - rewrite length_slice in Hr by lia. eauto.
Qed.

Lemma char_at_bit (instr : str) (i : nat) :
  bitstring instr -> (i < length instr)%nat ->
  exists c, char_at instr i = Ok c /\ is_bit c.
Proof.
  intros Hb Hi. unfold char_at.
  destruct (lookup_lt_is_Some_2 instr i Hi) as [c Hc]. rewrite Hc.
  exists c. split; [reflexivity|].
  unfold bitstring in Hb. rewrite Forall_lookup in Hb. eapply Hb, Hc.
Qed.

(** Appending the digit 0 doubles the two's-complement value. *)
Lemma binary_to_decimal_snoc_zero (t : str) :
  bitstring t -> t <> [] ->
  exists v, binary_to_decimal (t ++ lit "0") (S (length t)) = Ok (2 * v)
            /\ - 2 ^ (Z.of_nat (length t) - 1) <= v < 2 ^ (Z.of_nat (length t) - 1).
Proof.
  intros Ht Hne. destruct (bitstring_is_bits_of t Ht) as (n & Hn & Hb).
  assert (Hl : (1 <= length t)%nat) by (destruct t; [contradiction | cbn; lia]).
  set (w := length t) in *.
  assert (Hp : 0 < 2 ^ (Z.of_nat w - 1)) by (apply Z.pow_pos_nonneg; lia).
  assert (H2 : 2 ^ Z.of_nat w = 2 * 2 ^ (Z.of_nat w - 1)).
  { rewrite <- Z.pow_succ_r by lia. f_equal; lia. }
  exists (signed w n). split.
  - rewrite Hb. change (lit "0") with ["0"%char]. rewrite <- bits_of_double.
    rewrite binary_to_decimal_bits_of by lia. f_equal.
    unfold signed. rewrite Nat2Z.inj_succ, Z.pow_succ_r by lia.
    replace (Z.succ (Z.of_nat w) - 1) with (Z.of_nat w) by lia.
    rewrite !Z.mod_small by lia.
    destruct (Z.leb_spec (2 ^ Z.of_nat w) (2 * n)),
      (Z.leb_spec (2 ^ (Z.of_nat w - 1)) n); lia.
  - unfold signed. rewrite Z.mod_small by lia.
    destruct (Z.leb_spec (2 ^ (Z.of_nat w - 1)) n); lia.
Qed.

Lemma word32_r_fields (instr : str) :
  word32 instr ->
  exists rd rs1 rs2,
    r_fields instr = Ok (rd, rs1, rs2)
    /\ 0 <= rd < 32 /\ 0 <= rs1 < 32 /\ 0 <= rs2 < 32.
Proof.
  intros [Hlen Hb]. unfold r_fields.
  destruct (int2_slice 7 12 instr Hb) as (rs2 & -> & H2); [lia | lia |].
  destruct (int2_slice 12 17 instr Hb) as (rs1 & -> & H1); [lia | lia |].
  destruct (int2_slice 20 25 instr Hb) as (rd & -> & Hd); [lia | lia |].
  exists rd, rs1, rs2. cbn in *. repeat split; lia.
Qed.

Lemma word32_i_fields (instr : str) :
  word32 instr ->
  exists rd rs1 imm,
    i_fields instr = Ok (rd, rs1, imm)
    /\ 0 <= rd < 32 /\ 0 <= rs1 < 32 /\ - 2048 <= imm <= 2047.
Proof.
  intros [Hlen Hb]. unfold i_fields.
  destruct (binary_to_decimal_bitstring (slice 0 12 instr)) as (imm & Himm & Hr).
  { apply bitstring_slice, Hb. }
  { intros H. apply (f_equal length) in H. rewrite length_slice in H by lia. discriminate H. }
  rewrite length_slice in Himm, Hr by lia. cbn [Nat.sub] in Himm. rewrite Himm.
  destruct (int2_slice 12 17 instr Hb) as (rs1 & -> & H1); [lia | lia |].
  destruct (int2_slice 20 25 instr Hb) as (rd & -> & Hd); [lia | lia |].
  exists rd, rs1, imm. cbn in *. repeat split; lia.
Qed.

Lemma word32_s_fields (instr : str) :
  word32 instr ->
  exists rs1 rs2 imm,
    s_fields instr = Ok (rs1, rs2, imm)
    /\ 0 <= rs1 < 32 /\ 0 <= rs2 < 32 /\ - 2048 <= imm <= 2047.
Proof.
  intros [Hlen Hb]. unfold s_fields.
  destruct (int2_slice 7 12 instr Hb) as (rs2 & -> & H2); [lia | lia |].
  destruct (int2_slice 12 17 instr Hb) as (rs1 & -> & H1); [lia | lia |].
  destruct (binary_to_decimal_bitstring (slice 0 7 instr ++ slice 20 25 instr))
    as (imm & Himm & Hr).
  { apply Forall_app. split; apply bitstring_slice, Hb. }
  { intros H. apply (f_equal length) in H.
    rewrite length_app, !length_slice in H by lia. discriminate H. }
  rewrite length_app, !length_slice in Himm, Hr by lia. cbn [Nat.sub Nat.add] in Himm.
  cbn [res_bind]. rewrite Himm.
  exists rs1, rs2, imm. cbn in *. repeat split; lia.
Qed.

Lemma word32_b_fields (instr : str) :
  word32 instr ->
  exists rs1 rs2 imm,
    b_fields instr = Ok (rs1, rs2, imm)
    /\ 0 <= rs1 < 32 /\ 0 <= rs2 < 32 /\ - 4096 <= imm <= 4094 /\ imm mod 2 = 0.
Proof.
  intros [Hlen Hb]. unfold b_fields.
  destruct (char_at_bit instr 0 Hb) as (c0 & -> & Hc0); [lia|].
  destruct (int2_slice 7 12 instr Hb) as (rs2 & -> & H2); [lia | lia |].
  destruct (int2_slice 12 17 instr Hb) as (rs1 & -> & H1); [lia | lia |].
  destruct (char_at_bit instr 24 Hb) as (c24 & -> & Hc24); [lia|].
  cbn [res_bind].
  destruct (binary_to_decimal_snoc_zero ([c0] ++ [c24] ++ slice 1 7 instr ++ slice 20 24 instr))
    as (v & Hv & Hr).
  { unfold bitstring. rewrite !Forall_app, !Forall_singleton.
    repeat split; try assumption; apply bitstring_slice, Hb. }
  { discriminate. }
  rewrite !length_app, !length_slice in Hv, Hr by lia. cbn [length Nat.sub Nat.add] in Hv, Hr.
  rewrite <- !app_assoc in Hv. rewrite Hv. cbn [res_bind].
  exists rs1, rs2, (2 * v). cbn in *. repeat split; try lia.
  rewrite Z.mul_comm. apply Z.mod_mul. lia.
Qed.

Lemma word32_j_fields (instr : str) :
  word32 instr ->
  exists rd imm,
    j_fields instr = Ok (rd, imm)
    /\ 0 <= rd < 32 /\ - 1048576 <= imm <= 1048574 /\ imm mod 2 = 0.
Proof.
  intros [Hlen Hb]. unfold j_fields.
  destruct (char_at_bit instr 0 Hb) as (c0 & -> & Hc0); [lia|].
  destruct (char_at_bit instr 11 Hb) as (c11 & -> & Hc11); [lia|].
  destruct (int2_slice 20 25 instr Hb) as (rd & -> & Hd); [lia | lia |].
  cbn [res_bind].
  destruct (binary_to_decimal_snoc_zero
              ([c0] ++ slice 12 20 instr ++ [c11] ++ slice 1 11 instr))
    as (v & Hv & Hr).
  { unfold bitstring. rewrite !Forall_app, !Forall_singleton.
    repeat split; try assumption; apply bitstring_slice, Hb. }
  { discriminate. }
  rewrite !length_app, !length_slice in Hv, Hr by lia. cbn [length Nat.sub Nat.add] in Hv, Hr.
  rewrite <- !app_assoc in Hv. rewrite Hv. cbn [res_bind].
  exists rd, (2 * v). cbn in *. repeat split; try lia.
  rewrite Z.mul_comm. apply Z.mod_mul. lia.
Qed.

(** ** X1: a faulting instruction writes nothing *)

(** X1.  Whatever the instruction string, program counter and machine, if
    the body of [execute_instruction] raises an exception then registers
    and memory are exactly as they were before: every executor does its
    checks before its first write. *)
Theorem fault_leaves_machine_unchanged
    (instr : str) (pc0 : Z) (m m' : machine) (e : exn) :
  execute_instruction_body instr pc0 m = (Raise e, m') -> m' = m.
Proof.
  intros H. pose proof (atomic_execute_instruction_body instr pc0 m e) as Ha.
  rewrite H in Ha. apply Ha. reflexivity.
Qed.

Lemma fault_leaves_machine_unchanged_witness :
  Machine (<[5 := 7]> initialize_registers) (initialize_memory 32)
  = Machine (<[5 := 7]> initialize_registers) (initialize_memory 32).
Proof.
  apply (fault_leaves_machine_unchanged (lit "00000000101000101000000000100011") 12
           _ _ Unknown_S_type).
  vm_compute. reflexivity.
Defined.

(** ** X2: the faults of a well-formed word *)

Lemma alu_fault (funct3 funct7 : str) (a b : Z) (e : exn) :
  alu funct3 funct7 a b = Raise e -> documented_fault e.
Proof.
  unfold alu.
  repeat match goal with
         | |- context [if str_eqb ?x ?y then _ else _] => destruct (str_eqb x y)
         end; intros [= <-]; exact I.
Qed.

Lemma word32_faults
    (instr : str) (pc0 : Z) (m m' : machine) (e : exn) :
  word32 instr ->
  regs_ok (registers m) ->
  execute_instruction_body instr pc0 m = (Raise e, m') ->
  documented_fault e.
Proof.
  intros Hw Hok. unfold execute_instruction_body.
  destruct (str_eqb _ (R_TYPE.opcode R_TYPE.add)).
  { destruct (word32_r_fields instr Hw) as (rd & rs1 & rs2 & Hf & _ & H1 & H2).
    destruct (Hok rs1 H1) as [a Ha]. destruct (Hok rs2 H2) as [b Hb].
    rewrite (execute_r_type_fields _ _ _ _ _ _ _ _ Hf Ha Hb).
    destruct (alu _ _ a b) eqn:Halu; intros [= <- _]. eapply alu_fault, Halu. }
  destruct (existsb _ _).
  { destruct (word32_i_fields instr Hw) as (rd & rs1 & imm & Hf & _ & H1 & _).
    destruct (Hok rs1 H1) as [a Ha].
    rewrite (execute_i_type_fields _ _ _ _ _ _ _ Hf Ha). cbn zeta.
    destruct (_ && _); [discriminate|].
    destruct (_ && _).
    { destruct (_ && _) eqn:Hin; [|intros [= <- _]; exact I].
      apply andb_prop in Hin as [Hlo Hhi]. apply Z.leb_le in Hlo. apply Z.ltb_lt in Hhi.
      destruct (list_get_in_bounds (memory m) (a + imm) ltac:(lia)) as (w & -> & _).
      discriminate. }
    destruct (_ && _); [discriminate|]. intros [= <- _]; exact I. }
  destruct (str_eqb _ (S_TYPE.opcode S_TYPE.sw)).
  { destruct (word32_s_fields instr Hw) as (rs1 & rs2 & imm & Hf & H1 & H2 & _).
    destruct (Hok rs1 H1) as [a Ha]. destruct (Hok rs2 H2) as [b Hb].
    rewrite (execute_s_type_fields _ _ _ _ _ _ _ _ Hf Ha Hb).
    destruct (_ && _); [|intros [= <- _]; exact I].
    destruct (_ && _) eqn:Hin; [|intros [= <- _]; exact I].
    apply andb_prop in Hin as [Hlo Hhi]. apply Z.leb_le in Hlo. apply Z.ltb_lt in Hhi.
    rewrite (list_set_in_bounds (memory m) (a + imm) b) by lia. discriminate. }
  destruct (str_eqb _ (B_TYPE.opcode B_TYPE.beq)).
  { destruct (word32_b_fields instr Hw) as (rs1 & rs2 & imm & Hf & H1 & H2 & _).
    destruct (Hok rs1 H1) as [a Ha]. destruct (Hok rs2 H2) as [b Hb].
    rewrite (execute_b_type_fields _ _ _ _ _ _ _ _ Hf Ha Hb).
    repeat match goal with
           | |- context [if ?c then _ else _] => destruct c
           end; intros [= <- _] || discriminate; exact I. }
  destruct (str_eqb _ (J_TYPE.opcode J_TYPE.jal)) eqn:Hj.
  { apply str_eqb_eq in Hj.
    destruct (word32_j_fields instr Hw) as (rd & imm & Hf & _).
    rewrite (execute_j_type_fields _ _ m _ _ Hj Hf). discriminate. }
  destruct (str_eqb _ (lit "1110011")); [discriminate|].
  intros [= <- _]; exact I.
Qed.

(** X2.  On a word of 32 binary digits, with registers [x0] to [x31]
    present, the only exceptions the body of [execute_instruction] raises
    are the ones the executors raise on purpose (unknown opcode, unknown
    funct3 or funct7, invalid memory address): no field fails to parse, no
    register key is missing and no memory index is out of range. *)
Theorem only_documented_faults
    (instr : str) (pc0 : Z) (m m' : machine) (e : exn) :
  word32 instr ->
  regs_ok (registers m) ->
  execute_instruction_body instr pc0 m = (Raise e, m') ->
  documented_fault e.
Proof. apply word32_faults. Qed.

Lemma only_documented_faults_witness :
  documented_fault (Invalid_memory_address 128).
Proof.
  apply (only_documented_faults (lit "00001000000000000010010100000011") 0
           (Machine initialize_registers (initialize_memory 32))
           (Machine initialize_registers (initialize_memory 32))).
  - split; [reflexivity|].
    repeat (constructor; [first [left; reflexivity | right; reflexivity]|]). constructor.
  - apply regs_ok_initialize_registers.
  - vm_compute. reflexivity.
Defined.

(** ** Loading a program *)

Lemma validate_instruction_word32 (line : str) :
  validate_instruction line = true <-> word32 line.
Proof.
  unfold validate_instruction, word32, bitstring.
  rewrite andb_true_iff, Nat.eqb_eq, forallb_forall, Forall_forall.
  split; intros [Hl Hb]; (split; [exact Hl|]); intros c Hc.
  - apply list_elem_of_In in Hc. specialize (Hb c Hc).
    apply orb_prop in Hb as [H|H]; apply Ascii.eqb_eq in H; [left | right]; exact H.
  - apply list_elem_of_In in Hc. destruct (Hb c Hc) as [-> | ->]; reflexivity.
Qed.

Lemma read_instructions_word32 (file : list str) (instructions : list str) :
  read_instructions file = Some instructions -> Forall word32 instructions.
Proof.
  revert instructions; induction file as [|line file IH]; intros instructions; cbn.
  - intros [= <-]. constructor.
  - destruct (strip line) as [|c l] eqn:Hs; [apply IH|].
    destruct (validate_instruction (c :: l)) eqn:Hv; [|discriminate].
    destruct (read_instructions file) as [rest|]; [|discriminate].
    intros [= <-]. constructor; [apply validate_instruction_word32, Hv | apply IH; reflexivity].
Qed.

Lemma int2_word32 (line : str) :
  word32 line -> int2 line = Ok (word_value line) /\ 0 <= word_value line < 2 ^ 32.
Proof.
  intros [Hl Hb]. destruct (int2_bitstring line Hb) as (n & Hn & Hr).
  - intros ->. discriminate Hl.
  - unfold word_value. rewrite Hn, Hl in *. auto.
Qed.

Lemma store_instructions_spec (instructions : list str) (i : nat) (memory : list Z) :
  Forall word32 instructions ->
  (i + length instructions <= length memory)%nat ->
  store_instructions instructions (Z.of_nat i) memory
  = (true, take i memory ++ map word_value instructions
           ++ drop (i + length instructions) memory).
Proof.
  intros Hw. revert i memory.
  induction Hw as [|line rest Hline _ IH]; intros i memory Hlen; cbn [store_instructions].
  - cbn [map length app]. rewrite Nat.add_0_r, take_drop. reflexivity.
  - cbn [length] in Hlen. destruct (int2_word32 line Hline) as [-> _].
    unfold list_set.
    destruct (Z.ltb_spec (Z.of_nat i) 0); [lia|].
    rewrite (proj2 (Z.leb_le 0 (Z.of_nat i))) by lia.
    rewrite (proj2 (Z.ltb_lt (Z.of_nat i) (Z.of_nat (length memory)))) by lia.
    cbn [andb]. rewrite Nat2Z.id.
    replace (Z.of_nat i + 1) with (Z.of_nat (S i)) by lia.
    rewrite IH by (rewrite length_insert; lia).
    f_equal. cbn [map length].
    rewrite take_insert_lt by lia.
    destruct (lookup_lt_is_Some_2 memory i ltac:(lia)) as [x Hx].
    rewrite (take_S_r memory i x Hx).
    rewrite insert_app_r_alt by (rewrite length_take; lia).
    rewrite length_take. replace (i - i `min` length memory)%nat with 0%nat by lia.
    cbn [insert list_insert]. rewrite <- app_assoc. cbn [app].
    rewrite drop_insert_lt by lia.
    replace (S i + length rest)%nat with (i + S (length rest))%nat by lia.
    reflexivity.
Qed.

(** ** X3: a failed load leaves the memory alone *)

(** X3.  When [load_program] reports failure (file not found, an invalid
    line, or more instructions than memory words) the memory is exactly as
    it was: all lines are validated and counted before the first word is
    stored. *)
Theorem load_program_failure_keeps_memory
    (file : option (list str)) (memory memory' : list Z) :
  load_program file memory = (false, memory') -> memory' = memory.
Proof.
  unfold load_program. destruct file as [file|]; [|intros [= <-]; reflexivity].
  destruct (read_instructions file) as [instructions|] eqn:Hr;
    [|intros [= <-]; reflexivity].
  destruct (Nat.ltb_spec (length memory) (length instructions));
    [intros [= <-]; reflexivity|].
  pose proof (store_instructions_spec instructions 0 memory
                (read_instructions_word32 _ _ Hr) ltac:(lia)) as Hs.
  change (Z.of_nat 0) with 0 in Hs. rewrite Hs. discriminate.
Qed.

Lemma load_program_failure_keeps_memory_witness :
  initialize_memory 2 = initialize_memory 2.
Proof.
  apply (load_program_failure_keeps_memory
           (Some [lit "00000000000000000000000001100011"; lit "0101"])).
  vm_compute. reflexivity.
Defined.

(** ** X4: what a successful load stores *)

Lemma load_program_loaded (file : list str) (memory memory' : list Z) :
  load_program (Some file) memory = (true, memory') ->
  exists instructions,
    read_instructions file = Some instructions
    /\ Forall word32 instructions
    /\ (length instructions <= length memory)%nat
    /\ memory' = map word_value instructions ++ drop (length instructions) memory
    /\ length memory' = length memory.
Proof.
  unfold load_program.
  destruct (read_instructions file) as [instructions|] eqn:Hr; [|discriminate].
  destruct (Nat.ltb_spec (length memory) (length instructions)); [discriminate|].
  pose proof (read_instructions_word32 _ _ Hr) as Hw.
  pose proof (store_instructions_spec instructions 0 memory Hw ltac:(lia)) as Hs.
  change (Z.of_nat 0) with 0 in Hs. cbn [take app Nat.add] in Hs. rewrite Hs.
  intros [= <-].
  exists instructions. repeat split; try assumption.
  rewrite length_app, length_map, length_drop. lia.
Qed.



(** ** Registers and memory stay 32-bit *)

Lemma land_mask_range (v : Z) : 0 <= Z.land v 4294967295 < 2 ^ 32.
Proof.
  change 4294967295 with (Z.ones 32). rewrite Z.land_ones by lia.
  apply Z.mod_pos_bound. lia.
Qed.

Lemma wf_gives_ret {A} (a : A) (Q : A -> Prop) : Q a -> wf_gives (ret a) Q.
Proof. intros Ha m Hm. split; [exact Hm|]. intros b [= <-]. exact Ha. Qed.

Lemma wf_gives_raise {A} (e : exn) (Q : A -> Prop) : wf_gives (raise e) Q.
Proof. intros m Hm. split; [exact Hm|]. intros b [=]. Qed.

Lemma wf_gives_lift {A} (r : res A) : wf_gives (lift r) (fun _ => True).
Proof. intros m Hm. split; [exact Hm | auto]. Qed.

Lemma wf_gives_len_memory : wf_gives len_memory (fun _ => True).
Proof. intros m Hm. split; [exact Hm | auto]. Qed.

Lemma wf_gives_read_register (i : Z) :
  wf_gives (read_register i) (fun v => 0 <= v < 2 ^ 32).
Proof.
  intros m Hm. unfold read_register.
  destruct (registers m !! i) as [v|] eqn:Hv; cbn; (split; [exact Hm|]); intros a [= <-].
  apply (proj1 Hm i v Hv).
Qed.

Lemma wf_gives_read_memory (i : Z) :
  wf_gives (read_memory i) (fun w => 0 <= w < 2 ^ 32).
Proof.
  intros m Hm. unfold read_memory, list_get. cbn. split; [exact Hm|]. intros a.
  destruct (_ && _); [|discriminate].
  destruct (memory m !! _) as [w|] eqn:Hw; intros [= <-].
  destruct Hm as [_ Hmem]. rewrite Forall_lookup in Hmem. eapply Hmem, Hw.
Qed.

Lemma wf_gives_write_register (rd v : Z) :
  wf_gives (write_register rd v) (fun _ => True).
Proof.
  intros m [Hr Hmem]. unfold write_register.
  destruct (negb (rd =? 0)); cbn; (split; [|auto]); split; cbn; try assumption.
  intros i x. destruct (decide (rd = i)) as [->|Hne].
  - rewrite lookup_insert_eq. intros [= <-]. apply land_mask_range.
  - rewrite lookup_insert_ne by assumption. apply Hr.
Qed.

Lemma wf_gives_write_memory (i v : Z) :
  0 <= v < 2 ^ 32 -> wf_gives (write_memory i v) (fun _ => True).
Proof.
  intros Hv m [Hr Hmem]. unfold write_memory, list_set.
  destruct (_ && _); cbn; (split; [|auto]); split; cbn; try assumption.
  apply Forall_insert; assumption.
Qed.

Lemma wf_gives_bind {A B} (c : M A) (k : A -> M B) (Q : A -> Prop) (R : B -> Prop) :
  wf_gives c Q -> (forall a, Q a -> wf_gives (k a) R) -> wf_gives (bind c k) R.
Proof.
  intros Hc Hk m Hm. unfold bind. destruct (Hc m Hm) as [Hm' Hq].
  destruct (c m) as [[a|e] m']; cbn in *.
  - apply (Hk a (Hq a eq_refl) m' Hm').
  - split; [exact Hm' | intros b [=]].
Qed.

Lemma wf_gives_weaken {A} (c : M A) (Q : A -> Prop) :
  wf_gives c Q -> wf_gives c (fun _ => True).
Proof. intros H m Hm. split; [apply (H m Hm) | auto]. Qed.

Ltac wf_tac :=
  repeat first
    [ apply wf_gives_ret; exact I
    | apply wf_gives_raise
    | apply wf_gives_write_register
    | apply wf_gives_write_memory; assumption
    | apply wf_gives_len_memory
    | apply wf_gives_lift
    | apply (wf_gives_weaken _ _ (wf_gives_read_register _))
    | apply (wf_gives_weaken _ _ (wf_gives_read_memory _))
    | match goal with
      | |- wf_gives (if ?b then _ else _) _ => destruct b
      | |- wf_gives (bind (read_register _) _) _ =>
          eapply wf_gives_bind; [apply wf_gives_read_register | intros ? ?]
      | |- wf_gives (bind (read_memory _) _) _ =>
          eapply wf_gives_bind; [apply wf_gives_read_memory | intros ? ?]
      | |- wf_gives (bind _ _) _ =>
          eapply (wf_gives_bind _ _ (fun _ => True)); [| intros ? _]
      end ].

Lemma wf_execute_r_type (instr : str) (pc0 : Z) :
  wf_gives (execute_r_type instr pc0) (fun _ => True).
Proof. unfold execute_r_type. wf_tac. Qed.

Lemma wf_execute_i_type (instr : str) (pc0 : Z) :
  wf_gives (execute_i_type instr pc0) (fun _ => True).
Proof. unfold execute_i_type. wf_tac. Qed.

Lemma wf_execute_s_type (instr : str) (pc0 : Z) :
  wf_gives (execute_s_type instr pc0) (fun _ => True).
Proof. unfold execute_s_type. wf_tac. Qed.

Lemma wf_execute_b_type (instr : str) (pc0 : Z) :
  wf_gives (execute_b_type instr pc0) (fun _ => True).
Proof. unfold execute_b_type. wf_tac. Qed.

Lemma wf_execute_j_type (instr : str) (pc0 : Z) :
  wf_gives (execute_j_type instr pc0) (fun _ => True).
Proof. unfold execute_j_type. wf_tac. Qed.

Lemma wf_execute_instruction (instr : str) (pc0 : Z) (m : machine) :
  wf_machine m -> wf_machine (snd (execute_instruction instr pc0 m)).
Proof.
  intros Hm.
  assert (H : wf_gives (execute_instruction_body instr pc0) (fun _ => True)).
  { unfold execute_instruction_body.
    repeat match goal with
           | |- wf_gives (if ?b then _ else _) _ => destruct b
           end;
      first [ apply wf_execute_r_type | apply wf_execute_i_type | apply wf_execute_s_type
            | apply wf_execute_b_type | apply wf_execute_j_type | wf_tac ]. }
  unfold execute_instruction. destruct (H m Hm) as [Hm' _].
  destruct (execute_instruction_body instr pc0 m) as [[v|e] m']; exact Hm'.
Qed.

(** ** The machine during a run *)

Lemma wf_entry_machine (s : sim) : wf_machine (mach s) -> wf_machine (entry_machine s).
Proof.
  intros [Hr Hmem]. split; [|exact Hmem]. cbn. intros i v.
  destruct (decide (0 = i)) as [<-|Hne].
  - rewrite lookup_insert_eq. intros [= <-]. lia.
  - rewrite lookup_insert_ne by assumption. apply Hr.
Qed.

Lemma machine_inv_entry (s : sim) : machine_inv (mach s) -> machine_inv (entry_machine s).
Proof.
  intros (Hw & Hok & Hlen). split; [apply wf_entry_machine, Hw|].
  split; [apply regs_ok_entry_machine, Hok | exact Hlen].
Qed.

Lemma machine_inv_execute (instr : str) (pc0 : Z) (m : machine) :
  machine_inv m -> machine_inv (snd (execute_instruction instr pc0 m)).
Proof.
  intros (Hw & Hok & Hlen).
  pose proof (extends_execute_instruction instr pc0 m) as Hext.
  split; [apply wf_execute_instruction, Hw|].
  split; [eapply regs_ok_extends; eassumption|].
  destruct Hext as (_ & _ & ->). exact Hlen.
Qed.

Lemma machine_inv_loop_body (s : sim) :
  machine_inv (mach s) -> machine_inv (mach (snd (loop_body s))).
Proof.
  intros H. destruct (loop_body_mach s) as [-> | [-> | [instr ->]]].
  - exact H.
  - apply machine_inv_entry, H.
  - apply machine_inv_execute, machine_inv_entry, H.
Qed.

Lemma machine_inv_loaded (file : list str) (mem : list Z) :
  load_program (Some file) (initialize_memory 32) = (true, mem) ->
  machine_inv (Machine initialize_registers mem).
Proof.
  intros Hload. apply load_program_loaded in Hload
    as (instructions & _ & Hw & Hlen & -> & Hl).
  split; [split|split]; cbn [registers memory].
  - intros i v Hv.
    assert (Hall : map_Forall (fun _ x => x = 0) initialize_registers).
    { unfold initialize_registers. apply map_Forall_to_list.
      rewrite Forall_forall. intros [k x] Hkx. cbn.
      apply elem_of_map_to_list, elem_of_list_to_map_2, list_elem_of_In, in_map_iff in Hkx.
      destruct Hkx as (j & [= _ <-] & _). reflexivity. }
    rewrite (Hall i v Hv). lia.
  - apply Forall_app. split.
    + rewrite Forall_map. eapply Forall_impl; [exact Hw|].
      intros line Hline. apply (int2_word32 line Hline).
    + apply Forall_drop. unfold initialize_memory. apply Forall_replicate. lia.
  - apply regs_ok_initialize_registers.
  - rewrite Hl. reflexivity.
Qed.

Lemma machine_inv_reaches (file : list str) (mem : list Z) (s : sim) :
  load_program (Some file) (initialize_memory 32) = (true, mem) ->
  reaches (initial_sim mem) s ->
  machine_inv (mach s).
Proof.
  intros Hload. induction 1 as [|s s' _ IH Hc Hb].
  - apply (machine_inv_loaded file mem Hload).
  - pose proof (machine_inv_loop_body s IH) as H. rewrite Hb in H. exact H.
Qed.

Lemma fetched_word32 (s : sim) (instr_bin : str) :
  wf_machine (mach s) -> fetched s instr_bin -> word32 instr_bin.
Proof.
  intros [_ Hmem] (w & Hw & ->).
  rewrite Forall_lookup in Hmem. specialize (Hmem _ _ Hw).
  rewrite zfill_bin by (change (2 ^ Z.of_nat 32) with (2 ^ 32); lia).
  split; [apply length_bits_of | apply bitstring_bits_of].
Qed.

(** ** X5: the state of a run is 32-bit *)

(** X5.  Throughout the run of any program that loads, every register
    value and every memory word is in [0, 2^32), all 32 registers are
    present, and the memory keeps its 32 words: [write_register] masks what
    it stores, [sw] stores a register value, and nothing else writes. *)
Theorem run_state_is_32_bit (file : list str) (mem : list Z) (s : sim) :
  load_program (Some file) (initialize_memory 32) = (true, mem) ->
  reaches (initial_sim mem) s ->
  (forall i v, registers (mach s) !! i = Some v -> 0 <= v < 2 ^ 32)
  /\ Forall (fun w => 0 <= w < 2 ^ 32) (memory (mach s))
  /\ regs_ok (registers (mach s))
  /\ length (memory (mach s)) = 32%nat.
Proof.
  intros Hload Hreach.
  destruct (machine_inv_reaches file mem s Hload Hreach) as ((Hr & Hm) & Hok & Hlen).
  auto.
Qed.

Lemma run_state_is_32_bit_witness :
  (forall i v, registers (mach store_load_after_one_cycle) !! i = Some v -> 0 <= v < 2 ^ 32)
  /\ Forall (fun w => 0 <= w < 2 ^ 32) (memory (mach store_load_after_one_cycle))
  /\ regs_ok (registers (mach store_load_after_one_cycle))
  /\ length (memory (mach store_load_after_one_cycle)) = 32%nat.
Proof.
  apply (run_state_is_32_bit store_load_program (loaded store_load_program)).
  - vm_compute. reflexivity.
  - apply (reaches_cycle _ (initial_sim (loaded store_load_program))).
    + apply reaches_start.
    + vm_compute. reflexivity.
    + vm_compute. reflexivity.
Defined.

(** ** X6: what a run can fault on *)

(** X6.  In the run of any program that loads, the string handed to
    [execute_instruction] in a cycle is always 32 binary digits, and if
    its execution raises an exception it is one the executors raise on
    purpose (unknown opcode, unknown funct3 or funct7, invalid memory
    address), with registers and memory left as they were. *)
Theorem run_faults_are_documented
    (file : list str) (mem : list Z) (s : sim) (instr_bin : str) :
  load_program (Some file) (initialize_memory 32) = (true, mem) ->
  reaches (initial_sim mem) s ->
  executes s ->
  fetched s instr_bin ->
  word32 instr_bin
  /\ forall e m', execute_instruction_body instr_bin (pc s) (entry_machine s) = (Raise e, m') ->
                  documented_fault e /\ m' = entry_machine s.
Proof.
  intros Hload Hreach He Hf.
  destruct (machine_inv_entry s (machine_inv_reaches file mem s Hload Hreach))
    as (Hw & Hok & _).
  assert (Hword : word32 instr_bin).
  { eapply fetched_word32; [|exact Hf].
    apply (machine_inv_reaches file mem s Hload Hreach). }
  split; [exact Hword|]. intros e m' Hraise. split.
  - eapply word32_faults; [exact Hword | exact Hok | exact Hraise].
  - pose proof (atomic_execute_instruction_body instr_bin (pc s) (entry_machine s) e) as Ha.
    rewrite Hraise in Ha. apply Ha. reflexivity.
Qed.

Lemma run_faults_are_documented_witness :
  word32 (lit "00001000000000000010010100000011")
  /\ forall e m',
       execute_instruction_body (lit "00001000000000000010010100000011")
         (pc (initial_sim (loaded lw_oob_program)))
         (entry_machine (initial_sim (loaded lw_oob_program))) = (Raise e, m') ->
       documented_fault e /\ m' = entry_machine (initial_sim (loaded lw_oob_program)).
Proof.
  apply (run_faults_are_documented lw_oob_program (loaded lw_oob_program)).
  - vm_compute. reflexivity.
  - apply reaches_start.
  - repeat split; vm_compute; congruence.
  - exists 134227203. split; vm_compute; reflexivity.
Defined.

(** ** The assembler writes 32 binary digits *)

Ltac bits_lit :=
  repeat (constructor; [first [left; reflexivity | right; reflexivity]|]); constructor.

Lemma reg_get_word (name b : str) :
  reg_get name = Some b -> length b = 5%nat /\ bitstring b.
Proof.
  intros H. destruct (reg_get_bits _ _ H) as (n & _ & -> & _).
  split; [apply length_bits_of | apply bitstring_bits_of].
Qed.

Lemma parse_immediate_done (imm_str : str) (labels : gmap str Z) (pc0 : Z)
    (inst : str) (num size : nat) (s : str) :
  (1 <= size)%nat ->
  parse_immediate imm_str labels pc0 inst num size = Done s ->
  exists v,
    resolve_immediate imm_str labels pc0 inst = Done v
    /\ - 2 ^ (Z.of_nat size - 1) <= v <= 2 ^ (Z.of_nat size - 1) - 1
    /\ s = bits_of size v.
Proof.
  intros Hs. unfold parse_immediate.
  destruct (resolve_immediate imm_str labels pc0 inst) as [v|e]; [|discriminate].
  cbn [asm_bind].
  destruct (Z.leb_spec (- 2 ^ (Z.of_nat size - 1)) v) as [Hlo|]; [|discriminate].
  destruct (Z.leb_spec v (2 ^ (Z.of_nat size - 1) - 1)) as [Hhi|]; [|discriminate].
  cbn [andb negb]. intros [= <-]. exists v. repeat split; try assumption.
  assert (Hp : 0 < 2 ^ (Z.of_nat size - 1)) by (apply Z.pow_pos_nonneg; lia).
  assert (H2 : 2 ^ Z.of_nat size = 2 * 2 ^ (Z.of_nat size - 1)).
  { rewrite <- Z.pow_succ_r by lia. f_equal; lia. }
  apply make_binary_bits_of; lia.
Qed.

Lemma parse_immediate_word (imm_str : str) (labels : gmap str Z) (pc0 : Z)
    (inst : str) (num size : nat) (s : str) :
  (1 <= size)%nat ->
  parse_immediate imm_str labels pc0 inst num size = Done s ->
  length s = size /\ bitstring s.
Proof.
  intros Hs H. destruct (parse_immediate_done _ _ _ _ _ _ _ Hs H) as (v & _ & _ & ->).
  split; [apply length_bits_of | apply bitstring_bits_of].
Qed.

Lemma asm_char_at_word (s b : str) (i : nat) :
  bitstring s -> asm_char_at s i = Done b -> length b = 1%nat /\ bitstring b.
Proof.
  intros Hs. unfold asm_char_at. destruct (s !! i) as [c|] eqn:Hc; [|discriminate].
  intros [= <-]. split; [reflexivity|].
  unfold bitstring in *. rewrite Forall_lookup in Hs.
  apply Forall_singleton. eapply Hs, Hc.
Qed.

Lemma length_slice_from (i : nat) (s : str) :
  length (slice_from (Z.of_nat i) s) = (length s - i)%nat.
Proof.
  unfold slice_from. destruct (Z.ltb_spec (Z.of_nat i) 0); [lia|].
  rewrite Nat2Z.id. apply length_drop.
Qed.

Ltac word_facts :=
  repeat match goal with
    | H : reg_get _ = Some _ |- _ => apply reg_get_word in H; destruct H as [? ?]
    | H : parse_immediate _ _ _ _ _ _ = Done _ |- _ =>
        apply parse_immediate_word in H; [destruct H as [? ?] | lia]
    end.

Ltac word32_tac :=
  split;
  [ repeat first
      [ progress cbn [length]
      | rewrite length_app
      | rewrite (length_slice_from 7)
      | rewrite length_slice by lia
      | match goal with
        | H : length ?x = _ |- context [length ?x] => rewrite H
        end ];
    reflexivity
  | unfold bitstring in *;
    repeat first
      [ assumption
      | apply Forall_nil_2
      | apply Forall_cons_2; [first [left; reflexivity | right; reflexivity]|]
      | apply Forall_app_2
      | apply bitstring_slice; assumption
      | apply (bitstring_slice_from 7); assumption ] ].

(** Whatever [do_instruction] emits is a word of 32 binary digits. *)
Lemma do_instruction_word32 (line : str) (num : nat) (labels : gmap str Z) (pc0 : Z)
    (word : str) :
  do_instruction line num labels pc0 = Done (Some word) -> word32 word.
Proof.
  unfold do_instruction.
  destruct (split (replace_punctuation line)) as [|inst operands]; [discriminate|].
  destruct (endswith_colon inst); [discriminate|].
  destruct (dict_get insts inst) as [entry|] eqn:He; [|discriminate].
  apply dict_get_In in He. unfold insts in He.
  repeat (destruct He as [He|He]; [injection He as <- <-|]); [..|destruct He];
    cbn -[reg_get parse_immediate slice slice_from asm_char_at];
    destruct operands as [|p1 [|p2 [|p3 [|p4 rest]]]]; try discriminate;
    repeat match goal with
      | |- context [match reg_get ?p with _ => _ end] =>
          let E := fresh "Hreg" in destruct (reg_get p) eqn:E; try discriminate
      end;
    repeat match goal with
      | |- context [asm_bind (parse_immediate ?a ?b ?c ?d ?e ?f) _] =>
          let E := fresh "Himm" in
          destruct (parse_immediate a b c d e f) eqn:E; cbn [asm_bind]; try discriminate
      end;
    word_facts;
    repeat match goal with
      | |- context [asm_bind (asm_char_at ?s ?i) _] =>
          let E := fresh "Hch" in
          destruct (asm_char_at s i) eqn:E; cbn [asm_bind]; try discriminate;
          apply asm_char_at_word in E; [destruct E as [? ?] | assumption]
      end;
    cbn [asm_bind key]; intros [= <-]; word32_tac.
Qed.

Lemma generate_word32 (lines : list str) (i : nat) (labels : gmap str Z) (pc0 : Z)
    (binary : list str) :
  generate lines i labels pc0 = Done binary -> Forall word32 binary.
Proof.
  revert i pc0 binary; induction lines as [|line lines IH]; intros i pc0 binary; cbn.
  - intros [= <-]. constructor.
  - destruct (endswith_colon line); [apply IH|].
    destruct (do_instruction line i labels pc0) as [result|e] eqn:Hd; [|discriminate].
    cbn [asm_bind].
    destruct (generate lines (S i) labels (pc0 + 4)) as [rest|e] eqn:Hg; [|discriminate].
    cbn [asm_bind]. specialize (IH _ _ _ Hg).
    destruct result as [[|c word]|]; intros [= <-]; try exact IH.
    constructor; [|exact IH]. eapply do_instruction_word32, Hd.
Qed.

Lemma is_bit_not_space (c : ascii) : is_bit c -> is_space c = false.
Proof. intros [-> | ->]; reflexivity. Qed.

Lemma lstrip_bitstring (s : str) : bitstring s -> lstrip s = s.
Proof.
  intros H. destruct H as [|c s Hc _]; [reflexivity|].
  cbn. rewrite (is_bit_not_space c Hc). reflexivity.
Qed.

Lemma strip_bitstring (s : str) : bitstring s -> strip s = s.
Proof.
  intros H. unfold strip. rewrite (lstrip_bitstring s H), lstrip_bitstring.
  - apply rev_involutive.
  - apply Forall_rev, H.
Qed.

Lemma read_instructions_words (binary : list str) :
  Forall word32 binary -> read_instructions binary = Some binary.
Proof.
  induction 1 as [|w binary Hw _ IH]; [reflexivity|].
  cbn [read_instructions]. rewrite (strip_bitstring w (proj2 Hw)).
  rewrite (proj2 (validate_instruction_word32 w) Hw), IH.
  destruct w; [destruct Hw as [Hl _]; discriminate Hl | reflexivity].
Qed.

(** ** X7: what the assembler writes, the simulator loads *)

(** X7.  Every line the assembler writes is a word of exactly 32 binary
    digits, and a program of at most 32 instructions written by the
    assembler is accepted by [load_program]: memory word [i] is the value
    of line [i] and the remaining words stay 0. *)
Theorem assembled_program_loads (file binary : list str) :
  assemble (Some file) = Done binary ->
  (length binary <= 32)%nat ->
  Forall word32 binary
  /\ load_program (Some binary) (initialize_memory 32)
     = (true, map word_value binary ++ replicate (32 - length binary) 0).
Proof.
  unfold assemble. intros Ha Hlen.
  destruct (collect_labels _ ∅ 0) as [labels|e]; [|discriminate].
  cbn [asm_bind] in Ha. apply generate_word32 in Ha.
  split; [exact Ha|].
  unfold load_program. rewrite (read_instructions_words binary Ha).
  unfold initialize_memory. rewrite length_replicate.
  destruct (Nat.ltb_spec 32 (length binary)); [lia|].
  pose proof (store_instructions_spec binary 0 (replicate 32 0) Ha) as Hs.
  rewrite length_replicate in Hs. specialize (Hs ltac:(lia)).
  change (Z.of_nat 0) with 0 in Hs. cbn [take app Nat.add] in Hs.
  rewrite Hs, drop_replicate. reflexivity.
Qed.

Lemma assembled_program_loads_witness :
  Forall word32 store_load_program
  /\ load_program (Some store_load_program) (initialize_memory 32)
     = (true, map word_value store_load_program
              ++ replicate (32 - length store_load_program) 0).
Proof.
  apply (assembled_program_loads
           (map lit ["addi a0, zero, 42"; "sw a0, 0(sp)"; "lw a1, 0(sp)";
                     "beq zero, zero, 0"]%string)).
  - vm_compute. reflexivity.
  - vm_compute. lia.
Defined.

(** ** Assembling and executing an arithmetic instruction *)



Lemma reg_number_get (name : str) (n : Z) :
  reg_number name = Some n ->
  exists b, reg_get name = Some b /\ 0 <= n < 32 /\ b = bits_of 5 n.
Proof.
  intros H. unfold reg_number in H.
  destruct (reg_get name) as [b|] eqn:Hb; [|discriminate].
  destruct (reg_number_bits _ _ Hb) as (n' & Hn & Hbits & _ & Hnum).
  unfold reg_number in Hnum. rewrite Hb in Hnum.
  exists b. split; [reflexivity|]. assert (n' = n) by congruence. subst n'. auto.
Qed.

Lemma int2_reg_bits (n : Z) : 0 <= n < 32 -> int2 (bits_of 5 n) = Ok n.
Proof.
  intros H. rewrite int2_bits_of by lia. change (2 ^ Z.of_nat 5) with 32.
  rewrite Z.mod_small by lia. reflexivity.
Qed.

(** ** X8: arithmetic instructions *)



(** ** Assembling an instruction with a 12-bit immediate *)


Lemma s_fields_layout (i0 i1 i2 i3 i4 i5 i6 i7 i8 i9 i10 i11 : ascii)
    (a0 a1 a2 a3 a4 b0 b1 b2 b3 b4 g0 g1 g2 : ascii) (op : str) :
  s_fields (i0 :: i1 :: i2 :: i3 :: i4 :: i5 :: i6 :: a0 :: a1 :: a2 :: a3 :: a4
            :: b0 :: b1 :: b2 :: b3 :: b4 :: g0 :: g1 :: g2
            :: i7 :: i8 :: i9 :: i10 :: i11 :: op)
  = try! rs2 := int2 [a0; a1; a2; a3; a4] in
    try! rs1 := int2 [b0; b1; b2; b3; b4] in
    try! imm := binary_to_decimal
                  ([i0; i1; i2; i3; i4; i5; i6] ++ [i7; i8; i9; i10; i11]) 12 in
    Ok (rs1, rs2, imm).
Proof. reflexivity. Qed.

Lemma decode_imm12 (v : Z) :
  - 2048 <= v <= 2047 -> binary_to_decimal (bits_of 12 v) 12 = Ok v.
Proof.
  intros H. rewrite binary_to_decimal_bits_of by lia.
  rewrite signed_in_range; [reflexivity | lia |].
  change (2 ^ (Z.of_nat 12 - 1)) with 2048. lia.
Qed.


Lemma body_jalr (instr : str) (pc0 : Z) :
  slice_from 25 instr = I_TYPE.opcode I_TYPE.jalr ->
  execute_instruction_body instr pc0 = execute_i_type instr pc0.
Proof. intros H. unfold execute_instruction_body. rewrite H. reflexivity. Qed.


(** ** X9: [addi] *)



(** ** X10: [jalr] *)



(** ** Assembling and executing loads and stores *)

Lemma s_assembled (line : str) (num : nat) (labels : gmap str Z) (pc0 : Z)
    (p_rs2 p_imm p_rs1 : str) (n1 n2 v : Z) :
  split (replace_punctuation line) = [lit "sw"; p_rs2; p_imm; p_rs1] ->
  reg_number p_rs1 = Some n1 ->
  reg_number p_rs2 = Some n2 ->
  resolve_immediate p_imm labels pc0 (lit "sw") = Done v ->
  - 2048 <= v <= 2047 ->
  exists word,
    do_instruction line num labels pc0 = Done (Some word)
    /\ slice_from 25 word = S_TYPE.opcode S_TYPE.sw
    /\ slice 17 20 word = S_TYPE.funct3 S_TYPE.sw
    /\ s_fields word = Ok (n1, n2, v).
Proof.
  intros Hsplit H1 H2 Hv Hrange.
  destruct (reg_number_get _ _ H1) as (rs1 & Hrs1 & Hn1 & Hb1).
  destruct (reg_number_get _ _ H2) as (rs2 & Hrs2 & Hn2 & Hb2).
  pose proof (length_bits_of 5 n1) as Hl1. rewrite <- Hb1 in Hl1.
  pose proof (length_bits_of 5 n2) as Hl2. rewrite <- Hb2 in Hl2.
  pose proof (parse_immediate_bits p_imm labels pc0 (lit "sw") num 12 v ltac:(lia) Hv
                ltac:(change (2 ^ (Z.of_nat 12 - 1)) with 2048; lia)) as Hp.
  pose proof (length_bits_of 12 v) as Hl.
  destruct (bits_of 12 v) as [|i0 imm] eqn:Himm; [discriminate Hl|].
  unfold do_instruction. rewrite Hsplit.
  cbn [lit list_ascii_of_string] in Hp.
  cbn -[reg_get parse_immediate]. rewrite Hrs2, Hrs1, Hp.
  explode imm Hl. explode rs1 Hl1. explode rs2 Hl2.
  cbn -[s_fields]. change (Z.to_nat 7) with 7%nat. cbn [drop app].
  eexists. split; [reflexivity|].
  split; [reflexivity|]. split; [reflexivity|].
  rewrite s_fields_layout. cbn [app]. rewrite <- Himm, decode_imm12 by lia.
  rewrite Hb1, Hb2, !int2_reg_bits by lia. reflexivity.
Qed.

Lemma sw_assembled_executes
    (line : str) (num : nat) (labels : gmap str Z) (pc0 : Z)
    (p_rs2 p_imm p_rs1 : str) (n1 n2 v a b : Z) (epc : Z) (m : machine) :
  split (replace_punctuation line) = [lit "sw"; p_rs2; p_imm; p_rs1] ->
  reg_number p_rs1 = Some n1 ->
  reg_number p_rs2 = Some n2 ->
  resolve_immediate p_imm labels pc0 (lit "sw") = Done v ->
  - 2048 <= v <= 2047 ->
  registers m !! n1 = Some a ->
  registers m !! n2 = Some b ->
  0 <= a + v < Z.of_nat (length (memory m)) * 4 ->
  exists word,
    do_instruction line num labels pc0 = Done (Some word)
    /\ execute_instruction word epc m
       = (epc + 4, Machine (registers m) (<[Z.to_nat ((a + v) / 4) := b]> (memory m))).
Proof.
  intros Hsplit H1 H2 Hv Hrange Ha Hb Hin.
  destruct (s_assembled line num labels pc0 p_rs2 p_imm p_rs1 n1 n2 v
              Hsplit H1 H2 Hv Hrange) as (word & Hword & Hop & Hf3 & Hf).
  exists word. split; [exact Hword|].
  apply execute_instruction_ok. rewrite body_sw by exact Hop.
  rewrite (execute_s_type_fields _ _ _ _ _ _ _ _ Hf Ha Hb), Hop, Hf3.
  rewrite !str_eqb_refl. cbn [andb].
  rewrite (proj2 (Z.leb_le _ _) (proj1 Hin)), (proj2 (Z.ltb_lt _ _) (proj2 Hin)).
  cbn [andb]. rewrite list_set_in_bounds by exact Hin. reflexivity.
Qed.


(** ** X11: [sw] *)

(** X11.  A [sw rs2, imm(rs1)] line with valid registers and an immediate
    in [-2048, 2047] is assembled into a word which, executed with
    [rs1 + imm] inside the memory, stores the whole value of [rs2] in
    memory word [(rs1 + imm) // 4] (the two low address bits are dropped:
    there is no alignment check), changes no register and continues at
    PC + 4. *)
Theorem sw_round_trip
    (line : str) (num : nat) (labels : gmap str Z) (pc0 : Z)
    (p_rs2 p_imm p_rs1 : str) (n1 n2 v a b : Z) (epc : Z) (m : machine) :
  split (replace_punctuation line) = [lit "sw"; p_rs2; p_imm; p_rs1] ->
  reg_number p_rs1 = Some n1 ->
  reg_number p_rs2 = Some n2 ->
  resolve_immediate p_imm labels pc0 (lit "sw") = Done v ->
  - 2048 <= v <= 2047 ->
  registers m !! n1 = Some a ->
  registers m !! n2 = Some b ->
  0 <= a + v < Z.of_nat (length (memory m)) * 4 ->
  exists word,
    do_instruction line num labels pc0 = Done (Some word)
    /\ execute_instruction word epc m
       = (epc + 4, Machine (registers m) (<[Z.to_nat ((a + v) / 4) := b]> (memory m))).
Proof. apply sw_assembled_executes. Qed.

Lemma sw_round_trip_witness :
  exists word,
    do_instruction (lit "sw a0, 6(sp)") 1 ∅ 0 = Done (Some word)
    /\ execute_instruction word 0
         (Machine (<[10 := 42]> initialize_registers) (initialize_memory 32))
       = (0 + 4,
          Machine (registers (Machine (<[10 := 42]> initialize_registers)
                                (initialize_memory 32)))
            (<[Z.to_nat ((0 + 6) / 4) := 42]>
               (memory (Machine (<[10 := 42]> initialize_registers)
                          (initialize_memory 32))))).
Proof.
  apply (sw_round_trip (lit "sw a0, 6(sp)") 1 ∅ 0 (lit "a0") (lit "6") (lit "sp") 2 10 6 0 42).
  - reflexivity.
  - reflexivity.
  - reflexivity.
  - reflexivity.
  - lia.
  - vm_compute. reflexivity.
  - vm_compute. reflexivity.
  - cbn. lia.
Defined.

(** ** X12: [lw] *)



(** ** X13: a stored word is loaded back *)



(** ** X14: [beq] and [bne] *)

(** X14.  A [beq] or [bne] line with valid registers and an immediate [v]
    in [-4096, 4095], other than the halt form (both registers [zero] and
    [v] 0 or 1), is assembled into a word which, executed, changes nothing
    and continues at PC + [v] with bit 0 of [v] cleared when the branch is
    taken ([rs1 = rs2] for [beq], [rs1 <> rs2] for [bne]), at PC + 4
    otherwise: an even byte offset is taken exactly, an odd one is rounded
    down. *)
Theorem branch_round_trip
    (line : str) (num : nat) (labels : gmap str Z) (pc0 : Z)
    (inst p1 p2 p3 : str) (n1 n2 v a b : Z) (taken : bool) (epc : Z) (m : machine) :
  split (replace_punctuation line) = [inst; p1; p2; p3] ->
  (inst = lit "beq" /\ taken = (a =? b)) \/ (inst = lit "bne" /\ taken = negb (a =? b)) ->
  reg_number p1 = Some n1 ->
  reg_number p2 = Some n2 ->
  resolve_immediate p3 labels pc0 inst = Done v ->
  - 4096 <= v <= 4095 ->
  registers m !! n1 = Some a ->
  registers m !! n2 = Some b ->
  ~ (n1 = 0 /\ n2 = 0 /\ 0 <= v <= 1) ->
  exists word,
    do_instruction line num labels pc0 = Done (Some word)
    /\ execute_instruction word epc m = (epc + (if taken then 2 * (v / 2) else 4), m).
Proof.
  intros Hsplit Hinst Hnum1 Hnum2 Hv Hrange Ha Hb Hnothalt.
  destruct (reg_number_get _ _ Hnum1) as (rs1 & Hr1 & _).
  destruct (reg_number_get _ _ Hnum2) as (rs2 & Hr2 & _).
  assert (He : exists f3, branch_entry inst f3
                          /\ ((f3 = lit "000" /\ taken = (a =? b))
                              \/ (f3 = lit "001" /\ taken = negb (a =? b)))).
  { destruct Hinst as [[-> Ht] | [-> Ht]].
    - exists (lit "000"). split; [reflexivity | auto].
    - exists (lit "001"). split; [reflexivity | auto]. }
  destruct He as (f3 & He & Hf3c).
  destruct (branch_assembled line num labels pc0 inst f3 p1 p2 p3 rs1 rs2 v
              He Hsplit Hr1 Hr2 Hv Hrange)
    as (word & n1' & n2' & Hword & _ & Hop & Hf3 & (_ & _ & Hn1') & (_ & _ & Hn2') & Hf).
  assert (n1' = n1) by congruence. assert (n2' = n2) by congruence. subst n1' n2'.
  exists word. split; [assumption|].
  apply execute_instruction_ok. rewrite body_b_type by assumption.
  rewrite (execute_b_type_fields _ _ _ _ _ _ _ _ Hf Ha Hb), Hop, Hf3.
  assert (Hh : (n1 =? 0) && (n2 =? 0) && (2 * (v / 2) =? 0) = false).
  { rewrite even_part_zero.
    destruct (Z.eqb_spec n1 0), (Z.eqb_spec n2 0), (Z.eqb_spec v 0), (Z.eqb_spec v 1);
      try reflexivity; exfalso; apply Hnothalt; lia. }
  rewrite Hh. cbn [andb].
  destruct Hf3c as [[-> ->] | [-> ->]]; reflexivity.
Qed.

Lemma branch_round_trip_witness :
  exists word,
    do_instruction (lit "bne a0, a1, -7") 1 ∅ 0 = Done (Some word)
    /\ execute_instruction word 16
         (Machine (<[10 := 3]> initialize_registers) (initialize_memory 32))
       = (16 + (if negb (3 =? 0) then 2 * (-7 / 2) else 4),
          Machine (<[10 := 3]> initialize_registers) (initialize_memory 32)).
Proof.
  apply (branch_round_trip (lit "bne a0, a1, -7") 1 ∅ 0
           (lit "bne") (lit "a0") (lit "a1") (lit "-7") 10 11 (-7) 3 0).
  - reflexivity.
  - right. split; reflexivity.
  - reflexivity.
  - reflexivity.
  - reflexivity.
  - lia.
  - vm_compute. reflexivity.
  - vm_compute. reflexivity.
  - lia.
Defined.

(** ** X15: [jal] *)



(** ** X16: a jump target equal to the halt sentinel *)

(** X16.  The driver tells a halt from a next PC only by the value -1: when
    the cycle at hand executes a [jalr] whose target [rs1 + imm] is -1, the
    link is written, the cycle is traced, the loop ends with the halted
    flag set and [run_simulation] returns [True], although no halt
    instruction was executed. *)
Theorem jalr_to_minus_one_halts
    (file : list str) (mem : list Z) (s : sim) (instr_bin : str)
    (rd rs1 imm a : Z) (fuel : nat) :
  load_program (Some file) (initialize_memory 32) = (true, mem) ->
  reaches (initial_sim mem) s ->
  executes s ->
  fetched s instr_bin ->
  slice_from 25 instr_bin = I_TYPE.opcode I_TYPE.jalr ->
  slice 17 20 instr_bin = I_TYPE.funct3 I_TYPE.jalr ->
  i_fields instr_bin = Ok (rd, rs1, imm) ->
  registers (entry_machine s) !! rs1 = Some a ->
  a + imm = -1 ->
  exists line,
    format_registers (pc s)
      (registers (set_register rd (pc s + 4) (entry_machine s))) = Ok line
    /\ while_loop (S fuel) s
       = Some (Sim (pc s) true (pc s) (step_count s + 1)
                 (set_register rd (pc s + 4) (entry_machine s)) (written s ++ [line]))
    /\ run_simulation (Some file)
       = Some (true, Some (Output (written s ++ [line])
                             (format_memory (memory (entry_machine s))))).
Proof.
  intros Hload Hreach He Hf Hop Hf3 Hfields Ha Htarget.
  assert (Hok : regs_ok (registers (mach s))).
  { apply (reaches_inv _ _ (sim_inv_initial mem) Hreach). }
  assert (Hexec : execute_instruction instr_bin (pc s) (entry_machine s)
                  = (-1, set_register rd (pc s + 4) (entry_machine s))).
  { apply execute_instruction_ok. rewrite body_jalr by exact Hop.
    rewrite (execute_i_type_fields _ _ _ _ _ _ _ Hfields Ha). cbn zeta.
    rewrite Hop, Hf3, Htarget. reflexivity. }
  destruct (halting_cycle s instr_bin _ fuel He Hok Hf Hexec) as (line & Hline & Hloop).
  exists line. split; [exact Hline|]. split; [exact Hloop|].
  rewrite (run_simulation_from _ _ _ _ _ Hload Hreach Hloop). cbn [halted written mach].
  do 4 f_equal. unfold set_register, write_register.
  destruct (negb (rd =? 0)); reflexivity.
Qed.

Lemma jalr_to_minus_one_halts_witness :
  exists line,
    format_registers (pc (initial_sim (loaded jalr_minus_one_program)))
      (registers (set_register 1 (pc (initial_sim (loaded jalr_minus_one_program)) + 4)
                    (entry_machine (initial_sim (loaded jalr_minus_one_program))))) = Ok line
    /\ while_loop 1 (initial_sim (loaded jalr_minus_one_program))
       = Some (Sim (pc (initial_sim (loaded jalr_minus_one_program))) true
                 (pc (initial_sim (loaded jalr_minus_one_program)))
                 (step_count (initial_sim (loaded jalr_minus_one_program)) + 1)
                 (set_register 1 (pc (initial_sim (loaded jalr_minus_one_program)) + 4)
                    (entry_machine (initial_sim (loaded jalr_minus_one_program))))
                 (written (initial_sim (loaded jalr_minus_one_program)) ++ [line]))
    /\ run_simulation (Some jalr_minus_one_program)
       = Some (true,
               Some (Output (written (initial_sim (loaded jalr_minus_one_program)) ++ [line])
                       (format_memory
                          (memory (entry_machine
                                     (initial_sim (loaded jalr_minus_one_program))))))).
Proof.
  apply (jalr_to_minus_one_halts jalr_minus_one_program (loaded jalr_minus_one_program)
           (initial_sim (loaded jalr_minus_one_program))
           (lit "11111111111100000000000011100111") 1 0 (-1) 0 0).
  - vm_compute. reflexivity.
  - apply reaches_start.
  - repeat split; vm_compute; congruence.
  - exists 4293918951. split; vm_compute; reflexivity.
  - reflexivity.
  - reflexivity.
  - reflexivity.
  - vm_compute. reflexivity.
  - reflexivity.
Defined.

(** ** X17: the self-loop guard *)

(** X17.  When the instruction executed in a cycle yields its own address
    as the next PC, the loop comes back to its head once more and breaks
    there on [pc == last_pc] without executing anything: the trace has one
    line for that instruction, and [run_simulation] returns [False]. *)
Theorem self_loop_stops_run
    (file : list str) (mem : list Z) (s : sim) (instr_bin : str)
    (m' : machine) (fuel : nat) :
  load_program (Some file) (initialize_memory 32) = (true, mem) ->
  reaches (initial_sim mem) s ->
  executes s ->
  fetched s instr_bin ->
  execute_instruction instr_bin (pc s) (entry_machine s) = (pc s, m') ->
  exists line,
    format_registers (pc s) (registers m') = Ok line
    /\ while_loop (S (S fuel)) s
       = Some (Sim (pc s) false (pc s) (step_count s + 1) m' (written s ++ [line]))
    /\ run_simulation (Some file)
       = Some (false, Some (Output (written s ++ [line]) (format_memory (memory m')))).
Proof.
  intros Hload Hreach He Hf Hexec.
  assert (Hok : regs_ok (registers (mach s))).
  { apply (reaches_inv _ _ (sim_inv_initial mem) Hreach). }
  destruct (loop_body_fetched s instr_bin (pc s) m' He Hok Hf Hexec) as (line & Hline & Hb).
  destruct (executes_in_memory s He) as (Hh & _).
  pose proof He as (Hc & _ & _).
  assert (Hpc : 0 <= pc s < Z.of_nat (length (memory (mach s))) * 4).
  { unfold loop_cond in Hc. apply andb_prop in Hc as [Hc Hhi].
    apply andb_prop in Hc as [_ Hlo]. apply Z.leb_le in Hlo. apply Z.ltb_lt in Hhi. lia. }
  rewrite (proj2 (Z.eqb_neq (pc s) (-1))), (proj2 (Z.eqb_neq (pc s) (-2))), Hh in Hb by lia.
  assert (Hlen : length (memory m') = length (memory (mach s))).
  { pose proof (extends_execute_instruction instr_bin (pc s) (entry_machine s)) as Hext.
    rewrite Hexec in Hext. cbn [snd] in Hext. destruct Hext as (_ & _ & ->).
    reflexivity. }
  assert (Hloop : while_loop (S (S fuel)) s
                  = Some (Sim (pc s) false (pc s) (step_count s + 1) m'
                            (written s ++ [line]))).
  { cbn [while_loop]. rewrite Hc, Hb.
    assert (Hc' : loop_cond (Sim (pc s) false (pc s) (step_count s + 1) m'
                               (written s ++ [line])) = true).
    { unfold loop_cond. cbn [halted pc mach negb andb]. rewrite Hlen.
      rewrite (proj2 (Z.leb_le _ _) (proj1 Hpc)), (proj2 (Z.ltb_lt _ _) (proj2 Hpc)).
      reflexivity. }
    rewrite Hc'. unfold loop_body. cbn [pc last_pc]. rewrite Z.eqb_refl. reflexivity. }
  exists line. split; [exact Hline|]. split; [exact Hloop|].
  apply (run_simulation_from _ _ _ _ _ Hload Hreach Hloop).
Qed.

Lemma self_loop_stops_run_witness :
  exists line,
    format_registers (pc (initial_sim (loaded self_loop_program)))
      (registers (entry_machine (initial_sim (loaded self_loop_program)))) = Ok line
    /\ while_loop 2 (initial_sim (loaded self_loop_program))
       = Some (Sim (pc (initial_sim (loaded self_loop_program))) false
                 (pc (initial_sim (loaded self_loop_program)))
                 (step_count (initial_sim (loaded self_loop_program)) + 1)
                 (entry_machine (initial_sim (loaded self_loop_program)))
                 (written (initial_sim (loaded self_loop_program)) ++ [line]))
    /\ run_simulation (Some self_loop_program)
       = Some (false,
               Some (Output (written (initial_sim (loaded self_loop_program)) ++ [line])
                       (format_memory
                          (memory (entry_machine (initial_sim (loaded self_loop_program))))))).
Proof.
  apply (self_loop_stops_run self_loop_program (loaded self_loop_program)
           (initial_sim (loaded self_loop_program))
           (lit "00000000000000000000000001101111")
           (entry_machine (initial_sim (loaded self_loop_program))) 0).
  - vm_compute. reflexivity.
  - apply reaches_start.
  - repeat split; vm_compute; congruence.
  - exists 111. split; vm_compute; reflexivity.
  - vm_compute. reflexivity.
Defined.

(** ** The label table *)

Lemma collect_labels_keeps (lines : list str) (labels0 labels : gmap str Z) (pc0 : Z)
    (name : str) (target : Z) :
  collect_labels lines labels0 pc0 = Done labels ->
  labels0 !! name = Some target ->
  labels !! name = Some target.
Proof.
  revert labels0 pc0; induction lines as [|l lines IH]; intros labels0 pc0; cbn.
  - intros [= <-]. auto.
  - destruct (endswith_colon l); [|apply IH].
    destruct (labels0 !! removelast l) eqn:Hl; [discriminate|].
    intros Hc Hn. apply (IH _ _ Hc).
    rewrite lookup_insert_ne; [exact Hn|]. intros <-. congruence.
Qed.

Lemma collect_labels_address (pre post : list str) (l : str)
    (labels0 labels : gmap str Z) (pc0 : Z) :
  collect_labels (pre ++ l :: post) labels0 pc0 = Done labels ->
  endswith_colon l = true ->
  labels !! removelast l = Some (pc0 + 4 * instruction_lines pre).
Proof.
  revert labels0 pc0; induction pre as [|p pre IH]; intros labels0 pc0 Hc Hl.
  - cbn in *. rewrite Hl in Hc.
    destruct (labels0 !! removelast l); [discriminate|].
    rewrite Z.add_0_r. apply (collect_labels_keeps _ _ _ _ _ _ Hc), lookup_insert_eq.
  - cbn [app collect_labels instruction_lines] in *.
    destruct (endswith_colon p).
    + destruct (labels0 !! removelast p); [discriminate|].
      rewrite (IH _ _ Hc Hl). f_equal; lia.
    + rewrite (IH _ _ Hc Hl). f_equal; lia.
Qed.

(** ** X18: where a label points *)

(** X18.  When the first pass of the assembler succeeds, each label is
    bound to four times the number of instruction lines that precede its
    label line: label lines take no address, every other line takes four
    bytes, and later lines never rebind a label. *)
Theorem label_address (pre post : list str) (l : str) (labels : gmap str Z) :
  collect_labels (pre ++ l :: post) ∅ 0 = Done labels ->
  endswith_colon l = true ->
  labels !! removelast l = Some (4 * instruction_lines pre).
Proof. intros Hc Hl. apply (collect_labels_address pre post l ∅ labels 0 Hc Hl). Qed.

Lemma label_address_witness :
  ({[ lit "loop" := 4; lit "end" := 12 ]} : gmap str Z) !! removelast (lit "end:")
  = Some (4 * instruction_lines
                [lit "addi a0, zero, 1"; lit "loop:"; lit "addi a0, a0, 1";
                 lit "jal zero, loop"]).
Proof.
  apply (label_address _ [lit "beq zero, zero, 0"]).
  - vm_compute. reflexivity.
  - reflexivity.
Defined.

(** ** X19: duplicate labels *)

Lemma collect_labels_outcome (lines : list str) (labels0 : gmap str Z) (pc0 : Z) :
  match collect_labels lines labels0 pc0 with
  | Done labels =>
      NoDup (label_names lines)
      /\ (forall name, name ∈ label_names lines -> labels0 !! name = None)
      /\ (forall name, is_Some (labels !! name)
                       <-> is_Some (labels0 !! name) \/ name ∈ label_names lines)
  | Exit e =>
      (exists label, e = Duplicate_label label /\ label ∈ label_names lines)
      /\ ~ (NoDup (label_names lines)
            /\ forall name, name ∈ label_names lines -> labels0 !! name = None)
  end.
Proof.
  revert labels0 pc0; induction lines as [|l lines IH]; intros labels0 pc0.
  - cbn. split; [constructor|]. split; [intros name H; inversion H|].
    intros name. split; [auto | intros [H|H]; [exact H | inversion H]].
  - cbn [collect_labels]. unfold label_names in *. cbn [filter list_filter].
    destruct (endswith_colon l) eqn:Hl.
    + rewrite decide_True by reflexivity. cbn [map fmap list_fmap].
      destruct (labels0 !! removelast l) eqn:Hlook.
      * split; [exists (removelast l); split; [reflexivity | left]|].
        intros [_ Hfresh]. rewrite (Hfresh (removelast l)) in Hlook by left.
        discriminate.
      * specialize (IH (<[removelast l := pc0]> labels0) pc0).
        destruct (collect_labels lines _ pc0) as [labels|e].
        -- destruct IH as (Hnd & Hfresh & Hdom). split; [|split].
           ++ constructor; [|exact Hnd]. intros Hin.
              specialize (Hfresh _ Hin). rewrite lookup_insert_eq in Hfresh. discriminate.
           ++ intros name Hin. apply elem_of_cons in Hin as [-> | Hin]; [exact Hlook|].
              specialize (Hfresh _ Hin).
              destruct (decide (removelast l = name)) as [<-|Hne].
              ** rewrite lookup_insert_eq in Hfresh. discriminate.
              ** rewrite lookup_insert_ne in Hfresh by exact Hne. exact Hfresh.
           ++ intros name. rewrite Hdom, elem_of_cons.
              destruct (decide (removelast l = name)) as [<-|Hne].
              ** rewrite lookup_insert_eq. split; [auto | eauto].
              ** rewrite lookup_insert_ne by exact Hne.
                 split; [intros [H|H]; auto | intros [H|[H|H]]; auto; congruence].
        -- destruct IH as ((label & -> & Hin) & Hnot). split.
           ++ exists label. split; [reflexivity | right; exact Hin].
           ++ intros [Hnd Hfresh]. apply Hnot. inversion Hnd as [|x xs Hx Hnd']; subst.
              split; [exact Hnd'|]. intros name Hn.
              rewrite lookup_insert_ne; [apply Hfresh; right; exact Hn|].
              intros <-. contradiction.
    + rewrite decide_False by discriminate. apply IH.
Qed.

(** X19.  The first pass of the assembler succeeds exactly when no label
    name is defined twice; the table then binds exactly the defined names,
    and a failure is always the duplicate-label error, for a name the
    program defines. *)
Theorem duplicate_labels_rejected (lines : list str) :
  match collect_labels lines ∅ 0 with
  | Done labels =>
      NoDup (label_names lines)
      /\ forall name, is_Some (labels !! name) <-> name ∈ label_names lines
  | Exit e =>
      ~ NoDup (label_names lines)
      /\ exists label, e = Duplicate_label label /\ label ∈ label_names lines
  end.
Proof.
  pose proof (collect_labels_outcome lines ∅ 0) as H.
  destruct (collect_labels lines ∅ 0) as [labels|e].
  - destruct H as (Hnd & _ & Hdom). split; [exact Hnd|].
    intros name. rewrite Hdom, lookup_empty. split; [intros [[x Hx]|H]; [discriminate|exact H] | auto].
  - destruct H as (Hex & Hnot). split; [|exact Hex].
    intros Hnd. apply Hnot. split; [exact Hnd|]. intros name _. apply lookup_empty.
Qed.

(** ** X20: immediates *)

(** X20.  Whatever string [parse_immediate] returns for a field of [size]
    bits has exactly [size] binary digits, and [binary_to_decimal] reads it
    back as the value the operand resolved to (the label address, the
    label's word offset, or the literal), which is then within the signed
    range of the field. *)
Theorem parse_immediate_decodes
    (imm_str : str) (labels : gmap str Z) (pc0 : Z) (inst : str)
    (num size : nat) (s : str) :
  (1 <= size)%nat ->
  parse_immediate imm_str labels pc0 inst num size = Done s ->
  exists v,
    resolve_immediate imm_str labels pc0 inst = Done v
    /\ - 2 ^ (Z.of_nat size - 1) <= v <= 2 ^ (Z.of_nat size - 1) - 1
    /\ length s = size
    /\ bitstring s
    /\ binary_to_decimal s size = Ok v.
Proof.
  intros Hs H. destruct (parse_immediate_done _ _ _ _ _ _ _ Hs H) as (v & Hv & Hr & ->).
  exists v. split; [exact Hv|]. split; [exact Hr|].
  split; [apply length_bits_of|]. split; [apply bitstring_bits_of|].
  rewrite binary_to_decimal_bits_of by exact Hs. f_equal. apply signed_in_range; assumption.
Qed.

Lemma parse_immediate_decodes_witness :
  exists v,
    resolve_immediate (lit "back") {[ lit "back" := 4 ]} 20 (lit "bne") = Done v
    /\ - 2 ^ (Z.of_nat 13 - 1) <= v <= 2 ^ (Z.of_nat 13 - 1) - 1
    /\ length (lit "1111111111100") = 13%nat
    /\ bitstring (lit "1111111111100")
    /\ binary_to_decimal (lit "1111111111100") 13 = Ok v.
Proof.
  apply (parse_immediate_decodes (lit "back") {[ lit "back" := 4 ]} 20 (lit "bne") 1).
  - lia.
  - vm_compute. reflexivity.
Defined.

(** ** X21: writing a register *)

(** X21.  After [write_register] on a register other than 0, that register
    holds the value reduced modulo 2^32, so a negative value is stored as
    its two's complement; every other register and the memory are as
    before. *)
Theorem write_register_read_back (rd value : Z) (m : machine) :
  rd <> 0 ->
  registers (set_register rd value m) !! rd = Some (value mod 2 ^ 32)
  /\ (forall i, i <> rd -> registers (set_register rd value m) !! i = registers m !! i)
  /\ memory (set_register rd value m) = memory m.
Proof.
  intros Hrd. unfold set_register, write_register.
  rewrite (proj2 (Z.eqb_neq _ _) Hrd). cbn [negb snd registers memory].
  split; [|split].
  - rewrite lookup_insert_eq. change 4294967295 with (Z.ones 32).
    rewrite Z.land_ones by lia. reflexivity.
  - intros i Hi. apply lookup_insert_ne. congruence.
  - reflexivity.
Qed.

Lemma write_register_read_back_witness :
  registers (set_register 5 (-1) (Machine initialize_registers [1; 2])) !! 5
  = Some (-1 mod 2 ^ 32)
  /\ (forall i, i <> 5 ->
        registers (set_register 5 (-1) (Machine initialize_registers [1; 2])) !! i
        = registers (Machine initialize_registers [1; 2]) !! i)
  /\ memory (set_register 5 (-1) (Machine initialize_registers [1; 2]))
     = memory (Machine initialize_registers [1; 2]).
Proof. apply write_register_read_back. lia. Defined.

(** ** X22: the two directions of the bit codec *)

(** X22.  [make_binary] undoes [binary_to_decimal]: every string of [w]
    binary digits ([w >= 1]) is read as a number in the signed range of
    [w] bits, and encoding that number with width [w] gives the string
    back. *)
Theorem codec_decode_then_encode (s : str) (w : nat) :
  bitstring s -> length s = w -> (1 <= w)%nat ->
  exists v,
    binary_to_decimal s w = Ok v
    /\ - 2 ^ (Z.of_nat w - 1) <= v <= 2 ^ (Z.of_nat w - 1) - 1
    /\ make_binary v w = s.
Proof.
  intros Hs Hl Hw. destruct (bitstring_is_bits_of s Hs) as (n & Hn & Hb).
  rewrite Hl in Hn, Hb.
  assert (Hp : 0 < 2 ^ (Z.of_nat w - 1)) by (apply Z.pow_pos_nonneg; lia).
  assert (H2 : 2 ^ Z.of_nat w = 2 * 2 ^ (Z.of_nat w - 1)).
  { rewrite <- Z.pow_succ_r by lia. f_equal; lia. }
  exists (signed w n).
  assert (Hsigned : signed w n = n \/ signed w n = n - 2 ^ Z.of_nat w).
  { unfold signed. rewrite Z.mod_small by lia.
    destruct (2 ^ (Z.of_nat w - 1) <=? n); auto. }
  assert (Hrange : - 2 ^ (Z.of_nat w - 1) <= signed w n <= 2 ^ (Z.of_nat w - 1) - 1).
  { unfold signed. rewrite Z.mod_small by lia.
    destruct (Z.leb_spec (2 ^ (Z.of_nat w - 1)) n); lia. }
  split; [rewrite Hb at 1; apply binary_to_decimal_bits_of, Hw|].
  split; [exact Hrange|].
  rewrite make_binary_bits_of by lia. rewrite Hb.
  destruct Hsigned as [-> | ->]; [reflexivity|].
  rewrite <- (bits_of_add_pow2 w (n - 2 ^ Z.of_nat w)). f_equal. lia.
Qed.

Lemma codec_decode_then_encode_witness :
  exists v,
    binary_to_decimal (lit "100000000101") 12 = Ok v
    /\ - 2 ^ (Z.of_nat 12 - 1) <= v <= 2 ^ (Z.of_nat 12 - 1) - 1
    /\ make_binary v 12 = lit "100000000101".
Proof.
  apply codec_decode_then_encode.
  - bits_lit.
  - reflexivity.
  - lia.
Defined.

(** ** X23: strings longer than the width *)

(** X23.  Given a string longer than [bits], [binary_to_decimal] reads only
    its last [bits] characters: what precedes them, digits or not, does
    not matter. *)
Theorem binary_to_decimal_truncates (prefix s : str) :
  s <> [] ->
  binary_to_decimal (prefix ++ s) (length s) = binary_to_decimal s (length s).
Proof.
  intros Hs. unfold binary_to_decimal.
  rewrite Nat.ltb_irrefl, length_app.
  destruct prefix as [|c prefix]; [cbn [length app Nat.add]; rewrite Nat.ltb_irrefl; reflexivity|].
  destruct (Nat.ltb_spec (length s) (length (c :: prefix) + length s)) as [_|H];
    [|cbn [length] in H; lia].
  unfold slice_from. rewrite length_app.
  assert (Hl : (1 <= length s)%nat) by (destruct s; [contradiction | cbn; lia]).
  destruct (Z.ltb_spec (- Z.of_nat (length s)) 0); [|lia].
  replace (Z.to_nat (Z.max 0 (Z.of_nat (length (c :: prefix) + length s)
                              + - Z.of_nat (length s))))
    with (length (c :: prefix)) by lia.
  rewrite drop_app_length. reflexivity.
Qed.

Lemma binary_to_decimal_truncates_witness :
  binary_to_decimal (lit "x0y1" ++ lit "1110") (length (lit "1110"))
  = binary_to_decimal (lit "1110") (length (lit "1110")).
Proof. apply binary_to_decimal_truncates. discriminate. Defined.

(** ** X24: the output file *)

Lemma read_all_map (registers : gmap Z Z) (keys l : list Z) :
  read_all registers keys = Ok l ->
  l = map (fun i => Z.land (default 0 (registers !! i)) 4294967295) keys.
Proof.
  revert l; induction keys as [|i keys IH]; intros l; cbn [read_all map].
  - intros [= <-]. reflexivity.
  - destruct (registers !! i) as [v|]; [|discriminate].
    destruct (read_all registers keys) as [rest|e]; cbn [res_bind]; [|discriminate].
    intros [= <-]. cbn [default]. f_equal. apply IH. reflexivity.
Qed.

Lemma format_registers_line (pc0 : Z) (registers : gmap Z Z) (line : trace_line) :
  format_registers pc0 registers = Ok line ->
  registers !! 0 = Some 0 -> 0 <= pc0 < 128 ->
  line_ok line.
Proof.
  unfold format_registers. intros H H0 Hpc.
  destruct (read_all registers _) as [l|e] eqn:Hl; cbn [res_bind] in H; [|discriminate].
  injection H as <-. apply read_all_map in Hl. subst l.
  unfold line_ok. cbn [fst snd].
  split; [exact Hpc|]. split; [rewrite length_map, length_map, length_seq; reflexivity|].
  split.
  - cbn [seq map lookup list_lookup]. change (Z.of_nat 0) with 0. rewrite H0. reflexivity.
  - apply Forall_map, Forall_forall. intros i _. cbn beta.
    change 4294967295 with (Z.ones 32). rewrite Z.land_ones by lia.
    apply Z.mod_pos_bound. lia.
Qed.

Lemma loop_body_lines (s : sim) :
  loop_cond s = true -> run_inv s -> Forall line_ok (written (snd (loop_body s))).
Proof.
  intros Hc ((Hw & _ & Hlen) & (Hok & H0 & _) & Hlines).
  destruct (Z.eq_dec (pc s) (last_pc s)) as [Heq|Hne].
  { unfold loop_body. rewrite (proj2 (Z.eqb_eq _ _) Heq). exact Hlines. }
  destruct (Z.lt_ge_cases max_steps (step_count s)) as [Hgt|Hle].
  { unfold loop_body. rewrite (proj2 (Z.eqb_neq _ _) Hne).
    rewrite Z.gtb_ltb, (proj2 (Z.ltb_lt _ _) Hgt). exact Hlines. }
  assert (He : executes s) by (repeat split; assumption).
  destruct (executes_fetched s He) as [instr_bin Hf].
  destruct (execute_instruction instr_bin (pc s) (entry_machine s)) as [new_pc m'] eqn:Hexec.
  destruct (loop_body_fetched s instr_bin new_pc m' He Hok Hf Hexec) as (line & Hline & ->).
  pose proof (extends_execute_instruction instr_bin (pc s) (entry_machine s)) as Hext.
  rewrite Hexec in Hext. cbn [snd] in Hext.
  assert (Hl : Forall line_ok (written s ++ [line])).
  { apply Forall_app_2; [exact Hlines|]. apply Forall_singleton.
    apply (format_registers_line _ _ _ Hline).
    - destruct Hext as (-> & _). apply lookup_insert_eq.
    - unfold loop_cond in Hc. rewrite Hlen in Hc.
      apply andb_prop in Hc as [Hc Hhi]. apply andb_prop in Hc as [_ Hlo].
      apply Z.leb_le in Hlo. apply Z.ltb_lt in Hhi. lia. }
  destruct (new_pc =? -1); [exact Hl|].
  destruct (new_pc =? -2); exact Hl.
Qed.

Lemma loop_body_run_inv (s : sim) :
  loop_cond s = true -> run_inv s -> run_inv (snd (loop_body s)).
Proof.
  intros Hc Hinv. pose proof (loop_body_lines s Hc Hinv) as Hl.
  destruct Hinv as (Hm & Hs & _).
  split; [apply machine_inv_loop_body, Hm|].
  split; [apply loop_body_inv; assumption | exact Hl].
Qed.

Lemma while_loop_run_inv (fuel : nat) (s r : sim) :
  run_inv s -> while_loop fuel s = Some r -> run_inv r.
Proof.
  revert s; induction fuel as [|fuel IH]; intros s Hinv; simpl.
  - destruct (loop_cond s); [discriminate | intros [= <-]; exact Hinv].
  - destruct (loop_cond s) eqn:Hc; [|intros [= <-]; exact Hinv].
    pose proof (loop_body_run_inv s Hc Hinv) as Hinv'.
    destruct (loop_body s) as [[|] s']; [apply IH, Hinv' | intros [= <-]; exact Hinv'].
Qed.

(** X24.  Whenever [run_simulation] writes an output file, the file is
    well formed: every trace line carries a PC inside the 128 bytes of
    memory and 32 register values in [0, 2^32) of which the first, [x0],
    is 0; there are at most 10001 trace lines; and the memory dump has
    exactly 32 entries, the [i]-th at address [0x00010000 + 4*i] with a
    word in [0, 2^32). *)
Theorem output_well_formed (file : option (list str)) (flag : bool) (out : output) :
  run_simulation file = Some (flag, Some out) ->
  Forall line_ok (trace_lines out)
  /\ Z.of_nat (length (trace_lines out)) <= 10001
  /\ length (memory_dump out) = 32%nat
  /\ forall (i : nat) (a w : Z),
       memory_dump out !! i = Some (a, w) ->
       a = 65536 + Z.of_nat i * 4 /\ 0 <= w < 2 ^ 32.
Proof.
  unfold run_simulation. destruct file as [file|]; [|discriminate].
  destruct (load_program (Some file) (initialize_memory 32)) as [[|] mem] eqn:Hload;
    [|discriminate].
  destruct (while_loop _ (initial_sim mem)) as [r|] eqn:Hr; [|discriminate].
  intros [= _ <-]. cbn [trace_lines memory_dump].
  assert (Hinit : run_inv (initial_sim mem)).
  { split; [apply (machine_inv_loaded file mem Hload)|].
    split; [apply sim_inv_initial | apply Forall_nil_2]. }
  destruct (while_loop_run_inv _ _ _ Hinit Hr)
    as (((_ & Hmem) & _ & Hlen) & (_ & _ & Hcount & Hsteps) & Hlines).
  split; [exact Hlines|].
  split; [unfold max_steps in Hsteps; lia|].
  unfold format_memory. split; [rewrite length_imap; exact Hlen|].
  intros i a w Hi. rewrite list_lookup_imap in Hi.
  destruct (memory (mach r) !! i) as [v|] eqn:Hv; [|discriminate].
  cbn in Hi. injection Hi as <- <-. split; [reflexivity|].
  rewrite Forall_lookup in Hmem. apply (Hmem i v Hv).
Qed.

Lemma output_well_formed_witness :
  Forall line_ok (written halt_program_end)
  /\ Z.of_nat (length (written halt_program_end)) <= 10001
  /\ length (format_memory (memory (mach halt_program_end))) = 32%nat
  /\ forall (i : nat) (a w : Z),
       format_memory (memory (mach halt_program_end)) !! i = Some (a, w) ->
       a = 65536 + Z.of_nat i * 4 /\ 0 <= w < 2 ^ 32.
Proof.
  apply (output_well_formed (Some halt_program) (halted halt_program_end)
           (Output (written halt_program_end)
              (format_memory (memory (mach halt_program_end))))).
  apply (run_simulation_from (Some halt_program) (loaded halt_program)
           (initial_sim (loaded halt_program)) halt_program_end 1).
  - vm_compute. reflexivity.
  - apply reaches_start.
  - vm_compute. reflexivity.
Defined.

(** ** X25, X26: the opcodes without an executor *)

Lemma unknown_opcode_raises (instr : str) (pc0 : Z) (m : machine) :
  ~ In (slice_from 25 instr) known_opcodes ->
  execute_instruction_body instr pc0 m = (Raise Unknown_opcode, m).
Proof.
  intros Hn. unfold execute_instruction_body. cbn zeta. cbn [existsb].
  repeat match goal with
    | |- context [str_eqb (slice_from 25 instr) ?x] =>
        let E := fresh "E" in
        destruct (str_eqb (slice_from 25 instr) x) eqn:E;
        [apply str_eqb_eq in E; exfalso; apply Hn; rewrite E;
         unfold known_opcodes; cbn [In]; tauto|]
    end.
  reflexivity.
Qed.

(** X25.  A word whose last seven bits are none of the opcodes the
    dispatcher knows changes nothing: the cycle that fetches it raises the
    unknown-opcode error, its trace line is written, the loop stops and the
    run returns [False].  The all-zero word of a memory cell no program
    line was loaded into is such a word. *)
Theorem unknown_opcode_stops_run
    (file : list str) (mem : list Z) (s : sim) (instr_bin : str) :
  load_program (Some file) (initialize_memory 32) = (true, mem) ->
  reaches (initial_sim mem) s ->
  executes s ->
  fetched s instr_bin ->
  ~ In (slice_from 25 instr_bin) known_opcodes ->
  execute_instruction_body instr_bin (pc s) (entry_machine s)
  = (Raise Unknown_opcode, entry_machine s)
  /\ exists line,
       format_registers (pc s) (registers (entry_machine s)) = Ok line
       /\ run_simulation (Some file)
          = Some (false, Some (Output (written s ++ [line])
                                 (format_memory (memory (mach s))))).
Proof.
  intros Hload Hreach He Hf Hn.
  pose proof (unknown_opcode_raises instr_bin (pc s) (entry_machine s) Hn) as Hraise.
  pose proof (execute_instruction_raise _ _ _ _ _ Hraise) as Hexec.
  assert (Hok : regs_ok (registers (mach s))).
  { apply (reaches_inv _ _ (sim_inv_initial mem) Hreach). }
  split; [exact Hraise|].
  destruct (faulting_cycle s instr_bin _ 0 He Hok Hf Hexec) as (line & Hline & Hloop).
  exists line. split; [exact Hline|].
  apply (run_simulation_from _ _ _ _ _ Hload Hreach Hloop).
Qed.

Lemma unknown_opcode_stops_run_witness :
  execute_instruction_body (lit "00000000000000000000000000000000")
    (pc (initial_sim (loaded blank_program)))
    (entry_machine (initial_sim (loaded blank_program)))
  = (Raise Unknown_opcode, entry_machine (initial_sim (loaded blank_program)))
  /\ exists line,
       format_registers (pc (initial_sim (loaded blank_program)))
         (registers (entry_machine (initial_sim (loaded blank_program)))) = Ok line
       /\ run_simulation (Some blank_program)
          = Some (false,
                  Some (Output (written (initial_sim (loaded blank_program)) ++ [line])
                          (format_memory
                             (memory (mach (initial_sim (loaded blank_program))))))).
Proof.
  apply (unknown_opcode_stops_run blank_program (loaded blank_program)
           (initial_sim (loaded blank_program)) (lit "00000000000000000000000000000000")).
  - vm_compute. reflexivity.
  - apply reaches_start.
  - repeat split; vm_compute; congruence.
  - exists 0. split; vm_compute; reflexivity.
  - vm_compute. intuition discriminate.
Defined.

(** X26.  The opcode 1110011 halts whatever the other 25 bits of the word
    are: the cycle that fetches such a word changes neither registers nor
    memory, its trace line is written, the loop ends with the halted flag
    set and the run returns [True]. *)
Theorem system_opcode_halts
    (file : list str) (mem : list Z) (s : sim) (instr_bin : str) :
  load_program (Some file) (initialize_memory 32) = (true, mem) ->
  reaches (initial_sim mem) s ->
  executes s ->
  fetched s instr_bin ->
  slice_from 25 instr_bin = lit "1110011" ->
  execute_instruction instr_bin (pc s) (entry_machine s) = (-1, entry_machine s)
  /\ exists line,
       format_registers (pc s) (registers (entry_machine s)) = Ok line
       /\ run_simulation (Some file)
          = Some (true, Some (Output (written s ++ [line])
                                (format_memory (memory (mach s))))).
Proof.
  intros Hload Hreach He Hf Hop.
  assert (Hexec : execute_instruction instr_bin (pc s) (entry_machine s)
                  = (-1, entry_machine s)).
  { apply execute_instruction_ok. unfold execute_instruction_body. cbn zeta.
    rewrite Hop. reflexivity. }
  assert (Hok : regs_ok (registers (mach s))).
  { apply (reaches_inv _ _ (sim_inv_initial mem) Hreach). }
  split; [exact Hexec|].
  destruct (halting_cycle s instr_bin _ 0 He Hok Hf Hexec) as (line & Hline & Hloop).
  exists line. split; [exact Hline|].
  apply (run_simulation_from _ _ _ _ _ Hload Hreach Hloop).
Qed.

Lemma system_opcode_halts_witness :
  execute_instruction (lit "10100000000000000101000001110011")
    (pc (initial_sim (loaded system_program)))
    (entry_machine (initial_sim (loaded system_program)))
  = (-1, entry_machine (initial_sim (loaded system_program)))
  /\ exists line,
       format_registers (pc (initial_sim (loaded system_program)))
         (registers (entry_machine (initial_sim (loaded system_program)))) = Ok line
       /\ run_simulation (Some system_program)
          = Some (true,
                  Some (Output (written (initial_sim (loaded system_program)) ++ [line])
                          (format_memory
                             (memory (mach (initial_sim (loaded system_program))))))).
Proof.
  apply (system_opcode_halts system_program (loaded system_program)
           (initial_sim (loaded system_program)) (lit "10100000000000000101000001110011")).
  - vm_compute. reflexivity.
  - apply reaches_start.
  - repeat split; vm_compute; congruence.
  - exists 2684375155. split; vm_compute; reflexivity.
  - vm_compute. reflexivity.
Defined.

(** ** X27, X28: labels and the words they point at *)

Lemma do_instruction_emits (line : str) (num : nat) (labels : gmap str Z) (pc0 : Z)
    (r : option str) :
  starts_instruction line = true ->
  do_instruction line num labels pc0 = Done r ->
  exists word, r = Some word /\ word <> [].
Proof.
  intros Hs Hd. destruct r as [word|].
  - exists word. split; [reflexivity|].
    destruct (do_instruction_word32 _ _ _ _ _ Hd) as [Hl _].
    intros ->. discriminate Hl.
  - exfalso. revert Hs Hd. unfold starts_instruction, do_instruction.
    destruct (split (replace_punctuation line)) as [|inst operands]; [discriminate|].
    destruct (endswith_colon inst); [discriminate|]. intros _.
    destruct (dict_get insts inst) as [entry|] eqn:He; [|discriminate].
    apply dict_get_In in He. unfold insts in He.
    repeat (destruct He as [He|He]; [injection He as <- <-|]); [..|destruct He];
      cbn -[reg_get parse_immediate slice slice_from asm_char_at];
      destruct operands as [|p1 [|p2 [|p3 [|p4 rest]]]]; try discriminate;
      repeat match goal with
        | |- context [match reg_get ?p with _ => _ end] =>
            destruct (reg_get p); try discriminate
        end;
      repeat match goal with
        | |- context [asm_bind ?m _] => destruct m; cbn [asm_bind key]; try discriminate
        end.
Qed.

Lemma generate_count (lines : list str) (i : nat) (labels : gmap str Z) (pc0 : Z)
    (binary : list str) :
  Forall regular_line lines ->
  generate lines i labels pc0 = Done binary ->
  Z.of_nat (length binary) = instruction_lines lines.
Proof.
  intros Hall. revert i pc0 binary.
  induction Hall as [|line lines Hline _ IH]; intros i pc0 binary;
    cbn [generate instruction_lines].
  - intros [= <-]. reflexivity.
  - destruct (endswith_colon line) eqn:Hc; [intros Hg; rewrite (IH _ _ _ Hg); lia|].
    destruct Hline as [Hline|Hline]; [congruence|].
    destruct (do_instruction line i labels pc0) as [r|e] eqn:Hd; [|discriminate].
    cbn [asm_bind].
    destruct (generate lines (S i) labels (pc0 + 4)) as [rest|e] eqn:Hg; [|discriminate].
    cbn [asm_bind].
    destruct (do_instruction_emits _ _ _ _ _ Hline Hd) as (word & -> & Hw).
    destruct word as [|c word]; [contradiction|].
    intros [= <-]. cbn [length]. rewrite <- (IH _ _ _ Hg). lia.
Qed.

Lemma generate_app (l1 l2 : list str) (i : nat) (labels : gmap str Z) (pc0 : Z)
    (binary : list str) :
  generate (l1 ++ l2) i labels pc0 = Done binary ->
  exists b1 b2,
    binary = b1 ++ b2
    /\ generate l1 i labels pc0 = Done b1
    /\ generate l2 (i + length l1) labels (pc0 + 4 * instruction_lines l1) = Done b2.
Proof.
  revert i pc0 binary; induction l1 as [|line l1 IH]; intros i pc0 binary;
    cbn [app generate instruction_lines length].
  - intros Hg. exists [], binary. rewrite Nat.add_0_r, Z.add_0_r. auto.
  - destruct (endswith_colon line).
    + intros Hg. destruct (IH _ _ _ Hg) as (b1 & b2 & -> & H1 & H2).
      exists b1, b2. split; [reflexivity|]. split; [exact H1|].
      rewrite <- H2. f_equal; lia.
    + destruct (do_instruction line i labels pc0) as [r|e]; [|discriminate].
      cbn [asm_bind].
      destruct (generate (l1 ++ l2) (S i) labels (pc0 + 4)) as [rest|e] eqn:Hg;
        [|discriminate].
      cbn [asm_bind]. destruct (IH _ _ _ Hg) as (b1 & b2 & -> & H1 & H2).
      rewrite H1. cbn [asm_bind].
      replace (i + S (length l1))%nat with (S i + length l1)%nat by lia.
      replace (pc0 + 4 * (1 + instruction_lines l1))
        with (pc0 + 4 + 4 * instruction_lines l1) by lia.
      intros [= <-].
      destruct r as [[|c word]|].
      * exists b1, b2. auto.
      * exists ((c :: word) :: b1), b2. auto.
      * exists b1, b2. auto.
Qed.

(** X27.  The two passes of the assembler agree on where a label points:
    when every line before a label line is a label line or starts with a
    mnemonic, the output is the words of the lines before the label
    followed by the words of the lines after it, and the address bound to
    the label is four times the number of words written before it. *)
Theorem label_is_word_address
    (pre post : list str) (l : str) (labels : gmap str Z) (binary : list str) :
  collect_labels (pre ++ l :: post) ∅ 0 = Done labels ->
  generate (pre ++ l :: post) 1 labels 0 = Done binary ->
  endswith_colon l = true ->
  Forall regular_line pre ->
  exists b1 b2,
    binary = b1 ++ b2
    /\ generate pre 1 labels 0 = Done b1
    /\ generate post (2 + length pre) labels (4 * instruction_lines pre) = Done b2
    /\ labels !! removelast l = Some (4 * Z.of_nat (length b1)).
Proof.
  intros Hc Hg Hl Hpre.
  destruct (generate_app _ _ _ _ _ _ Hg) as (b1 & b2 & -> & H1 & H2).
  exists b1, b2. split; [reflexivity|]. split; [exact H1|].
  cbn [generate] in H2. rewrite Hl in H2. split.
  - rewrite <- H2. f_equal; lia.
  - rewrite (generate_count _ _ _ _ _ Hpre H1).
    apply (collect_labels_address pre post l ∅ labels 0 Hc Hl).
Qed.

Lemma label_is_word_address_witness :
  exists b1 b2,
    assembled ["addi a0, zero, 1"; "loop:"; "addi a0, a0, 1"; "jal zero, loop";
               "end:"; "beq zero, zero, 0"]%string = b1 ++ b2
    /\ generate loop_source_pre 1 loop_labels 0 = Done b1
    /\ generate loop_source_post (2 + length loop_source_pre) loop_labels
         (4 * instruction_lines loop_source_pre) = Done b2
    /\ loop_labels !! removelast (lit "end:") = Some (4 * Z.of_nat (length b1)).
Proof.
  apply (label_is_word_address loop_source_pre loop_source_post (lit "end:")).
  - vm_compute. reflexivity.
  - vm_compute. reflexivity.
  - reflexivity.
  - repeat constructor; first [left; reflexivity | right; reflexivity].
Defined.

(** X28.  A line that carries a label and an instruction together, such
    as [loop: addi ra, zero, 1], is lost: [do_instruction] returns nothing
    for it, so no word is written, the first pass defines no label from
    it, and yet both passes advance the PC by 4 over it before going on
    with the rest of the program. *)
Theorem inline_label_line_dropped
    (line tok : str) (toks rest : list str) (i : nat) (labels : gmap str Z) (pc0 : Z) :
  split (replace_punctuation line) = tok :: toks ->
  endswith_colon tok = true ->
  endswith_colon line = false ->
  do_instruction line i labels pc0 = Done None
  /\ collect_labels (line :: rest) labels pc0 = collect_labels rest labels (pc0 + 4)
  /\ generate (line :: rest) i labels pc0 = generate rest (S i) labels (pc0 + 4).
Proof.
  intros Hs Ht Hl.
  assert (Hd : do_instruction line i labels pc0 = Done None).
  { unfold do_instruction. rewrite Hs, Ht. reflexivity. }
  split; [exact Hd|]. cbn [collect_labels generate]. rewrite Hl, Hd.
  split; [reflexivity|]. cbn [asm_bind].
  destruct (generate rest (S i) labels (pc0 + 4)); reflexivity.
Qed.

Lemma inline_label_line_dropped_witness :
  do_instruction (lit "loop: addi ra, zero, 1") 1 ∅ 0 = Done None
  /\ collect_labels [lit "loop: addi ra, zero, 1"; lit "jal zero, loop"] ∅ 0
     = collect_labels [lit "jal zero, loop"] ∅ (0 + 4)
  /\ generate [lit "loop: addi ra, zero, 1"; lit "jal zero, loop"] 1 ∅ 0
     = generate [lit "jal zero, loop"] 2 ∅ (0 + 4).
Proof.
  apply (inline_label_line_dropped _ (lit "loop:") [lit "addi"; lit "ra"; lit "zero"; lit "1"]).
  - vm_compute. reflexivity.
  - reflexivity.
  - reflexivity.
Defined.

(** ** X29: how an immediate can fail *)

(** X29.  [parse_immediate] fails in two ways only: the operand is neither
    a defined label nor a decimal integer, or the value it resolves to lies
    outside the signed range of the field, in which case the error names
    that value; an immediate that does not fit is never truncated. *)
Theorem parse_immediate_failure
    (imm_str : str) (labels : gmap str Z) (pc0 : Z) (inst : str)
    (num size : nat) (e : asm_error) :
  parse_immediate imm_str labels pc0 inst num size = Exit e ->
  (labels !! imm_str = None /\ int10 imm_str = None /\ e = Invalid_immediate imm_str)
  \/ exists v,
       resolve_immediate imm_str labels pc0 inst = Done v
       /\ ~ (- 2 ^ (Z.of_nat size - 1) <= v <= 2 ^ (Z.of_nat size - 1) - 1)
       /\ e = Immediate_out_of_range v size.
Proof.
  unfold parse_immediate.
  destruct (resolve_immediate imm_str labels pc0 inst) as [v|e0] eqn:Hr; cbn [asm_bind].
  - destruct (Z.leb_spec (- 2 ^ (Z.of_nat size - 1)) v);
      destruct (Z.leb_spec v (2 ^ (Z.of_nat size - 1) - 1)); cbn [andb negb];
      try discriminate; intros [= <-]; right; exists v;
      (split; [reflexivity|]); (split; [lia | reflexivity]).
  - intros [= <-]. left. revert Hr. unfold resolve_immediate.
    destruct (labels !! imm_str).
    + destruct (is_branch inst); [discriminate|].
      destruct (str_eqb inst (lit "jal")); discriminate.
    + destruct (int10 imm_str); [discriminate|]. intros [= <-]. auto.
Qed.

Lemma parse_immediate_failure_witness :
  (({[ lit "far" := 8192 ]} : gmap str Z) !! lit "far" = None
   /\ int10 (lit "far") = None
   /\ Immediate_out_of_range 8192 12 = Invalid_immediate (lit "far"))
  \/ exists v,
       resolve_immediate (lit "far") {[ lit "far" := 8192 ]} 0 (lit "addi") = Done v
       /\ ~ (- 2 ^ (Z.of_nat 12 - 1) <= v <= 2 ^ (Z.of_nat 12 - 1) - 1)
       /\ Immediate_out_of_range 8192 12 = Immediate_out_of_range v 12.
Proof.
  apply (parse_immediate_failure _ _ _ _ 1).
  vm_compute. reflexivity.
Defined.

(** ** X30: comments *)

Lemma lstrip_app_nonspace (a b : str) (c : ascii) :
  is_space c = false -> lstrip (a ++ c :: b) = lstrip a ++ c :: b.
Proof.
  intros Hc. induction a as [|x a IH]; cbn [app lstrip].
  - rewrite Hc. reflexivity.
  - destruct (is_space x); [exact IH | reflexivity].
Qed.

Lemma lstrip_idempotent (s : str) : lstrip (lstrip s) = lstrip s.
Proof.
  induction s as [|c s IH]; [reflexivity|]. cbn [lstrip].
  destruct (is_space c) eqn:Hc; [exact IH|]. cbn [lstrip]. rewrite Hc. reflexivity.
Qed.

Lemma lstrip_suffix (s : str) : exists p, s = p ++ lstrip s.
Proof.
  induction s as [|c s [p IH]]; [exists []; reflexivity|]. cbn [lstrip].
  destruct (is_space c); [exists (c :: p); cbn; congruence | exists []; reflexivity].
Qed.

Lemma before_hash_app (x y : str) :
  ~ In "#"%char x -> before_hash (x ++ "#"%char :: y) = x.
Proof.
  induction x as [|c x IH]; intros Hn; cbn [app before_hash].
  - reflexivity.
  - destruct (Ascii.eqb_spec c "#") as [->|_]; [exfalso; apply Hn; left; reflexivity|].
    f_equal. apply IH. intros H. apply Hn. right. exact H.
Qed.

Lemma before_hash_none (x : str) : ~ In "#"%char x -> before_hash x = x.
Proof.
  induction x as [|c x IH]; intros Hn; cbn [before_hash]; [reflexivity|].
  destruct (Ascii.eqb_spec c "#") as [->|_]; [exfalso; apply Hn; left; reflexivity|].
  f_equal. apply IH. intros H. apply Hn. right. exact H.
Qed.

Lemma strip_idempotent (s : str) : strip (strip s) = strip s.
Proof.
  unfold strip.
  assert (H : forall x, lstrip x = x -> lstrip (rev (lstrip (rev x))) = rev (lstrip (rev x))).
  { intros [|c x] Hx; [reflexivity|].
    assert (Hc : is_space c = false).
    { cbn [lstrip] in Hx. destruct (is_space c) eqn:E; [|reflexivity].
      destruct (lstrip_suffix x) as [p Hp]. rewrite Hx in Hp.
      apply (f_equal (@length ascii)) in Hp. rewrite length_app in Hp. cbn in Hp. lia. }
    cbn [rev]. rewrite (lstrip_app_nonspace (rev x) [] c Hc), rev_app_distr.
    cbn [rev app lstrip]. rewrite Hc. reflexivity. }
  rewrite (H (lstrip s) (lstrip_idempotent s)), rev_involutive, lstrip_idempotent.
  reflexivity.
Qed.

(** X30.  The assembler ignores a comment: a line made of text without a
    [#], then a [#] and anything at all, is cleaned to the same string as
    the text alone, namely the text with the blanks at both ends
    removed. *)
Theorem comment_is_ignored (code comment : str) :
  ~ In "#"%char code ->
  clean_line (code ++ "#"%char :: comment) = strip code
  /\ clean_line code = strip code.
Proof.
  intros Hn. unfold clean_line. split.
  - assert (Hstrip : exists y, strip (code ++ "#"%char :: comment)
                               = lstrip code ++ "#"%char :: y).
    { unfold strip. rewrite lstrip_app_nonspace by reflexivity.
      rewrite rev_app_distr. cbn [rev]. rewrite <- app_assoc. cbn [app].
      rewrite lstrip_app_nonspace by reflexivity.
      rewrite rev_app_distr. cbn [rev]. rewrite rev_involutive, <- app_assoc.
      eexists. reflexivity. }
    destruct Hstrip as [y ->]. rewrite before_hash_app.
    + unfold strip. rewrite lstrip_idempotent. reflexivity.
    + destruct (lstrip_suffix code) as [p Hp]. intros Hin. apply Hn.
      rewrite Hp. apply in_or_app. right. exact Hin.
  - rewrite before_hash_none; [apply strip_idempotent|].
    intros Hin. apply Hn. unfold strip in Hin. apply in_rev in Hin.
    destruct (lstrip_suffix (rev (lstrip code))) as [p Hp].
    assert (H1 : In "#"%char (rev (lstrip code))).
    { rewrite Hp. apply in_or_app. right. exact Hin. }
    apply in_rev in H1. destruct (lstrip_suffix code) as [q Hq].
    rewrite Hq. apply in_or_app. right. exact H1.
Qed.

Lemma comment_is_ignored_witness :
  clean_line (lit "  addi ra, zero, 1  " ++ "#"%char :: lit " set # ra ")
  = strip (lit "  addi ra, zero, 1  ")
  /\ clean_line (lit "  addi ra, zero, 1  ") = strip (lit "  addi ra, zero, 1  ").
Proof.
  apply comment_is_ignored. vm_compute. intuition discriminate.
Defined.
